(** * Kalshi arbitrage bot: shallow embedding of the real-time pipeline

    The Python sources are embedded as Rocq functions, one module per source
    file.  Integers are [Z] (Python ints are unbounded), dictionaries are
    [gmap string _], [Optional] is [option], a call that can raise returns a
    [Py.outcome].  Exact decimals ([Decimal]) and the confidence score (a
    [float]) are rationals ([Q]).  Clock reads ([datetime.utcnow()]) and
    fresh identifiers ([uuid4]) are passed in as arguments; the callbacks a
    component invokes are recorded in a trace carried by its state.  The
    asyncio locks serialise the operations of a component, so each operation
    is one state transition.  Logging is left out. *)

From Stdlib Require Import ZArith QArith Qround Lia Lqa List Ascii String DecimalString.
From stdpp Require Import gmap strings list fin_maps.

Local Open Scope Z_scope.

(** ** src/risk/circuit_breaker.py *)

Module CircuitBreaker.

Inductive CircuitBreakerState := CLOSED | OPEN | HALF_OPEN.

Definition state_eqb (a b : CircuitBreakerState) : bool :=
  match a, b with
  | CLOSED, CLOSED | OPEN, OPEN | HALF_OPEN, HALF_OPEN => true
  | _, _ => false
  end.

(** Times are microseconds since the epoch (the resolution of [datetime]). *)
Record CircuitBreakerMetrics := {
  daily_loss_cents : Z;
  consecutive_losses : Z;
  total_exposure_cents : Z;
  last_loss_time : option Z;
  trip_count : Z;
  last_trip_time : option Z
}.

Record CircuitBreakerConfig := {
  max_daily_loss_cents : Z;
  max_consecutive_losses : Z;
  max_exposure_cents : Z;
  cooldown_seconds : Z;
  half_open_test_limit : Z
}.

Definition default_config : CircuitBreakerConfig :=
  {| max_daily_loss_cents := 10000; max_consecutive_losses := 5;
     max_exposure_cents := 50000; cooldown_seconds := 300;
     half_open_test_limit := 1 |}.

(** The reason strings are f-strings over one metric; the constructor keeps
    the metric that is formatted. *)
Inductive TripReason :=
| DailyLossLimit (daily_loss : Z)
| ConsecutiveLosses (count : Z)
| ExposureLimit (exposure : Z)
| Manual (reason : string).

(** Calls made to the two optional callbacks. *)
Inductive Callback :=
| OnTrip (reason : TripReason)
| OnReset.

Record t := {
  config : CircuitBreakerConfig;
  _on_trip : bool;            (* a trip callback is registered *)
  _on_reset : bool;           (* a reset callback is registered *)
  _state : CircuitBreakerState;
  _metrics : CircuitBreakerMetrics;
  _trip_reason : option TripReason;
  _trip_time : option Z;
  _half_open_trades : Z;
  calls : list Callback       (* callbacks invoked so far, latest first *)
}.

Definition init (cfg : option CircuitBreakerConfig) (on_trip on_reset : bool) : t :=
  {| config := match cfg with Some c => c | None => default_config end;
     _on_trip := on_trip; _on_reset := on_reset;
     _state := CLOSED;
     _metrics := {| daily_loss_cents := 0; consecutive_losses := 0;
                    total_exposure_cents := 0; last_loss_time := None;
                    trip_count := 0; last_trip_time := None |};
     _trip_reason := None; _trip_time := None; _half_open_trades := 0;
     calls := [] |}.

Definition with_metrics (b : t) (m : CircuitBreakerMetrics) : t :=
  {| config := config b; _on_trip := _on_trip b; _on_reset := _on_reset b;
     _state := _state b; _metrics := m; _trip_reason := _trip_reason b;
     _trip_time := _trip_time b; _half_open_trades := _half_open_trades b;
     calls := calls b |}.

Definition _trip (b : t) (reason : TripReason) (now : Z) : t :=
  let m := _metrics b in
  {| config := config b; _on_trip := _on_trip b; _on_reset := _on_reset b;
     _state := OPEN;
     _metrics := {| daily_loss_cents := daily_loss_cents m;
                    consecutive_losses := consecutive_losses m;
                    total_exposure_cents := total_exposure_cents m;
                    last_loss_time := last_loss_time m;
                    trip_count := trip_count m + 1;
                    last_trip_time := Some now |};
     _trip_reason := Some reason;
     _trip_time := Some now;
     _half_open_trades := _half_open_trades b;
     calls := if _on_trip b then OnTrip reason :: calls b else calls b |}.

Definition _check_trip_conditions (b : t) (now : Z) : t :=
  if state_eqb (_state b) OPEN then b
  else
    let m := _metrics b in
    let c := config b in
    if max_daily_loss_cents c <=? daily_loss_cents m
    then _trip b (DailyLossLimit (daily_loss_cents m)) now
    else if max_consecutive_losses c <=? consecutive_losses m
    then _trip b (ConsecutiveLosses (consecutive_losses m)) now
    else if max_exposure_cents c <=? total_exposure_cents m
    then _trip b (ExposureLimit (total_exposure_cents m)) now
    else b.

Definition _should_transition_to_half_open (b : t) (now : Z) : bool :=
  match _trip_time b with
  | None => true
  | Some t0 => cooldown_seconds (config b) * 1000000 <=? now - t0
  end.

Definition _transition_to_half_open (b : t) : t :=
  {| config := config b; _on_trip := _on_trip b; _on_reset := _on_reset b;
     _state := HALF_OPEN; _metrics := _metrics b;
     _trip_reason := _trip_reason b; _trip_time := _trip_time b;
     _half_open_trades := 0; calls := calls b |}.

Definition _transition_to_closed (b : t) : t :=
  {| config := config b; _on_trip := _on_trip b; _on_reset := _on_reset b;
     _state := CLOSED; _metrics := _metrics b;
     _trip_reason := None; _trip_time := None;
     _half_open_trades := 0;
     calls := if _on_reset b then OnReset :: calls b else calls b |}.

(** Remaining cool-down in seconds. *)
Definition _cooldown_remaining (b : t) (now : Z) : Q :=
  match _trip_time b with
  | None => 0%Q
  | Some t0 =>
      let remaining := (inject_Z (cooldown_seconds (config b))
                        - Qmake (now - t0) 1000000)%Q in
      if Qle_bool 0 remaining then remaining else 0%Q
  end.

Inductive CircuitBreakerOpenError :=
| BreakerOpen (reason : option TripReason) (cooldown_remaining : Q)
| HalfOpenLimitReached.

(** [check_and_allow] returns [inl true] or raises; the second component is
    the breaker after the call (a raise keeps the mutations made before). *)
Definition check_and_allow (b : t) (now : Z)
  : (bool + CircuitBreakerOpenError) * t :=
  let step1 : option CircuitBreakerOpenError * t :=
    if state_eqb (_state b) OPEN then
      if _should_transition_to_half_open b now
      then (None, _transition_to_half_open b)
      else (Some (BreakerOpen (_trip_reason b) (_cooldown_remaining b now)), b)
    else (None, b) in
  match step1 with
  | (Some e, b1) => (inr e, b1)
  | (None, b1) =>
      if state_eqb (_state b1) HALF_OPEN then
        if half_open_test_limit (config b1) <=? _half_open_trades b1
        then (inr HalfOpenLimitReached, b1)
        else (inl true,
              {| config := config b1; _on_trip := _on_trip b1;
                 _on_reset := _on_reset b1; _state := _state b1;
                 _metrics := _metrics b1; _trip_reason := _trip_reason b1;
                 _trip_time := _trip_time b1;
                 _half_open_trades := _half_open_trades b1 + 1;
                 calls := calls b1 |})
      else (inl true, b1)
  end.

Definition record_trade_result (b : t) (profit_cents exposure_cents now : Z) : t :=
  let m := _metrics b in
  let m1 := {| daily_loss_cents := daily_loss_cents m;
               consecutive_losses := consecutive_losses m;
               total_exposure_cents := exposure_cents;
               last_loss_time := last_loss_time m;
               trip_count := trip_count m;
               last_trip_time := last_trip_time m |} in
  if profit_cents <? 0 then
    let m2 := {| daily_loss_cents := daily_loss_cents m1 + Z.abs profit_cents;
                 consecutive_losses := consecutive_losses m1 + 1;
                 total_exposure_cents := total_exposure_cents m1;
                 last_loss_time := Some now;
                 trip_count := trip_count m1;
                 last_trip_time := last_trip_time m1 |} in
    _check_trip_conditions (with_metrics b m2) now
  else
    let m2 := {| daily_loss_cents := daily_loss_cents m1;
                 consecutive_losses := 0;
                 total_exposure_cents := total_exposure_cents m1;
                 last_loss_time := last_loss_time m1;
                 trip_count := trip_count m1;
                 last_trip_time := last_trip_time m1 |} in
    let b2 := with_metrics b m2 in
    if state_eqb (_state b2) HALF_OPEN then _transition_to_closed b2 else b2.

Definition record_exposure (b : t) (exposure_cents now : Z) : t :=
  let m := _metrics b in
  _check_trip_conditions
    (with_metrics b {| daily_loss_cents := daily_loss_cents m;
                       consecutive_losses := consecutive_losses m;
                       total_exposure_cents := exposure_cents;
                       last_loss_time := last_loss_time m;
                       trip_count := trip_count m;
                       last_trip_time := last_trip_time m |}) now.

Definition reset_daily_metrics (b : t) : t :=
  let m := _metrics b in
  with_metrics b {| daily_loss_cents := 0;
                    consecutive_losses := consecutive_losses m;
                    total_exposure_cents := total_exposure_cents m;
                    last_loss_time := last_loss_time m;
                    trip_count := trip_count m;
                    last_trip_time := last_trip_time m |}.

Definition force_close (b : t) : t := _transition_to_closed b.

Definition force_open (b : t) (reason : string) (now : Z) : t :=
  _trip b (Manual reason) now.

End CircuitBreaker.

(** ** Exceptions

  A call either returns or raises.  Only the exceptions the modelled code
  can raise are listed. *)

Module Py.

Inductive exn :=
| ValidationError (field : string)   (* pydantic field constraint violated *)
| ValueError (msg : string)
| OrderError (msg : string)
| VenueError (msg : string).         (* anything the API client raises *)

(** [str(e)], up to the text an exception wraps. *)
Definition str (e : exn) : string :=
  match e with
  | ValidationError f => f
  | ValueError m | OrderError m | VenueError m => m
  end.

Inductive outcome (A : Type) :=
| Return (a : A)
| Raise (e : exn).
Arguments Return {A} a.
Arguments Raise {A} e.

Definition bind {A B} (m : outcome A) (k : A -> outcome B) : outcome B :=
  match m with
  | Return a => k a
  | Raise e => Raise e
  end.

End Py.

#[global] Instance outcome_ret : MRet Py.outcome := @Py.Return.
#[global] Instance outcome_bind : MBind Py.outcome := fun A B k m => Py.bind m k.

(** ** src/data/models.py *)

Module Models.

Inductive OrderSide := YES | NO.
Inductive OrderAction := BUY | SELL.
Inductive ArbitrageType := MULTI_OUTCOME | TIME_BASED | CORRELATED.

Definition action_eqb (a b : OrderAction) : bool :=
  match a, b with
  | BUY, BUY | SELL, SELL => true
  | _, _ => false
  end.

Record OrderbookLevel := { price : Z; quantity : Z }.

(** [Field(..., ge=1, le=99)] and [Field(..., ge=0)]. *)
Definition level_ok (l : OrderbookLevel) : bool :=
  (1 <=? price l) && (price l <=? 99) && (0 <=? quantity l).

Record Orderbook := {
  ob_ticker : string;
  yes_bids : list OrderbookLevel;
  no_bids : list OrderbookLevel;
  timestamp : Z
}.

Definition orderbook_ok (ob : Orderbook) : bool :=
  forallb level_ok (yes_bids ob) && forallb level_ok (no_bids ob).

(** [max(level.price for level in levels)] on a non-empty list. *)
Definition max_price (l0 : OrderbookLevel) (ls : list OrderbookLevel) : Z :=
  fold_left (fun acc l => Z.max acc (price l)) ls (price l0).

Definition best_yes_bid (ob : Orderbook) : option Z :=
  match yes_bids ob with
  | [] => None
  | l0 :: ls => Some (max_price l0 ls)
  end.

Definition best_no_bid (ob : Orderbook) : option Z :=
  match no_bids ob with
  | [] => None
  | l0 :: ls => Some (max_price l0 ls)
  end.

Definition best_yes_ask (ob : Orderbook) : option Z :=
  match no_bids ob with
  | [] => None
  | _ => match best_no_bid ob with
         | None => None
         | Some best_no => Some (100 - best_no)
         end
  end.

Definition best_no_ask (ob : Orderbook) : option Z :=
  match yes_bids ob with
  | [] => None
  | _ => match best_yes_bid ob with
         | None => None
         | Some best_yes => Some (100 - best_yes)
         end
  end.

Definition sum_Z (l : list Z) : Z := fold_left Z.add l 0.

Definition yes_ask_quantity (ob : Orderbook) : Z :=
  match no_bids ob with
  | [] => 0
  | _ =>
      let best_price := best_no_bid ob in
      sum_Z (map quantity
               (filter (fun l => Some (price l) = best_price) (no_bids ob)))
  end.

(** [ask_price * quantity if ask_price else None]: an [Optional[int]] is
    falsy when it is [None] or [0]. *)
Definition get_acquisition_cost (ob : Orderbook) (side : OrderSide) (qty : Z)
  : option Z :=
  let ask_price := match side with
                   | YES => best_yes_ask ob
                   | NO => best_no_ask ob
                   end in
  match ask_price with
  | Some a => if a =? 0 then None else Some (a * qty)
  | None => None
  end.

Inductive OrderStatus :=
| RESTING | ORDER_PENDING | ORDER_CANCELED | EXECUTED | ORDER_PARTIAL.

Definition order_status_eqb (a b : OrderStatus) : bool :=
  match a, b with
  | RESTING, RESTING | ORDER_PENDING, ORDER_PENDING
  | ORDER_CANCELED, ORDER_CANCELED | EXECUTED, EXECUTED
  | ORDER_PARTIAL, ORDER_PARTIAL => true
  | _, _ => false
  end.

Record Order := {
  order_id : string;
  order_ticker : string;
  client_order_id : option string;
  order_side : OrderSide;
  order_action : OrderAction;
  order_status : OrderStatus;
  order_price : Z;
  count : Z;
  remaining_count : Z
}.

Definition set_order_status (st : OrderStatus) (o : Order) : Order :=
  {| order_id := order_id o; order_ticker := order_ticker o;
     client_order_id := client_order_id o; order_side := order_side o;
     order_action := order_action o; order_status := st;
     order_price := order_price o; count := count o;
     remaining_count := remaining_count o |}.

Record Market := {
  ticker : string;
  event_ticker : string;
  title : string;
  status : string
}.

Record Position := {
  pos_ticker : string;
  market_exposure : Z;
  position : Z;
  resting_orders_count : Z;
  total_traded : Z
}.

Definition contracts (p : Position) : Z := Z.abs (position p).

Record ArbitrageLeg := {
  leg_ticker : string;
  side : OrderSide;
  action : OrderAction;
  leg_price : Z;
  leg_quantity : Z
}.

(** The constructor validates [price] in 1..99 and [quantity >= 1]. *)
Definition new_ArbitrageLeg (t : string) (s : OrderSide) (a : OrderAction)
    (p q : Z) : Py.outcome ArbitrageLeg :=
  if negb ((1 <=? p) && (p <=? 99)) then Py.Raise (Py.ValidationError "price")
  else if negb (1 <=? q) then Py.Raise (Py.ValidationError "quantity")
  else Py.Return {| leg_ticker := t; side := s; action := a;
                    leg_price := p; leg_quantity := q |}.

Record ArbitrageOpportunity := {
  id : string;
  type : ArbitrageType;
  opp_event_ticker : string;
  legs : list ArbitrageLeg;
  total_cost_cents : Z;
  guaranteed_return_cents : Z;
  gross_profit_cents : Z;
  estimated_fees_cents : Z;
  net_profit_cents : Z;
  max_quantity : Z;
  detected_at : Z;
  confidence : Q
}.

(** The constructor validates [max_quantity >= 1] and [0 <= confidence <= 1]. *)
Definition new_ArbitrageOpportunity (i : string) (ty : ArbitrageType)
    (ev : string) (ls : list ArbitrageLeg) (total guaranteed gross fees net
    max_qty now : Z) (conf : Q) : Py.outcome ArbitrageOpportunity :=
  if negb (1 <=? max_qty) then Py.Raise (Py.ValidationError "max_quantity")
  else if negb (Qle_bool 0 conf && Qle_bool conf 1)
  then Py.Raise (Py.ValidationError "confidence")
  else Py.Return {| id := i; type := ty; opp_event_ticker := ev; legs := ls;
                    total_cost_cents := total;
                    guaranteed_return_cents := guaranteed;
                    gross_profit_cents := gross;
                    estimated_fees_cents := fees;
                    net_profit_cents := net;
                    max_quantity := max_qty;
                    detected_at := now;
                    confidence := conf |}.

Definition is_profitable (o : ArbitrageOpportunity) : bool :=
  0 <? net_profit_cents o.

End Models.

(** ** src/arbitrage/calculator.py

  [Decimal] values are exact decimal fractions, modelled as rationals (the
  default context keeps 28 significant digits, far more than a fee in cents
  needs). *)

Module Calculator.
Import Models.

Record ProfitCalculator := { fee_rate : Q }.

Definition FEE_RATE : Q := 7 # 1000.
Definition PAYOUT_CENTS : Z := 100.

(** [self.fee_rate = fee_rate or self.FEE_RATE]: a zero [Decimal] is falsy. *)
Definition init (rate : option Q) : ProfitCalculator :=
  {| fee_rate := match rate with
                 | Some r => if Qeq_bool r 0 then FEE_RATE else r
                 | None => FEE_RATE
                 end |}.

(** [int(d.quantize(Decimal("1"), rounding=ROUND_UP))]: away from zero. *)
Definition quantize_ROUND_UP (d : Q) : Z :=
  if Qle_bool 0 d then Qceiling d else Qfloor d.

Definition calculate_leg_cost (leg : ArbitrageLeg) : Z :=
  if action_eqb (action leg) BUY
  then leg_price leg * leg_quantity leg
  else - leg_price leg * leg_quantity leg.

Definition calculate_total_cost (legs : list ArbitrageLeg) : Z :=
  sum_Z (map calculate_leg_cost legs).

Definition calculate_fee_per_contract (c : ProfitCalculator) (p : Z) : Z :=
  let potential_profit := PAYOUT_CENTS - p in
  quantize_ROUND_UP (inject_Z potential_profit * fee_rate c)%Q.

(** Fee charged if [leg] is the winning one. *)
Definition leg_fee (c : ProfitCalculator) (leg : ArbitrageLeg) : Z :=
  let potential_profit := PAYOUT_CENTS - leg_price leg in
  quantize_ROUND_UP
    (inject_Z potential_profit * fee_rate c * inject_Z (leg_quantity leg))%Q.

Definition calculate_total_fees (c : ProfitCalculator)
    (legs : list ArbitrageLeg) : Z :=
  fold_left
    (fun max_fee leg =>
       if action_eqb (action leg) BUY
       then Z.max max_fee (leg_fee c leg)
       else max_fee)
    legs 0.

Definition calculate_gross_profit (total_cost guaranteed_return : Z) : Z :=
  guaranteed_return - total_cost.

Definition calculate_net_profit (c : ProfitCalculator)
    (legs : list ArbitrageLeg) (guaranteed_return : Z) : Z :=
  let total_cost := calculate_total_cost legs in
  let gross_profit := calculate_gross_profit total_cost guaranteed_return in
  let fees := calculate_total_fees c legs in
  gross_profit - fees.

End Calculator.

(** ** src/arbitrage/strategies/multioutcome.py *)

Module MultiOutcomeStrategy.
Import Models.

Definition GUARANTEED_PAYOUT : Z := 100.

Record t := {
  min_profit_cents : Z;
  min_markets : Z;
  max_markets : Z;
  calculator : Calculator.ProfitCalculator
}.

Definition init (min_profit min_mk max_mk : Z) : t :=
  {| min_profit_cents := min_profit; min_markets := min_mk;
     max_markets := max_mk; calculator := Calculator.init None |}.

Definition len {A} (l : list A) : Z := Z.of_nat (length l).

(** State of the loop over the markets: legs, max_quantities, total_cost. *)
Definition loop_state : Type := list ArbitrageLeg * gmap string Z * Z.

(** The [for market in markets] loop of [detect]; [Return None] is one of
    its early [return None]. *)
Fixpoint build_legs (markets : list Market) (orderbooks : gmap string Orderbook)
    (st : loop_state) : Py.outcome (option loop_state) :=
  match markets with
  | [] => Py.Return (Some st)
  | market :: rest =>
      let '(legs, max_quantities, total_cost) := st in
      match orderbooks !! ticker market with
      | None => Py.Return None
      | Some orderbook =>
          match best_yes_ask orderbook with
          | None => Py.Return None
          | Some yes_ask =>
              let quantity := yes_ask_quantity orderbook in
              if quantity <=? 0 then Py.Return None
              else
                leg ← new_ArbitrageLeg (ticker market) YES BUY yes_ask 1;
                build_legs rest orderbooks
                  (legs ++ [leg],
                   <[ticker market := quantity]> max_quantities,
                   total_cost + yes_ask)
          end
      end
  end.

(** [min(d.values())]; raises [ValueError] on an empty dictionary. *)
Definition min_values (d : gmap string Z) : Py.outcome Z :=
  match (map_to_list d).*2 with
  | [] => Py.Raise (Py.ValueError "min() arg is an empty sequence")
  | v :: vs => Py.Return (fold_left Z.min vs v)
  end.

Definition Qmin (a b : Q) : Q := if Qle_bool a b then a else b.

(** The score is computed in binary floating point by the source; here it
    is the exact rational value of the same expression. *)
Definition _calculate_confidence (markets : list Market)
    (orderbooks : gmap string Orderbook) : Q :=
  match markets with
  | [] => 0%Q
  | _ =>
      let quantities :=
        omap (fun m => yes_ask_quantity <$> orderbooks !! ticker m) markets in
      let avg_qty := match quantities with
                     | [] => 0%Q
                     | _ => (inject_Z (sum_Z quantities) / inject_Z (len quantities))%Q
                     end in
      let qty_score := Qmin (avg_qty / 100) 1 in
      let coverage := (inject_Z (Z.of_nat (size orderbooks))
                       / inject_Z (len markets))%Q in
      (qty_score * (1 # 2) + coverage * (1 # 2))%Q
  end.

(** [detect]; [fresh_id] stands for [uuid.uuid4()] and [now] for
    [datetime.utcnow()]. *)
Definition detect (s : t) (fresh_id : string) (now : Z)
    (markets : list Market) (orderbooks : gmap string Orderbook)
  : Py.outcome (option ArbitrageOpportunity) :=
  if len markets <? min_markets s then Py.Return None
  else if max_markets s <? len markets then Py.Return None
  else
    r ← build_legs markets orderbooks ([], ∅, 0);
    match r with
    | None => Py.Return None
    | Some (legs, max_quantities, total_cost) =>
        if GUARANTEED_PAYOUT <=? total_cost then Py.Return None
        else
          let gross_profit := GUARANTEED_PAYOUT - total_cost in
          let fees := Calculator.calculate_total_fees (calculator s) legs in
          let net_profit := gross_profit - fees in
          if net_profit <? min_profit_cents s then Py.Return None
          else
            max_qty ← min_values max_quantities;
            let event_ticker := match markets with
                                | m :: _ => Models.event_ticker m
                                | [] => "unknown"%string
                                end in
            opportunity ← new_ArbitrageOpportunity fresh_id MULTI_OUTCOME
                            event_ticker legs total_cost GUARANTEED_PAYOUT
                            gross_profit fees net_profit max_qty now
                            (_calculate_confidence markets orderbooks);
            Py.Return (Some opportunity)
    end.

(** The loop of [validate_opportunity]: [None] is one of its early
    [return False], [Some total_cost] the sum of the current asks. *)
Fixpoint revalidate_legs (legs : list ArbitrageLeg)
    (orderbooks : gmap string Orderbook) (total_cost : Z) : option Z :=
  match legs with
  | [] => Some total_cost
  | leg :: rest =>
      match orderbooks !! leg_ticker leg with
      | None => None
      | Some orderbook =>
          match best_yes_ask orderbook with
          | None => None
          | Some yes_ask =>
              if leg_price leg <? yes_ask then None
              else if yes_ask_quantity orderbook <? leg_quantity leg then None
              else revalidate_legs rest orderbooks (total_cost + yes_ask)
          end
      end
  end.

Definition validate_opportunity (s : t) (opportunity : ArbitrageOpportunity)
    (orderbooks : gmap string Orderbook) : bool :=
  match revalidate_legs (legs opportunity) orderbooks 0 with
  | None => false
  | Some total_cost =>
      let gross_profit := GUARANTEED_PAYOUT - total_cost in
      let fees := Calculator.calculate_total_fees (calculator s)
                    (legs opportunity) in
      let net_profit := gross_profit - fees in
      min_profit_cents s <=? net_profit
  end.

End MultiOutcomeStrategy.

(** ** src/arbitrage/detector.py *)

Module ArbitrageDetector.
Import Models.

(** The key function local to [get_best_opportunity].  The source adds an
    [int], a [float] and an [int]; the model adds the same numbers exactly
    (binary64 is exact on integers and halves of this size). *)
Definition score (opp : ArbitrageOpportunity) : Q :=
  (inject_Z (net_profit_cents opp * 100) + confidence opp * 10
   + inject_Z (max_quantity opp))%Q.

(** [max(xs, key=score)] on a non-empty list: the first element whose key
    no other element exceeds. *)
Definition max_by_score (x : ArbitrageOpportunity)
    (xs : list ArbitrageOpportunity) : ArbitrageOpportunity :=
  fold_left
    (fun best o => if Qle_bool (score o) (score best) then best else o)
    xs x.

Definition get_best_opportunity (opportunities : list ArbitrageOpportunity)
  : option ArbitrageOpportunity :=
  match opportunities with
  | [] => None
  | _ =>
      match List.filter is_profitable opportunities with
      | [] => None
      | o :: os => Some (max_by_score o os)
      end
  end.

(** [validate_opportunity] of a detector whose only enabled strategy is
    the multi-outcome one: an opportunity of another type finds no
    strategy and is not valid. *)
Definition validate_opportunity (multioutcome : MultiOutcomeStrategy.t)
    (opportunity : ArbitrageOpportunity) (orderbooks : gmap string Orderbook)
  : bool :=
  match type opportunity with
  | MULTI_OUTCOME =>
      MultiOutcomeStrategy.validate_opportunity multioutcome opportunity orderbooks
  | _ => false
  end.

End ArbitrageDetector.

(** ** src/data/orderbook_manager.py *)

Module OrderbookManager.
Import Models.

Record t := { _orderbooks : gmap string Orderbook }.

Definition get_orderbook (m : t) (tk : string) : option Orderbook :=
  _orderbooks m !! tk.

Definition get_all_orderbooks (m : t) : gmap string Orderbook := _orderbooks m.

(** The result dictionary maps every requested ticker to an optional cost. *)
Definition get_acquisition_costs (m : t) (tickers : list string)
    (side : OrderSide) (qty : Z) : gmap string (option Z) :=
  fold_left
    (fun costs tk =>
       match _orderbooks m !! tk with
       | Some orderbook => <[tk := get_acquisition_cost orderbook side qty]> costs
       | None => <[tk := None]> costs
       end)
    tickers ∅.

End OrderbookManager.

(** ** src/execution/position_tracker.py (the readers the exposure gate uses) *)

Module PositionTracker.
Import Models.

Record t := { _positions : gmap string Position; _balance_cents : Z }.

Definition positions (tr : t) : gmap string Position := _positions tr.

Definition get_position (tr : t) (tk : string) : option Position :=
  _positions tr !! tk.

(** [sum(pos.market_exposure for pos in self._positions.values())] *)
Definition get_total_exposure (tr : t) : Z :=
  sum_Z (market_exposure <$> (map_to_list (_positions tr)).*2).

End PositionTracker.

(** ** src/risk/exposure_manager.py *)

Module ExposureManager.
Import Models.

Record ExposureLimits := {
  max_total_exposure_cents : Z;
  max_position_per_market : Z;
  max_exposure_per_market_cents : Z;
  max_concurrent_trades : Z
}.

Definition default_limits : ExposureLimits :=
  {| max_total_exposure_cents := 50000; max_position_per_market := 100;
     max_exposure_per_market_cents := 10000; max_concurrent_trades := 5 |}.

(** The denial reasons are f-strings; the constructor tells which check
    produced the message and keeps the values it formats. *)
Inductive Reason :=
| TotalExposureLimit (projected_total limit : Z)
| PositionLimit (tk : string) (projected limit : Z)
| MarketExposureLimit (tk : string).

Record ExposureCheck := {
  allowed : bool;
  reason : option Reason;
  max_allowed_quantity : Z;
  current_exposure_cents : Z;
  limit_exposure_cents : Z
}.

Record t := {
  position_tracker : PositionTracker.t;
  limits : ExposureLimits
}.

Definition init (tr : PositionTracker.t) (l : option ExposureLimits) : t :=
  {| position_tracker := tr;
     limits := match l with Some x => x | None => default_limits end |}.

(** Python's floor division is [Z.div] for a positive divisor, the only
    case in which it is evaluated. *)
Definition _calculate_max_quantity (current per_unit_cost limit : Z) : Z :=
  if per_unit_cost <=? 0 then 0
  else
    let remaining := limit - current in
    Z.max 0 (remaining / per_unit_cost).

(** The [for leg in opportunity.legs] loop of [check_trade]: [Some] is the
    denial returned from inside the loop, [None] means the loop ran out. *)
Fixpoint check_legs (m : t) (positions : gmap string Position)
    (current_total qty : Z) (legs : list ArbitrageLeg) : option ExposureCheck :=
  match legs with
  | [] => None
  | leg :: rest =>
      let position := positions !! leg_ticker leg in
      let current_contracts :=
        match position with Some p => contracts p | None => 0 end in
      if max_position_per_market (limits m) <? current_contracts + qty then
        Some {| allowed := false;
                reason := Some (PositionLimit (leg_ticker leg)
                                  (current_contracts + qty)
                                  (max_position_per_market (limits m)));
                max_allowed_quantity :=
                  max_position_per_market (limits m) - current_contracts;
                current_exposure_cents := current_total;
                limit_exposure_cents := max_total_exposure_cents (limits m) |}
      else
        let current_market_exposure :=
          match position with Some p => market_exposure p | None => 0 end in
        let new_market_exposure :=
          current_market_exposure + leg_price leg * qty in
        if max_exposure_per_market_cents (limits m) <? new_market_exposure then
          Some {| allowed := false;
                  reason := Some (MarketExposureLimit (leg_ticker leg));
                  max_allowed_quantity :=
                    _calculate_max_quantity current_market_exposure
                      (leg_price leg)
                      (max_exposure_per_market_cents (limits m));
                  current_exposure_cents := current_total;
                  limit_exposure_cents := max_total_exposure_cents (limits m) |}
        else check_legs m positions current_total qty rest
  end.

Definition check_trade (m : t) (opportunity : ArbitrageOpportunity) (qty : Z)
  : ExposureCheck :=
  let positions := PositionTracker.positions (position_tracker m) in
  let current_total := PositionTracker.get_total_exposure (position_tracker m) in
  let new_exposure := total_cost_cents opportunity * qty in
  let projected_total := current_total + new_exposure in
  if max_total_exposure_cents (limits m) <? projected_total then
    {| allowed := false;
       reason := Some (TotalExposureLimit projected_total
                         (max_total_exposure_cents (limits m)));
       max_allowed_quantity :=
         _calculate_max_quantity current_total
           (total_cost_cents opportunity)
           (max_total_exposure_cents (limits m));
       current_exposure_cents := current_total;
       limit_exposure_cents := max_total_exposure_cents (limits m) |}
  else
    match check_legs m positions current_total qty (legs opportunity) with
    | Some denial => denial
    | None =>
        {| allowed := true;
           reason := None;
           max_allowed_quantity := qty;
           current_exposure_cents := current_total;
           limit_exposure_cents := max_total_exposure_cents (limits m) |}
    end.

End ExposureManager.

(** ** src/execution/order_manager.py

  The venue is an oracle: what [client.create_order] answers for a leg
  (already parsed by [_parse_order]) or the exception it raises, and whether
  a cancel request succeeds. *)

Module OrderManager.
Import Models.

Inductive OrderGroupStatus :=
| PENDING | SUBMITTING | PARTIAL | COMPLETE | FAILED | CANCELED.

Record OrderGroup := {
  group_id : string;
  group_opportunity_id : string;
  group_legs : list ArbitrageLeg;
  orders : gmap string Order;          (* ticker -> Order *)
  group_status : OrderGroupStatus;
  group_error : option string
}.

Record Venue := {
  create_order : ArbitrageLeg -> string -> Py.outcome Order;
  cancel_order_ok : string -> bool
}.

Record t := {
  _order_groups : gmap string OrderGroup;
  _orders : gmap string Order          (* order_id -> Order *)
}.

Definition filled_legs (g : OrderGroup) : Z :=
  Z.of_nat (length (filter (fun o => order_status_eqb (order_status o) EXECUTED = true)
                      (map_to_list (orders g)).*2)).

(** [create_order_group]: every leg is rebuilt with the adjusted quantity
    and the group is stored under its fresh id. *)
Fixpoint adjust_legs (legs : list ArbitrageLeg) (qty : Z)
  : Py.outcome (list ArbitrageLeg) :=
  match legs with
  | [] => Py.Return []
  | leg :: rest =>
      adjusted_leg ← new_ArbitrageLeg (leg_ticker leg) (side leg) (action leg)
                       (leg_price leg) qty;
      rest' ← adjust_legs rest qty;
      Py.Return (adjusted_leg :: rest')
  end.

Definition create_order_group (om : t) (fresh_id : string)
    (opportunity : ArbitrageOpportunity) (qty : Z)
  : Py.outcome OrderGroup * t :=
  match adjust_legs (legs opportunity) (Z.min qty (max_quantity opportunity)) with
  | Py.Raise e => (Py.Raise e, om)
  | Py.Return legs' =>
      let group := {| group_id := fresh_id;
                      group_opportunity_id := id opportunity;
                      group_legs := legs';
                      orders := ∅;
                      group_status := PENDING;
                      group_error := None |} in
      (Py.Return group,
       {| _order_groups := <[fresh_id := group]> (_order_groups om);
          _orders := _orders om |})
  end.

(** [submit_order]: any exception becomes an [OrderError]. *)
Definition submit_order (om : t) (v : Venue) (leg : ArbitrageLeg)
    (client_id : string) : Py.outcome Order * t :=
  match create_order v leg client_id with
  | Py.Return order =>
      (Py.Return order,
       {| _order_groups := _order_groups om;
          _orders := <[order_id order := order]> (_orders om) |})
  | Py.Raise e =>
      (Py.Raise (Py.OrderError ("Failed to submit order: " ++ Py.str e)), om)
  end.

(** The loop over the legs inside the [try] of [submit_order_group]; it
    stops at the first leg whose submission raises. *)
Fixpoint submit_legs (om : t) (v : Venue) (gid : string)
    (legs : list ArbitrageLeg) (placed : gmap string Order)
  : option Py.exn * gmap string Order * t :=
  match legs with
  | [] => (None, placed, om)
  | leg :: rest =>
      let client_id := (gid ++ "-" ++ leg_ticker leg)%string in
      match submit_order om v leg client_id with
      | (Py.Return order, om') =>
          submit_legs om' v gid rest (<[leg_ticker leg := order]> placed)
      | (Py.Raise e, om') => (Some e, placed, om')
      end
  end.

(** [_cancel_group_orders]: a resting order whose cancel succeeds is marked
    canceled; the order object is shared by the group and the manager. *)
Definition cancel_resting (v : Venue) (o : Order) : Order :=
  if order_status_eqb (order_status o) RESTING && cancel_order_ok v (order_id o)
  then set_order_status ORDER_CANCELED o
  else o.

(** The same cancellations seen through the manager's [_orders]. *)
Definition cancel_in_store (v : Venue) (placed : gmap string Order)
    (store : gmap string Order) : gmap string Order :=
  foldr
    (fun o st =>
       if order_status_eqb (order_status o) RESTING && cancel_order_ok v (order_id o)
       then alter (set_order_status ORDER_CANCELED) (order_id o) st
       else st)
    store (map_to_list placed).*2.

(** The manager after the stored group became [g]. *)
Definition with_group (om : t) (g : OrderGroup) : t :=
  {| _order_groups := <[group_id g := g]> (_order_groups om);
     _orders := _orders om |}.

(** [submit_order_group]: the group is mutated in place, so the manager's
    [_order_groups] sees the outcome too. *)
Definition submit_order_group (om : t) (v : Venue) (group : OrderGroup)
  : OrderGroup * t :=
  match submit_legs om v (group_id group) (group_legs group) (orders group) with
  | (None, placed, om') =>
      let filled_count :=
        Z.of_nat (length (filter (fun o => order_status_eqb (order_status o) EXECUTED = true)
                            (map_to_list placed).*2)) in
      let n := Z.of_nat (length (group_legs group)) in
      let g :=
        {| group_id := group_id group;
           group_opportunity_id := group_opportunity_id group;
           group_legs := group_legs group;
           orders := placed;
           group_status := if filled_count =? n then COMPLETE
                           else if 0 <? filled_count then PARTIAL
                           else FAILED;
           group_error := if filled_count =? n then group_error group
                          else if 0 <? filled_count then group_error group
                          else Some "No legs filled"%string |} in
      (g, with_group om' g)
  | (Some e, placed, om') =>
      let g :=
        {| group_id := group_id group;
           group_opportunity_id := group_opportunity_id group;
           group_legs := group_legs group;
           orders := cancel_resting v <$> placed;
           group_status := FAILED;
           group_error := Some (Py.str e) |} in
      (g, {| _order_groups := <[group_id g := g]> (_order_groups om');
             _orders := cancel_in_store v placed (_orders om') |})
  end.

End OrderManager.

(** ** src/execution/executor.py *)

Module Executor.
Import Models.

Inductive ExecutionError :=
| Message (msg : string)
| PartialFill (filled total : Z)
| Unexpected (e : Py.exn).

Record ExecutionResult := {
  opportunity_id : string;
  order_group_id : option string;
  success : bool;
  profit_cents : Z;
  error : option ExecutionError
}.

Record t := {
  order_manager : OrderManager.t;
  orderbook_manager : OrderbookManager.t;
  (** [self.detector.validate_opportunity] *)
  detector_validate : ArbitrageOpportunity -> gmap string Orderbook -> bool;
  _execution_history : list ExecutionResult   (* latest first *)
}.

Definition with_order_manager (ex : t) (om : OrderManager.t) : t :=
  {| order_manager := om; orderbook_manager := orderbook_manager ex;
     detector_validate := detector_validate ex;
     _execution_history := _execution_history ex |}.

Definition record (ex : t) (r : ExecutionResult) : t :=
  {| order_manager := order_manager ex;
     orderbook_manager := orderbook_manager ex;
     detector_validate := detector_validate ex;
     _execution_history := r :: _execution_history ex |}.

Definition failed (opp : ArbitrageOpportunity) (gid : option string)
    (e : ExecutionError) : ExecutionResult :=
  {| opportunity_id := id opp; order_group_id := gid; success := false;
     profit_cents := 0; error := Some e |}.

(** [quantity or opportunity.max_quantity] followed by the [min]. *)
Definition effective_quantity (opportunity : ArbitrageOpportunity)
    (quantity : option Z) : Z :=
  let qty := match quantity with
             | Some q => if q =? 0 then max_quantity opportunity else q
             | None => max_quantity opportunity
             end in
  Z.min qty (max_quantity opportunity).

(** [_execute_internal]; [fresh_id] is the identifier [uuid4] would give to
    the order group. *)
Definition _execute_internal (ex : t) (v : OrderManager.Venue)
    (fresh_id : string) (opportunity : ArbitrageOpportunity)
    (quantity : option Z) (validate : bool) : ExecutionResult * t :=
  if validate &&
     negb (detector_validate ex opportunity
             (OrderbookManager.get_all_orderbooks (orderbook_manager ex)))
  then (failed opportunity None (Message "Opportunity no longer valid"), ex)
  else
    let qty := effective_quantity opportunity quantity in
    if qty <=? 0
    then (failed opportunity None (Message "No quantity available"), ex)
    else
      let '(result, om) :=
        match OrderManager.create_order_group (order_manager ex) fresh_id
                opportunity qty with
        | (Py.Raise (Py.OrderError msg), om1) =>
            (failed opportunity None (Message msg), om1)
        | (Py.Raise e, om1) => (failed opportunity None (Unexpected e), om1)
        | (Py.Return group0, om1) =>
            let '(group, om2) := OrderManager.submit_order_group om1 v group0 in
            let gid := Some (OrderManager.group_id group) in
            match OrderManager.group_status group with
            | OrderManager.COMPLETE =>
                ({| opportunity_id := id opportunity; order_group_id := gid;
                    success := true;
                    profit_cents := net_profit_cents opportunity * qty;
                    error := None |}, om2)
            | OrderManager.PARTIAL =>
                (failed opportunity gid
                   (PartialFill (OrderManager.filled_legs group)
                      (Z.of_nat (length (OrderManager.group_legs group)))),
                 om2)
            | _ =>
                (failed opportunity gid
                   (Message (match OrderManager.group_error group with
                             | Some msg => if (msg =? "")%string
                                           then "Execution failed"%string
                                           else msg
                             | None => "Execution failed"%string
                             end)),
                 om2)
            end
        end in
      (result, record (with_order_manager ex om) result).

(** [execute] runs [_execute_internal] under the executor's semaphore. *)
Definition execute := _execute_internal.

End Executor.

(** ** urllib.parse.urlparse (CPython 3.11), path component

  Strings are byte strings; every character the parser looks at is ASCII.
  The checks Python runs on the network location (bracket balance,
  [_check_bracketed_netloc], [_checknetloc]) read nothing but the network
  location and raise [ValueError]; they are the parameter [netloc_ok]. *)

Module UrlParse.

Local Open Scope string_scope.

Definition code (c : ascii) : nat := nat_of_ascii c.

Definition in_range (lo hi : nat) (c : ascii) : bool :=
  (Nat.leb lo (code c) && Nat.leb (code c) hi)%bool.

(** [_WHATWG_C0_CONTROL_OR_SPACE]: the characters 0x00 to 0x20. *)
Definition is_c0_control_or_space (c : ascii) : bool := Nat.leb (code c) 32.

(** [_UNSAFE_URL_BYTES_TO_REMOVE]: tab, carriage return, line feed. *)
Definition is_unsafe (c : ascii) : bool :=
  (Nat.eqb (code c) 9 || Nat.eqb (code c) 13 || Nat.eqb (code c) 10)%bool.

Definition is_ascii_alpha (c : ascii) : bool :=
  (in_range 65 90 c || in_range 97 122 c)%bool.

(** [scheme_chars]: letters, digits, and "+-." *)
Definition is_scheme_char (c : ascii) : bool :=
  (is_ascii_alpha c || in_range 48 57 c
   || Ascii.eqb c "+" || Ascii.eqb c "-" || Ascii.eqb c ".")%bool.

Definition lower_char (c : ascii) : ascii :=
  if in_range 65 90 c then ascii_of_nat (code c + 32) else c.

Definition upper_char (c : ascii) : ascii :=
  if in_range 97 122 c then ascii_of_nat (code c - 32) else c.

Fixpoint map_string (f : ascii -> ascii) (s : string) : string :=
  match s with
  | EmptyString => EmptyString
  | String c r => String (f c) (map_string f r)
  end.

(** [str.lower] and [str.upper] on ASCII text (schemes and HTTP methods). *)
Definition lower : string -> string := map_string lower_char.
Definition upper : string -> string := map_string upper_char.

Fixpoint all_chars (f : ascii -> bool) (s : string) : bool :=
  match s with
  | EmptyString => true
  | String c r => (f c && all_chars f r)%bool
  end.

Fixpoint contains (c : ascii) (s : string) : bool :=
  match s with
  | EmptyString => false
  | String a r => (Ascii.eqb a c || contains c r)%bool
  end.

(** [url.lstrip(_WHATWG_C0_CONTROL_OR_SPACE)] *)
Fixpoint lstrip (s : string) : string :=
  match s with
  | EmptyString => EmptyString
  | String c r => if is_c0_control_or_space c then lstrip r else s
  end.

(** [url.replace(b, "")] for the three unsafe characters. *)
Fixpoint remove_unsafe (s : string) : string :=
  match s with
  | EmptyString => EmptyString
  | String c r => if is_unsafe c then remove_unsafe r
                  else String c (remove_unsafe r)
  end.

(** [s.split(c, 1)] when [c] occurs in [s]: the text before and after the
    first occurrence. *)
Fixpoint split_first (c : ascii) (s : string) : option (string * string) :=
  match s with
  | EmptyString => None
  | String a r =>
      if Ascii.eqb a c then Some (EmptyString, r)
      else match split_first c r with
           | Some (h, t) => Some (String a h, t)
           | None => None
           end
  end.

(** [s.split(c, 1)[0] if c in s else s] *)
Definition before (c : ascii) (s : string) : string :=
  match split_first c s with
  | Some (h, _) => h
  | None => s
  end.

(** The scheme test of [urlsplit]: returns the scheme and the rest. *)
Definition split_scheme (url : string) : string * string :=
  match split_first ":" url with
  | Some (String c0 pre as prefix, rest) =>
      if (is_ascii_alpha c0 && all_chars is_scheme_char prefix)%bool
      then (lower prefix, rest)
      else (EmptyString, url)
  | _ => (EmptyString, url)
  end.

Definition is_netloc_delim (c : ascii) : bool :=
  (Ascii.eqb c "/" || Ascii.eqb c "?" || Ascii.eqb c "#")%bool.

(** [_splitnetloc(url, 2)] applied to the text after the two slashes. *)
Fixpoint _splitnetloc (s : string) : string * string :=
  match s with
  | EmptyString => (EmptyString, EmptyString)
  | String c r =>
      if is_netloc_delim c then (EmptyString, s)
      else let '(n, rest) := _splitnetloc r in (String c n, rest)
  end.

(** [if url[:2] == '//': netloc, url = _splitnetloc(url, 2)] *)
Definition split_netloc (url : string) : string * string :=
  match url with
  | String a (String b r) =>
      if (Ascii.eqb a "/" && Ascii.eqb b "/")%bool then _splitnetloc r
      else (EmptyString, url)
  | _ => (EmptyString, url)
  end.

(** [_splitparams(url)[0]] when the path has a slash: cut at the first
    semicolon found from the last slash on. *)
Fixpoint cut_last_segment (s : string) : string :=
  match s with
  | EmptyString => EmptyString
  | String c r => if contains "/" r then String c (cut_last_segment r)
                  else before ";" s
  end.

Definition _splitparams (url : string) : string :=
  if contains "/" url then cut_last_segment url else before ";" url.

Definition uses_params : list string :=
  [""; "ftp"; "hdl"; "prospero"; "http"; "imap"; "https"; "shttp"; "rtsp";
   "rtspu"; "sip"; "sips"; "mms"; "sftp"; "tel"].

(** [urlsplit(url)]: scheme, network location and path. *)
Definition urlsplit (netloc_ok : string -> bool) (url : string)
  : Py.outcome (string * string * string) :=
  let url := remove_unsafe (lstrip url) in
  let '(scheme, url) := split_scheme url in
  let '(netloc, url) := split_netloc url in
  if negb (netloc_ok netloc) then Py.Raise (Py.ValueError "Invalid URL")
  else
    let url := before "#" url in
    let url := before "?" url in
    Py.Return (scheme, netloc, url).

(** [urlparse(url).path] *)
Definition urlparse_path (netloc_ok : string -> bool) (url : string)
  : Py.outcome string :=
  '(scheme, _, path) ← urlsplit netloc_ok url;
  if (existsb (String.eqb scheme) uses_params && contains ";" path)%bool
  then Py.Return (_splitparams path)
  else Py.Return path.

End UrlParse.

(** ** src/core/authenticator.py *)

Module KalshiAuthenticator.

(** [f"{timestamp}"] for an [int]. *)
Definition str_int (n : Z) : string := NilZero.string_of_int (Z.to_int n).

Definition _create_signature_payload (netloc_ok : string -> bool)
    (timestamp : Z) (method path : string) : Py.outcome string :=
  clean_path ← UrlParse.urlparse_path netloc_ok path;
  Py.Return (str_int timestamp ++ UrlParse.upper method ++ clean_path)%string.

End KalshiAuthenticator.

From Stdlib Require Import Sorted.
From Equations Require Import Equations.

(** ** Python's stable sorts

    [sorted(l, key=k)] and [l.sort(key=k, reverse=True)] are stable, so
    their result is determined by the input: it is the one that insertion
    from the right computes. *)

Module PySort.

Fixpoint insert_by {A} (key : A -> Z) (x : A) (l : list A) : list A :=
  match l with
  | [] => [x]
  | y :: r => if key x <=? key y then x :: l else y :: insert_by key x r
  end.

(** [sorted(l, key=key)] *)
Definition sorted_by {A} (key : A -> Z) (l : list A) : list A :=
  foldr (insert_by key) [] l.

(** [sorted(l, key=key, reverse=True)]: descending, equal keys keep their
    order. *)
Definition sorted_by_desc {A} (key : A -> Z) (l : list A) : list A :=
  sorted_by (fun x => - key x) l.

End PySort.

(** ** src/data/orderbook_manager.py: the mutations of the book store

    Every subscriber is called with the same pair [(ticker, orderbook)];
    that pair is returned beside the new store. *)

Module OrderbookUpdates.
Import Models.

(** The [OrderbookLevel] constructor with its field constraints. *)
Definition new_OrderbookLevel (p q : Z) : Py.outcome OrderbookLevel :=
  if negb ((1 <=? p) && (p <=? 99)) then Py.Raise (Py.ValidationError "price")
  else if negb (0 <=? q) then Py.Raise (Py.ValidationError "quantity")
  else Py.Return {| price := p; quantity := q |}.

(** The [for i, level in enumerate(levels)] loop of [_update_levels]:
    [None] when no level has the price, otherwise the list after the [pop]
    or the assignment (or the exception of the constructor). *)
Fixpoint update_existing (levels : list OrderbookLevel) (p q : Z)
  : option (Py.outcome (list OrderbookLevel)) :=
  match levels with
  | [] => None
  | level :: rest =>
      if price level =? p then
        Some (if q =? 0 then Py.Return rest
              else l ← new_OrderbookLevel p q; Py.Return (l :: rest))
      else
        match update_existing rest p q with
        | Some r => Some (ls ← r; Py.Return (level :: ls))
        | None => None
        end
  end.

Definition _update_levels (levels : list OrderbookLevel) (p q : Z)
  : Py.outcome (list OrderbookLevel) :=
  match update_existing levels p q with
  | Some r => r
  | None =>
      if 0 <? q then
        l ← new_OrderbookLevel p q;
        Py.Return (PySort.sorted_by_desc price (levels ++ [l]))
      else Py.Return levels
  end.

Definition update_snapshot (m : OrderbookManager.t) (tk : string)
    (orderbook : Orderbook) : OrderbookManager.t * (string * Orderbook) :=
  ({| OrderbookManager._orderbooks :=
        <[tk := orderbook]> (OrderbookManager._orderbooks m) |},
   (tk, orderbook)).

(** [apply_delta]; [now] is the clock read for the new timestamp.  The
    second component is the notification, [None] when the delta is dropped. *)
Definition apply_delta (m : OrderbookManager.t) (tk : string) (s : OrderSide)
    (p q now : Z) : Py.outcome (OrderbookManager.t * option (string * Orderbook)) :=
  match OrderbookManager._orderbooks m !! tk with
  | None => Py.Return (m, None)
  | Some orderbook =>
      orderbook' ←
        match s with
        | YES =>
            levels ← _update_levels (yes_bids orderbook) p q;
            Py.Return {| ob_ticker := ob_ticker orderbook; yes_bids := levels;
                         no_bids := no_bids orderbook; timestamp := now |}
        | NO =>
            levels ← _update_levels (no_bids orderbook) p q;
            Py.Return {| ob_ticker := ob_ticker orderbook;
                         yes_bids := yes_bids orderbook;
                         no_bids := levels; timestamp := now |}
        end;
      Py.Return ({| OrderbookManager._orderbooks :=
                      <[tk := orderbook']> (OrderbookManager._orderbooks m) |},
                 Some (tk, orderbook'))
  end.

(** [calculate_total_acquisition_cost]: the costs are summed over the
    values of the dictionary built by [get_acquisition_costs]. *)
Definition calculate_total_acquisition_cost (m : OrderbookManager.t)
    (tickers : list string) (s : OrderSide) (qty : Z) : option Z :=
  let costs := OrderbookManager.get_acquisition_costs m tickers s qty in
  let values := (map_to_list costs).*2 in
  if bool_decide (None ∈ values) then None
  else Some (sum_Z (omap (fun c => c) values)).

(** [clear]: an empty ticker is falsy and clears every book. *)
Definition clear (m : OrderbookManager.t) (tk : option string) : OrderbookManager.t :=
  match tk with
  | Some t =>
      if (t =? "")%string then {| OrderbookManager._orderbooks := ∅ |}
      else {| OrderbookManager._orderbooks := delete t (OrderbookManager._orderbooks m) |}
  | None => {| OrderbookManager._orderbooks := ∅ |}
  end.

Definition tracked_tickers (m : OrderbookManager.t) : gset string :=
  dom (OrderbookManager._orderbooks m).

End OrderbookUpdates.

(** ** src/risk/exposure_manager.py: fitting a quantity to the limits *)

Module QuantityAdjustment.
Import Models ExposureManager.

(** The [while low < high] loop of [adjust_quantity_for_limits]; [ok mid]
    is [check_trade(opportunity, mid).allowed].  The interval shrinks at
    every turn, which is why the loop ends. *)
Equations? search (ok : Z -> bool) (low high : Z) : Z
  by wf (Z.to_nat (high - low)) lt :=
search ok low high with Z_lt_dec low high := {
  | left _ =>
      let mid := (low + high + 1) / 2 in
      if ok mid then search ok mid high else search ok low (mid - 1)
  | right _ => low
}.
Proof.
  - assert (low + 1 <= (low + high + 1) / 2)
      by (apply Z.div_le_lower_bound; lia).
    lia.
  - assert ((low + high + 1) / 2 <= high) by (apply Z.div_le_upper_bound; lia).
    lia.
Qed.

Definition adjust_quantity_for_limits (m : ExposureManager.t)
    (opportunity : ArbitrageOpportunity) (desired_quantity : Z) : Z :=
  let check := check_trade m opportunity desired_quantity in
  if allowed check then desired_quantity
  else search (fun mid => allowed (check_trade m opportunity mid))
              0 desired_quantity.

(** [get_available_exposure] *)
Definition get_available_exposure (m : ExposureManager.t) : Z :=
  let current := PositionTracker.get_total_exposure (position_tracker m) in
  Z.max 0 (max_total_exposure_cents (limits m) - current).

End QuantityAdjustment.

(** ** src/arbitrage/strategies/time_based.py

    A market with the [expiration_time] field the strategy reads (in
    microseconds, [None] when the market has none). *)

Module TimeBasedStrategy.
Import Models.

Record ExpiringMarket := {
  market : Market;
  expiration_time : option Z
}.

Record t := {
  min_profit_cents : Z;
  min_price_diff : Z;
  calculator : Calculator.ProfitCalculator
}.

Definition init (min_profit diff : Z) : t :=
  {| min_profit_cents := min_profit; min_price_diff := diff;
     calculator := Calculator.init None |}.

Definition _validate_expiration_order (earlier later : ExpiringMarket) : bool :=
  match expiration_time earlier, expiration_time later with
  | Some e, Some l => e <? l
  | _, _ => false
  end.

(** Quantity resting at the best YES bid. *)
Definition _get_bid_quantity (orderbook : Orderbook) : Z :=
  match yes_bids orderbook with
  | [] => 0
  | _ =>
      let best_price := best_yes_bid orderbook in
      sum_Z (map quantity
               (filter (fun l => Some (price l) = best_price) (yes_bids orderbook)))
  end.

(** [detect]; [fresh_id] stands for [uuid.uuid4()] and [now] for
    [datetime.utcnow()]. *)
Definition detect (s : t) (fresh_id : string) (now : Z)
    (earlier_market later_market : ExpiringMarket)
    (earlier_orderbook later_orderbook : Orderbook)
  : Py.outcome (option ArbitrageOpportunity) :=
  if negb (_validate_expiration_order earlier_market later_market)
  then Py.Return None
  else
    match best_yes_bid earlier_orderbook, best_yes_ask later_orderbook with
    | Some earlier_yes_bid, Some later_yes_ask =>
        let price_diff := earlier_yes_bid - later_yes_ask in
        if price_diff <? min_price_diff s then Py.Return None
        else
          sell ← new_ArbitrageLeg (ticker (market earlier_market)) YES SELL
                   earlier_yes_bid 1;
          buy ← new_ArbitrageLeg (ticker (market later_market)) YES BUY
                  later_yes_ask 1;
          let legs := [sell; buy] in
          let total_cost := later_yes_ask - earlier_yes_bid in
          let gross_profit := price_diff in
          let fees := Calculator.calculate_total_fees (calculator s) legs in
          let net_profit := gross_profit - fees in
          if net_profit <? min_profit_cents s then Py.Return None
          else
            let max_qty := Z.min (_get_bid_quantity earlier_orderbook)
                                 (yes_ask_quantity later_orderbook) in
            if max_qty <=? 0 then Py.Return None
            else
              opportunity ← new_ArbitrageOpportunity fresh_id TIME_BASED
                              (event_ticker (market earlier_market)) legs
                              (Z.max total_cost 0) price_diff gross_profit fees
                              net_profit max_qty now (9 # 10);
              Py.Return (Some opportunity)
    | _, _ => Py.Return None
    end.

(** [next((l for l in legs if l.action == a), None)] *)
Definition first_with_action (a : OrderAction) (legs : list ArbitrageLeg)
  : option ArbitrageLeg :=
  List.find (fun l => action_eqb (action l) a) legs.

Definition validate_opportunity (opportunity : ArbitrageOpportunity)
    (orderbooks : gmap string Orderbook) : bool :=
  if negb (length (legs opportunity) =? 2)%nat then false
  else
    match first_with_action SELL (legs opportunity),
          first_with_action BUY (legs opportunity) with
    | Some sell_leg, Some buy_leg =>
        match orderbooks !! leg_ticker sell_leg, orderbooks !! leg_ticker buy_leg with
        | Some sell_ob, Some buy_ob =>
            match best_yes_bid sell_ob, best_yes_ask buy_ob with
            | Some current_bid, Some current_ask =>
                if (current_bid <? leg_price sell_leg)
                   || (leg_price buy_leg <? current_ask) then false
                else if _get_bid_quantity sell_ob <? leg_quantity sell_leg then false
                else if yes_ask_quantity buy_ob <? leg_quantity buy_leg then false
                else true
            | _, _ => false
            end
        | _, _ => false
        end
    | _, _ => false
    end.

End TimeBasedStrategy.

(** ** src/bot/engine.py: handling one opportunity

    The engine's position tracker is the one its exposure manager reads;
    placing orders does not change it (positions change on a sync). *)

Module Engine.
Import Models.

Record t := {
  circuit_breaker : CircuitBreaker.t;
  exposure_manager : ExposureManager.t;
  executor : Executor.t
}.

Definition position_tracker (e : t) : PositionTracker.t :=
  ExposureManager.position_tracker (exposure_manager e).

Definition with_breaker (e : t) (b : CircuitBreaker.t) : t :=
  {| circuit_breaker := b; exposure_manager := exposure_manager e;
     executor := executor e |}.

(** [_handle_opportunity]; [now_check] and [now_record] are the clock at
    the breaker's check and at the recording of the result. *)
Definition _handle_opportunity (e : t) (v : OrderManager.Venue)
    (fresh_id : string) (opportunity : ArbitrageOpportunity)
    (now_check now_record : Z) : t :=
  match CircuitBreaker.check_and_allow (circuit_breaker e) now_check with
  | (inr _, b1) => with_breaker e b1
  | (inl _, b1) =>
      let check := ExposureManager.check_trade (exposure_manager e) opportunity 1 in
      if negb (ExposureManager.allowed check) then with_breaker e b1
      else
        let quantity := Z.min (max_quantity opportunity)
                              (ExposureManager.max_allowed_quantity check) in
        let '(result, ex) :=
          Executor.execute (executor e) v fresh_id opportunity (Some quantity) true in
        let exposure := PositionTracker.get_total_exposure (position_tracker e) in
        let b2 :=
          if Executor.success result
          then CircuitBreaker.record_trade_result b1
                 (Executor.profit_cents result) exposure now_record
          else CircuitBreaker.record_trade_result b1
                 (- total_cost_cents opportunity) exposure now_record in
        {| circuit_breaker := b2; exposure_manager := exposure_manager e;
           executor := ex |}
  end.

End Engine.

(** ** src/execution/position_tracker.py: realized P&L of one ticker

    The "fees" entry of the result is computed in binary floating point and
    is left out; the "realized" and "trades" entries do not depend on it. *)

Module TickerPnL.
Import Models.

Record Fill := {
  fill_ticker : string;
  fill_action : OrderAction;
  fill_price : Z;
  fill_count : Z;
  created_time : Z
}.

(** The [while buys and sells] loop: the heads of the two queues are matched
    and at least one of them leaves its queue. *)
Equations? match_fifo (buys sells : list (Z * Z)) (realized : Z) : Z
  by wf (length buys + length sells)%nat lt :=
match_fifo [] _ realized := realized;
match_fifo (_ :: _) [] realized := realized;
match_fifo ((buy_price, buy_count) :: buys) ((sell_price, sell_count) :: sells)
    realized :=
  let matched := Z.min buy_count sell_count in
  let pnl := (sell_price - buy_price) * matched in
  match_fifo
    (if matched <? buy_count then (buy_price, buy_count - matched) :: buys
     else buys)
    (if matched <? sell_count then (sell_price, sell_count - matched) :: sells
     else sells)
    (realized + pnl).
Proof.
  subst matched pnl.
  destruct (Z.ltb_spec (Z.min buy_count sell_count) buy_count);
    destruct (Z.ltb_spec (Z.min buy_count sell_count) sell_count);
    simpl; lia.
Qed.

(** The queue of [(price, count)] of the fills with action [a], in the
    order of the sorted fills. *)
Definition queue (a : OrderAction) (fills : list Fill) : list (Z * Z) :=
  (fun f => (fill_price f, fill_count f))
    <$> List.filter (fun f => action_eqb (fill_action f) a) fills.

(** The "realized" entry of [_calculate_ticker_pnl]. *)
Definition realized (fills : list Fill) : Z :=
  let sorted := PySort.sorted_by created_time fills in
  match_fifo (queue BUY sorted) (queue SELL sorted) 0.

(** The "trades" entry. *)
Definition trades (fills : list Fill) : Z := Z.of_nat (length fills).

End TickerPnL.

(** ** src/core/client.py: the retry loop of a request

    The network is an oracle: what the n-th attempt meets.  A response is
    its status, whether the error message mentions insufficient funds, and
    the Retry-After header as the number it parses to.  Waits are seconds,
    in the order in which [asyncio.sleep] is called. *)

Module KalshiClient.

Inductive Error :=
| AuthenticationError
| RateLimitError (retry_after : option Q)
| InsufficientFundsError
| OrderError
| KalshiError                      (* an API error that is none of the above *)
| RequestFailed (retries : nat)    (* "Request failed after n attempts" *)
| Other.                           (* an exception that is not caught *)

Inductive Attempt :=
| Responded (status : Z) (insufficient : bool) (retry_after : option Q)
| NetworkFailure                   (* aiohttp.ClientError, asyncio.TimeoutError *)
| Crashed.                         (* anything else raised during the attempt *)

Definition MAX_RETRIES : nat := 3.
Definition BACKOFF_BASE : Q := 2.
Definition BACKOFF_MAX : Q := 60.

(** [_handle_response]: [None] is the parsed body of a 200. *)
Definition _handle_response (status : Z) (insufficient : bool)
    (retry_after : option Q) : option Error :=
  if status =? 200 then None
  else if status =? 401 then Some AuthenticationError
  else if status =? 429 then Some (RateLimitError retry_after)
  else if status =? 400 then
    Some (if insufficient then InsufficientFundsError else OrderError)
  else if status =? 403 then Some AuthenticationError
  else if status =? 404 then Some KalshiError
  else Some KalshiError.

(** [min(BACKOFF_BASE ** attempt, BACKOFF_MAX)] *)
Definition backoff (attempt : nat) : Q :=
  let w := (BACKOFF_BASE ^ Z.of_nat attempt)%Q in
  if Qle_bool w BACKOFF_MAX then w else BACKOFF_MAX.

(** [for attempt in range(retries)], from [attempt] on with [remaining]
    turns left: the outcome ([None] for the returned body) and the waits. *)
Fixpoint attempts_from (oracle : nat -> Attempt) (retries remaining attempt : nat)
  : option Error * list Q :=
  match remaining with
  | O => (Some (RequestFailed retries), [])
  | S remaining' =>
      match oracle attempt with
      | Responded status insufficient retry_after =>
          match _handle_response status insufficient retry_after with
          | None => (None, [])
          | Some (RateLimitError ra) =>
              let wait_time :=
                match ra with
                | Some r => if Qeq_bool r 0 then backoff attempt else r
                | None => backoff attempt
                end in
              let rest := attempts_from oracle retries remaining' (S attempt) in
              (rest.1, wait_time :: rest.2)
          | Some e => (Some e, [])
          end
      | NetworkFailure =>
          let rest := attempts_from oracle retries remaining' (S attempt) in
          (rest.1, backoff attempt :: rest.2)
      | Crashed => (Some Other, [])
      end
  end.

Definition _request (oracle : nat -> Attempt) (retry : bool)
  : option Error * list Q :=
  let retries := if retry then MAX_RETRIES else 1%nat in
  attempts_from oracle retries retries 0.

End KalshiClient.

(** ** src/arbitrage/strategies/correlated.py: mutually exclusive markets *)

Module CorrelatedStrategy.
Import Models.

Record t := {
  min_profit_cents : Z;
  calculator : Calculator.ProfitCalculator
}.

Definition init (min_profit : Z) : t :=
  {| min_profit_cents := min_profit; calculator := Calculator.init None |}.

(** [detect_excludes]; [fresh_id] stands for [uuid.uuid4()] and [now] for
    [datetime.utcnow()]. *)
Definition detect_excludes (s : t) (fresh_id : string) (now : Z)
    (market_a market_b : Market) (orderbook_a orderbook_b : Orderbook)
  : Py.outcome (option ArbitrageOpportunity) :=
  match best_yes_ask orderbook_a, best_yes_ask orderbook_b with
  | Some a_ask, Some b_ask =>
      let total_cost := a_ask + b_ask in
      if 100 <=? total_cost then Py.Return None
      else
        leg_a ← new_ArbitrageLeg (ticker market_a) YES BUY a_ask 1;
        leg_b ← new_ArbitrageLeg (ticker market_b) YES BUY b_ask 1;
        let legs := [leg_a; leg_b] in
        let gross_profit := 100 - total_cost in
        let fees := Calculator.calculate_total_fees (calculator s) legs in
        let net_profit := gross_profit - fees in
        if net_profit <? min_profit_cents s then Py.Return None
        else
          let max_qty := Z.min (yes_ask_quantity orderbook_a)
                               (yes_ask_quantity orderbook_b) in
          if max_qty <=? 0 then Py.Return None
          else
            opportunity ← new_ArbitrageOpportunity fresh_id CORRELATED
                            (event_ticker market_a ++ "+" ++ event_ticker market_b)
                            legs total_cost 100 gross_profit fees net_profit
                            max_qty now (85 # 100);
            Py.Return (Some opportunity)
  | _, _ => Py.Return None
  end.

End CorrelatedStrategy.
(** * Vocabulary of the statements

    Predicates, reference functions written after the specification, and
    the concrete inputs used by the examples. *)

Section CircuitBreakerInputs.
Import CircuitBreaker.

(** The configuration used by the unit tests of the breaker. *)
Definition test_config : CircuitBreakerConfig :=
  {| max_daily_loss_cents := 1000; max_consecutive_losses := 3;
     max_exposure_cents := 5000; cooldown_seconds := 5;
     half_open_test_limit := 1 |}.

(** A breaker tripped by one loss of 1000 cents at time 0 and probed ten
    seconds later, after the cool-down of five. *)
Definition half_open_after_loss : t :=
  snd (check_and_allow
         (record_trade_result (init (Some test_config) true true) (-1000) 0 0)
         10000000).

(** A breaker with the default limits, tripped by an exposure report of
    60000 cents at time 0 and probed after the cool-down of 300 seconds. *)
Definition half_open_after_exposure : t :=
  snd (check_and_allow
         (record_exposure (init None true true) 60000 0)
         300000000).

End CircuitBreakerInputs.

Section ExposureVocabulary.
Import Models ExposureManager.

Variable m : ExposureManager.t.

(** The total exposure the gate reads from the ledger. *)
Definition current_total : Z :=
  PositionTracker.get_total_exposure (position_tracker m).

(** [position(tk).contracts], 0 when the ledger has no position for [tk]. *)
Definition contracts_at (tk : string) : Z :=
  match PositionTracker.positions (position_tracker m) !! tk with
  | Some p => contracts p
  | None => 0
  end.

(** [market_exposure(tk)], 0 when the ledger has no position for [tk]. *)
Definition exposure_at (tk : string) : Z :=
  match PositionTracker.positions (position_tracker m) !! tk with
  | Some p => market_exposure p
  | None => 0
  end.

(** The constraints of the gate, one for the total and two per leg. *)
Inductive Constraint :=
| CTotal
| CPosition (leg : ArbitrageLeg)
| CExposure (leg : ArbitrageLeg).

(** Constraint [c] is met when [q] contracts per leg are added. *)
Definition holds (opp : ArbitrageOpportunity) (c : Constraint) (q : Z) : Prop :=
  match c with
  | CTotal =>
      current_total + total_cost_cents opp * q
        <= max_total_exposure_cents (limits m)
  | CPosition leg =>
      contracts_at (leg_ticker leg) + q <= max_position_per_market (limits m)
  | CExposure leg =>
      exposure_at (leg_ticker leg) + leg_price leg * q
        <= max_exposure_per_market_cents (limits m)
  end.

(** Per-unit cost of a constraint (a contract counts 1 towards a position). *)
Definition unit_cost (opp : ArbitrageOpportunity) (c : Constraint) : Z :=
  match c with
  | CTotal => total_cost_cents opp
  | CPosition _ => 1
  | CExposure leg => leg_price leg
  end.

(** [c] is the total constraint or a constraint of a leg of [opp]. *)
Definition of_opportunity (opp : ArbitrageOpportunity) (c : Constraint) : Prop :=
  match c with
  | CTotal => True
  | CPosition leg | CExposure leg => In leg (legs opp)
  end.

(** All three inequalities of the gate, for every leg. *)
Definition feasible (opp : ArbitrageOpportunity) (q : Z) : Prop :=
  holds opp CTotal q /\
  forall leg, In leg (legs opp) ->
              holds opp (CPosition leg) q /\ holds opp (CExposure leg) q.

End ExposureVocabulary.

Section ExposureInputs.
Import Models ExposureManager.

(** A ledger holding 90 contracts of market A and 9990 cents of exposure on
    market B, under the default limits (100 contracts and 10000 cents per
    market, 50000 cents in total). *)
Definition ledger_example : PositionTracker.t :=
  {| PositionTracker._positions :=
       <["A"%string := {| pos_ticker := "A"; market_exposure := 100;
                          position := 90; resting_orders_count := 0;
                          total_traded := 90 |}]>
       (<["B"%string := {| pos_ticker := "B"; market_exposure := 9990;
                           position := -3; resting_orders_count := 0;
                           total_traded := 3 |}]> ∅);
     PositionTracker._balance_cents := 100000 |}.

Definition gate_example : ExposureManager.t := init ledger_example None.

Definition two_leg_opportunity : ArbitrageOpportunity :=
  {| id := "opp-1"; type := MULTI_OUTCOME; opp_event_ticker := "EVENT";
     legs := [ {| leg_ticker := "A"; side := YES; action := BUY;
                  leg_price := 40; leg_quantity := 1 |};
               {| leg_ticker := "B"; side := YES; action := BUY;
                  leg_price := 50; leg_quantity := 1 |} ];
     total_cost_cents := 90; guaranteed_return_cents := 100;
     gross_profit_cents := 10; estimated_fees_cents := 1;
     net_profit_cents := 9; max_quantity := 50; detected_at := 0;
     confidence := 1 |}.

(** A gate with an empty ledger whose three limits the two-leg opportunity
    reaches exactly at 100 contracts. *)
Definition gate_on_limits : ExposureManager.t :=
  {| position_tracker :=
       {| PositionTracker._positions := ∅;
          PositionTracker._balance_cents := 100000 |};
     limits := {| max_total_exposure_cents := 9000;
                  max_position_per_market := 100;
                  max_exposure_per_market_cents := 5000;
                  max_concurrent_trades := 5 |} |}.

End ExposureInputs.

Section FeeVocabulary.
Import Models Calculator.

(** A leg the [ArbitrageLeg] constructor accepts. *)
Definition leg_ok (l : ArbitrageLeg) : Prop :=
  1 <= leg_price l <= 99 /\ 1 <= leg_quantity l.




End FeeVocabulary.

Section FeeInputs.
Import Models Calculator.


End FeeInputs.

Section AcquisitionInputs.
Import Models.

(** A book whose best NO bid, 60 cents, rests for 5 contracts only. *)
Definition thin_book : Orderbook :=
  {| ob_ticker := "EVENT-A"; yes_bids := [];
     no_bids := [ {| price := 60; quantity := 5 |} ]; timestamp := 0 |}.

End AcquisitionInputs.

Section RankingInputs.
Import Models ArbitrageDetector.

(** Two profitable candidates: 2 cents of net profit on 150 contracts, and
    3 cents on one contract. *)
Definition wide_candidate : ArbitrageOpportunity :=
  {| id := "wide"; type := MULTI_OUTCOME; opp_event_ticker := "EVENT-1";
     legs := []; total_cost_cents := 97; guaranteed_return_cents := 100;
     gross_profit_cents := 3; estimated_fees_cents := 1;
     net_profit_cents := 2; max_quantity := 150; detected_at := 0;
     confidence := 1 |}.

Definition rich_candidate : ArbitrageOpportunity :=
  {| id := "rich"; type := MULTI_OUTCOME; opp_event_ticker := "EVENT-2";
     legs := []; total_cost_cents := 96; guaranteed_return_cents := 100;
     gross_profit_cents := 4; estimated_fees_cents := 1;
     net_profit_cents := 3; max_quantity := 1; detected_at := 0;
     confidence := 1 |}.

End RankingInputs.

Section PayloadVocabulary.
Import UrlParse.
Local Open Scope string_scope.

(** A character the parser takes literally: no control character or
    space, and none of the delimiters [:], [?], [#], [;]. *)
Definition plain_char (c : ascii) : bool :=
  (negb (is_c0_control_or_space c) && negb (Ascii.eqb c ":")
   && negb (Ascii.eqb c "?") && negb (Ascii.eqb c "#")
   && negb (Ascii.eqb c ";"))%bool.

(** A path of plain characters that does not start with two slashes. *)
Definition plain_path (p : string) : bool :=
  (all_chars plain_char p
   && negb (match p with
            | String a (String b _) => Ascii.eqb a "/" && Ascii.eqb b "/"
            | _ => false
            end))%bool.

End PayloadVocabulary.

Section MultiOutcomeVocabulary.
Import Models MultiOutcomeStrategy.

(** The least element of a list, 0 for the empty list. *)
Definition minimum (l : list Z) : Z :=
  match l with
  | [] => 0
  | x :: xs => fold_right Z.min x xs
  end.

(** The implied YES ask of a book (0 when it has none). *)
Definition yes_ask (ob : Orderbook) : Z := default 0 (best_yes_ask ob).

(** BUY YES at [a], quantity 1. *)
Definition yes_leg (m : Market) (a : Z) : ArbitrageLeg :=
  {| leg_ticker := ticker m; side := YES; action := BUY;
     leg_price := a; leg_quantity := 1 |}.

(** A market whose book is well formed, has an implied YES ask and a
    positive quantity at that ask. *)
Definition quoted (mb : Market * Orderbook) : Prop :=
  orderbook_ok mb.2 = true /\
  is_Some (best_yes_ask mb.2) /\
  0 < yes_ask_quantity mb.2.

(** The book dictionary of an event: ticker -> book, for these markets. *)
Definition books_of (mbs : list (Market * Orderbook)) : gmap string Orderbook :=
  list_to_map ((fun mb => (ticker mb.1, mb.2)) <$> mbs).

Definition expected_legs (mbs : list (Market * Orderbook)) : list ArbitrageLeg :=
  (fun mb => yes_leg mb.1 (yes_ask mb.2)) <$> mbs.

Definition asks (mbs : list (Market * Orderbook)) : list Z :=
  (fun mb => yes_ask mb.2) <$> mbs.

Definition quantities (mbs : list (Market * Orderbook)) : list Z :=
  (fun mb => yes_ask_quantity mb.2) <$> mbs.

Definition insert_quantity (acc : gmap string Z) (mb : Market * Orderbook)
  : gmap string Z :=
  <[ticker mb.1 := yes_ask_quantity mb.2]> acc.

(** The three markets of the first end-to-end scenario: best NO bids of
    60, 70 and 75 cents resting for 100, 50 and 200 contracts. *)
Definition scenario_market (tk : string) : Market :=
  {| ticker := tk; event_ticker := "EVENT"; title := ""; status := "open" |}.

Definition scenario_book (tk : string) (no_bid qty : Z) : Orderbook :=
  {| ob_ticker := tk; yes_bids := [];
     no_bids := [ {| price := no_bid; quantity := qty |} ]; timestamp := 0 |}.

Definition scenario : list (Market * Orderbook) :=
  [ (scenario_market "EVENT-A", scenario_book "EVENT-A" 60 100);
    (scenario_market "EVENT-B", scenario_book "EVENT-B" 70 50);
    (scenario_market "EVENT-C", scenario_book "EVENT-C" 75 200) ].

End MultiOutcomeVocabulary.

Section ExecutorInputs.
Import Models Executor.

(** A stale opportunity: found on the scenario books with asks 40/30/25,
    after which the best NO bid of market A fell to 50 (ask 50). *)
Definition scenario_opportunity : ArbitrageOpportunity :=
  {| id := "opp-id"; type := MULTI_OUTCOME; opp_event_ticker := "EVENT";
     legs := expected_legs scenario;
     total_cost_cents := 95; guaranteed_return_cents := 100;
     gross_profit_cents := 5; estimated_fees_cents := 1;
     net_profit_cents := 4; max_quantity := 50; detected_at := 0;
     confidence := 1 |}.

Definition moved_books : gmap string Orderbook :=
  <["EVENT-A"%string := scenario_book "EVENT-A" 50 100]> (books_of scenario).

Definition executor_example (books : gmap string Orderbook) : Executor.t :=
  {| order_manager := {| OrderManager._order_groups := ∅;
                         OrderManager._orders := ∅ |};
     orderbook_manager := {| OrderbookManager._orderbooks := books |};
     detector_validate :=
       ArbitrageDetector.validate_opportunity (MultiOutcomeStrategy.init 2 2 10);
     _execution_history := [] |}.

(** A venue that fills every order at once. *)
Definition filling_venue : OrderManager.Venue :=
  {| OrderManager.create_order := fun leg client_id =>
       Py.Return {| order_id := client_id; order_ticker := leg_ticker leg;
                    client_order_id := Some client_id; order_side := side leg;
                    order_action := action leg; order_status := EXECUTED;
                    order_price := leg_price leg; count := leg_quantity leg;
                    remaining_count := 0 |};
     OrderManager.cancel_order_ok := fun _ => true |}.

End ExecutorInputs.

Section LadderVocabulary.
Import Models.

(** A book side as the exchange sends it and as [_update_levels] sorts it:
    best bid first, one level per price. *)
Definition descending (levels : list OrderbookLevel) : Prop :=
  StronglySorted (fun a b => price b < price a) levels.

Definition side_ok (levels : list OrderbookLevel) : Prop :=
  descending levels /\ Forall (fun l => level_ok l = true) levels.

(** The quantity resting at a price: that of the first level with it. *)
Fixpoint quantity_at (levels : list OrderbookLevel) (p : Z) : option Z :=
  match levels with
  | [] => None
  | l :: rest => if price l =? p then Some (quantity l) else quantity_at rest p
  end.

Definition prices (levels : list OrderbookLevel) : list Z := price <$> levels.

End LadderVocabulary.

Section LadderInputs.
Import Models.

Definition three_levels : list OrderbookLevel :=
  [ {| price := 60; quantity := 10 |};
    {| price := 55; quantity := 4 |};
    {| price := 40; quantity := 25 |} ].

Definition two_sided_book : Orderbook :=
  {| ob_ticker := "KXA"; yes_bids := three_levels;
     no_bids := [ {| price := 38; quantity := 7 |};
                  {| price := 30; quantity := 2 |} ];
     timestamp := 0 |}.

Definition one_book_manager : OrderbookManager.t :=
  {| OrderbookManager._orderbooks := {[ "KXA"%string := two_sided_book ]} |}.

End LadderInputs.

Section AcquisitionVocabulary.
Import Models.

(** What [get_acquisition_costs] stores for one ticker. *)
Definition cost_of (m : OrderbookManager.t) (s : OrderSide) (qty : Z)
    (tk : string) : option Z :=
  match OrderbookManager._orderbooks m !! tk with
  | Some orderbook => get_acquisition_cost orderbook s qty
  | None => None
  end.

End AcquisitionVocabulary.

Section BreakerVocabulary.
Import CircuitBreaker.

(** The public operations of the breaker, each with the clock it reads. *)
Inductive Call :=
| CheckAndAllow (now : Z)
| RecordTradeResult (profit_cents exposure_cents now : Z)
| RecordExposure (exposure_cents now : Z)
| ResetDailyMetrics
| ForceClose
| ForceOpen (reason : string) (now : Z).

Definition call (b : t) (c : Call) : t :=
  match c with
  | CheckAndAllow now => snd (check_and_allow b now)
  | RecordTradeResult p e now => record_trade_result b p e now
  | RecordExposure e now => record_exposure b e now
  | ResetDailyMetrics => reset_daily_metrics b
  | ForceClose => force_close b
  | ForceOpen r now => force_open b r now
  end.

(** The breaker after a sequence of calls. *)
Definition run (b : t) (cs : list Call) : t := fold_left call cs b.

Definition is_trip (c : Callback) : bool :=
  match c with
  | OnTrip _ => true
  | OnReset => false
  end.

(** How many times the trip callback has been called. *)
Definition trips_notified (b : t) : Z :=
  Z.of_nat (length (List.filter is_trip (calls b))).

(** Requests made one after the other, nothing recorded in between: how
    many were granted, and the breaker after the last. *)
Fixpoint grants (b : t) (nows : list Z) : Z * t :=
  match nows with
  | [] => (0, b)
  | now :: rest =>
      let r := check_and_allow b now in
      let g := grants (snd r) rest in
      ((match fst r with inl _ => 1 | inr _ => 0 end) + fst g, snd g)
  end.

(** Losses of [loss] cents recorded one after the other. *)
Definition lose (b : t) (loss exposure : Z) (nows : list Z) : t :=
  fold_left (fun b now => record_trade_result b (- loss) exposure now) nows b.

(** What holds of every breaker the operations can produce. *)
Definition breaker_inv (b : t) : Prop :=
  (_state b = CLOSED <-> _trip_time b = None) /\
  (_state b = CLOSED <-> _trip_reason b = None) /\
  trips_notified b = (if _on_trip b then trip_count (_metrics b) else 0).

End BreakerVocabulary.

Section TimeBasedInputs.
Import Models TimeBasedStrategy.

(** The pair of the time-based scenario: the earlier market bid at 60 for 20
    contracts, the later one offered at 55 (a NO bid at 45) for 30. *)
Definition earlier_example : ExpiringMarket :=
  {| market := {| ticker := "BTC-Q1"; event_ticker := "BTC"; title := "";
                  status := "open" |};
     expiration_time := Some 1000 |}.

Definition later_example : ExpiringMarket :=
  {| market := {| ticker := "BTC-Q2"; event_ticker := "BTC"; title := "";
                  status := "open" |};
     expiration_time := Some 2000 |}.

Definition earlier_book : Orderbook :=
  {| ob_ticker := "BTC-Q1"; yes_bids := [ {| price := 60; quantity := 20 |} ];
     no_bids := []; timestamp := 0 |}.

Definition later_book : Orderbook :=
  {| ob_ticker := "BTC-Q2"; yes_bids := [];
     no_bids := [ {| price := 45; quantity := 30 |} ]; timestamp := 0 |}.

End TimeBasedInputs.

Section OrderGroupVocabulary.
Import Models OrderManager.

(** What the venue answers for a leg of the group [gid]. *)
Definition answer (v : Venue) (gid : string) (leg : ArbitrageLeg)
  : Py.outcome Order :=
  create_order v leg (gid ++ "-" ++ leg_ticker leg)%string.

(** The venue fills the leg at once. *)
Definition fills_leg (v : Venue) (gid : string) (leg : ArbitrageLeg) : Prop :=
  exists o, answer v gid leg = Py.Return o /\ order_status o = EXECUTED.

(** A group as [create_order_group] makes it, with these legs. *)
Definition new_group (gid opp_id : string) (legs : list ArbitrageLeg) : OrderGroup :=
  {| group_id := gid; group_opportunity_id := opp_id; group_legs := legs;
     orders := ∅; group_status := PENDING; group_error := None |}.

Definition empty_manager : OrderManager.t :=
  {| _order_groups := ∅; _orders := ∅ |}.

End OrderGroupVocabulary.

Section EngineInputs.
Import Models.

(** A venue that rejects every order. *)
Definition rejecting_venue : OrderManager.Venue :=
  {| OrderManager.create_order := fun _ _ => Py.Raise (Py.VenueError "rejected");
     OrderManager.cancel_order_ok := fun _ => true |}.

(** An engine with a new breaker, the gate of the exposure examples and an
    executor that validates nothing away. *)
Definition engine_example : Engine.t :=
  {| Engine.circuit_breaker := CircuitBreaker.init None true true;
     Engine.exposure_manager := gate_on_limits;
     Engine.executor :=
       {| Executor.order_manager := empty_manager;
          Executor.orderbook_manager := {| OrderbookManager._orderbooks := ∅ |};
          Executor.detector_validate := fun _ _ => true;
          Executor._execution_history := [] |} |}.

(** The opportunity of the time-based scenario, as the detector reports it:
    its recorded total cost is 0. *)
Definition zero_cost_opportunity : ArbitrageOpportunity :=
  {| id := "opp-t"; type := TIME_BASED; opp_event_ticker := "BTC";
     legs := [ {| leg_ticker := "BTC-Q1"; side := YES; action := SELL;
                  leg_price := 60; leg_quantity := 1 |};
               {| leg_ticker := "BTC-Q2"; side := YES; action := BUY;
                  leg_price := 55; leg_quantity := 1 |} ];
     total_cost_cents := 0; guaranteed_return_cents := 5;
     gross_profit_cents := 5; estimated_fees_cents := 1;
     net_profit_cents := 4; max_quantity := 20; detected_at := 0;
     confidence := 9 # 10 |}.

End EngineInputs.

Section PnLVocabulary.
Import Models TickerPnL.

(** A queue of [(price, count)] as single contracts, in order. *)
Definition units (q : list (Z * Z)) : list Z :=
  q ≫= (fun pc => replicate (Z.to_nat pc.2) pc.1).

(** Contracts and cents of the fills with action [a]. *)
Definition contracts_of (a : OrderAction) (fills : list Fill) : Z :=
  sum_Z (snd <$> queue a fills).

Definition cents_of (a : OrderAction) (fills : list Fill) : Z :=
  sum_Z ((fun pc => pc.1 * pc.2) <$> queue a fills).

Definition fill_example (a : OrderAction) (p c t : Z) : Fill :=
  {| fill_ticker := "KXA"; fill_action := a; fill_price := p; fill_count := c;
     created_time := t |}.

(** Ten bought at 40, five sold at 55, five more bought at 42 and ten sold
    at 50, reported out of order. *)
Definition round_trip_fills : list Fill :=
  [ fill_example SELL 50 10 4; fill_example BUY 40 10 1;
    fill_example BUY 42 5 3; fill_example SELL 55 5 2 ].

End PnLVocabulary.

Section RetryVocabulary.
Import KalshiClient.

(** The attempt is answered with a 429 or fails on the network: the
    outcomes after which the loop goes on. *)
Definition retried (a : Attempt) : bool :=
  match a with
  | Responded status _ _ => status =? 429
  | NetworkFailure => true
  | Crashed => false
  end.

(** The attempt is answered with a 200. *)
Definition succeeded (a : Attempt) : bool :=
  match a with
  | Responded status _ _ => status =? 200
  | _ => false
  end.

(** No response tells how long to wait. *)
Definition no_retry_after (oracle : nat -> Attempt) : Prop :=
  forall j status insufficient r,
    oracle j = Responded status insufficient (Some r) -> Qeq_bool r 0 = true.

(** A network that is down for two attempts and then answers. *)
Definition flaky_network (n : nat) : Attempt :=
  match n with
  | 0%nat | 1%nat => NetworkFailure
  | _ => Responded 200 false None
  end.

End RetryVocabulary.

Section PipelineVocabulary.
Import Models.

(** The leg as [create_order_group] rebuilds it for one contract. *)
Definition one_contract (leg : ArbitrageLeg) : ArbitrageLeg :=
  {| leg_ticker := leg_ticker leg; side := side leg; action := action leg;
     leg_price := leg_price leg; leg_quantity := 1 |}.

End PipelineVocabulary.

(** * Verification *)

(** ** Circuit breaker *)

Section CircuitBreakerProps.
Import CircuitBreaker.

Lemma state_eqb_eq a b : state_eqb a b = true <-> a = b.
Proof. destruct a, b; simpl; split; congruence. Qed.

Lemma check_trip_state b now :
  _state (_check_trip_conditions b now) = _state b \/
  _state (_check_trip_conditions b now) = OPEN.
Proof.
  unfold _check_trip_conditions.
  destruct (state_eqb (_state b) OPEN); [now left|].
  repeat match goal with
         | |- context [if ?c then _ else _] => destruct c
         end; simpl; auto.
Qed.

(** What [_check_trip_conditions] does to the state outside [OPEN]. *)
Lemma check_trip_conditions_spec b now :
  _state b <> OPEN ->
  let m := _metrics b in
  let c := config b in
  (max_daily_loss_cents c <= daily_loss_cents m \/
   max_consecutive_losses c <= consecutive_losses m \/
   max_exposure_cents c <= total_exposure_cents m ->
   _state (_check_trip_conditions b now) = OPEN) /\
  (~ (max_daily_loss_cents c <= daily_loss_cents m \/
      max_consecutive_losses c <= consecutive_losses m \/
      max_exposure_cents c <= total_exposure_cents m) ->
   _check_trip_conditions b now = b).
Proof.
  intros Hst m c. unfold _check_trip_conditions. fold m c.
  destruct (state_eqb (_state b) OPEN) eqn:E.
  { apply state_eqb_eq in E. contradiction. }
  destruct (Z.leb_spec (max_daily_loss_cents c) (daily_loss_cents m));
    [split; [reflexivity | intros H'; exfalso; apply H'; auto] |].
  destruct (Z.leb_spec (max_consecutive_losses c) (consecutive_losses m));
    [split; [reflexivity | intros H'; exfalso; apply H'; auto] |].
  destruct (Z.leb_spec (max_exposure_cents c) (total_exposure_cents m));
    [split; [reflexivity | intros H'; exfalso; apply H'; auto] |].
  split; [intros [?|[?|?]]; lia | reflexivity].
Qed.

(** C2, as the spec states it, fails: a break-even result recorded in
    HALF_OPEN closes the breaker. *)
Lemma half_open_zero_profit_closes :
  _state half_open_after_loss = HALF_OPEN /\
  _state (record_trade_result half_open_after_loss 0 0 10000001) = CLOSED.
Proof. split; reflexivity. Qed.

(** C2 (amended): in HALF_OPEN, [record_trade_result] moves the breaker to
    CLOSED exactly when the recorded profit is not negative (zero included),
    and on that transition the reset callback, when one is registered, is
    called; in every state a positive profit sets [consecutive_losses] to 0. *)
Theorem record_trade_result_half_open_closed (b : t) (p e now : Z) :
  (_state b = HALF_OPEN ->
     (_state (record_trade_result b p e now) = CLOSED <-> 0 <= p) /\
     (0 <= p ->
        calls (record_trade_result b p e now) =
        if _on_reset b then OnReset :: calls b else calls b)) /\
  (0 < p ->
     consecutive_losses (_metrics (record_trade_result b p e now)) = 0).
Proof.
  split.
  - intros Hst. unfold record_trade_result.
    destruct (Z.ltb_spec p 0) as [Hneg | Hpos].
    + split.
      * split; [|lia]. intros Hc.
        match type of Hc with
        | _state (_check_trip_conditions ?b' _) = _ =>
            destruct (check_trip_state b' now) as [H1 | H1];
              rewrite H1 in Hc; simpl in Hc; congruence
        end.
      * lia.
    + simpl. rewrite Hst. simpl. split; [split; [lia | reflexivity] | reflexivity].
  - intros Hp. unfold record_trade_result.
    destruct (Z.ltb_spec p 0); [lia|].
    simpl. destruct (state_eqb (_state b) HALF_OPEN); reflexivity.
Qed.

Lemma record_trade_result_half_open_closed_witness :
  _state half_open_after_loss = HALF_OPEN /\
  (_state (record_trade_result half_open_after_loss 10 0 10000001) = CLOSED
     <-> 0 <= 10) /\
  calls (record_trade_result half_open_after_loss 10 0 10000001)
    = OnReset :: calls half_open_after_loss /\
  consecutive_losses
    (_metrics (record_trade_result half_open_after_loss 10 0 10000001)) = 0.
Proof.
  pose proof (record_trade_result_half_open_closed
                half_open_after_loss 10 0 10000001) as [H1 H2].
  assert (Hs : _state half_open_after_loss = HALF_OPEN) by reflexivity.
  destruct (H1 Hs) as [H3 H4].
  split; [exact Hs|]. split; [exact H3|]. split.
  - apply H4. lia.
  - apply H2. lia.
Defined.

(** C3, as the spec states it, fails: a loss recorded in HALF_OPEN that
    leaves every metric under its threshold does not re-trip the breaker. *)
Lemma half_open_small_loss_stays_half_open :
  _state half_open_after_exposure = HALF_OPEN /\
  _state (record_trade_result half_open_after_exposure (-100) 1000 300000001)
    = HALF_OPEN /\
  _state (record_trade_result half_open_after_exposure (-100) 1000 300000001)
    <> OPEN.
Proof. repeat split; try reflexivity. discriminate. Qed.

(** C3 (amended): a loss recorded in HALF_OPEN re-trips the breaker exactly
    when, after the update, the daily loss, the consecutive losses or the
    reported exposure has reached its limit; otherwise the breaker stays in
    HALF_OPEN. *)
Theorem record_trade_result_half_open_loss (b : t) (p e now : Z) :
  _state b = HALF_OPEN -> p < 0 ->
  let tripped :=
    max_daily_loss_cents (config b)
      <= daily_loss_cents (_metrics b) + Z.abs p \/
    max_consecutive_losses (config b)
      <= consecutive_losses (_metrics b) + 1 \/
    max_exposure_cents (config b) <= e in
  (tripped -> _state (record_trade_result b p e now) = OPEN) /\
  (~ tripped -> _state (record_trade_result b p e now) = HALF_OPEN).
Proof.
  intros Hst Hp tripped. unfold record_trade_result.
  destruct (Z.ltb_spec p 0); [|lia].
  match goal with
  | |- context [_check_trip_conditions ?b' now] =>
      assert (Hne : _state b' <> OPEN) by (simpl; rewrite Hst; discriminate);
      destruct (check_trip_conditions_spec b' now Hne) as [Ht Hn]
  end.
  split.
  - intros Htr. apply Ht. exact Htr.
  - intros Hno. rewrite (Hn Hno). simpl. exact Hst.
Qed.

Lemma record_trade_result_half_open_loss_witness :
  _state (record_trade_result half_open_after_loss (-10) 0 10000001) = OPEN.
Proof.
  refine (proj1 (record_trade_result_half_open_loss
                   half_open_after_loss (-10) 0 10000001 _ _) _).
  - reflexivity.
  - lia.
  - left. vm_compute. discriminate.
Defined.

End CircuitBreakerProps.

(** ** Exposure gate *)

Section ExposureProps.
Import Models ExposureManager.

Variable m : ExposureManager.t.

Lemma check_legs_None (opp : ArbitrageOpportunity) q ls :
  check_legs m (PositionTracker.positions (position_tracker m)) (current_total m) q ls
    = None <->
  (forall leg, In leg ls ->
               holds m opp (CPosition leg) q /\ holds m opp (CExposure leg) q).
Proof.
  induction ls as [|leg ls IH]; simpl.
  - split; [intros _ ? [] | reflexivity].
  - unfold holds, contracts_at, exposure_at in *.
    destruct (Z.ltb_spec (max_position_per_market (limits m))
                (match PositionTracker.positions (position_tracker m)
                         !! leg_ticker leg with
                 | Some p => contracts p | None => 0 end + q)) as [H1|H1].
    { split; [discriminate|]. intros H. specialize (H leg (or_introl eq_refl)). lia. }
    destruct (Z.ltb_spec (max_exposure_per_market_cents (limits m))
                (match PositionTracker.positions (position_tracker m)
                         !! leg_ticker leg with
                 | Some p => market_exposure p | None => 0 end
                 + leg_price leg * q)) as [H2|H2].
    { split; [discriminate|]. intros H. specialize (H leg (or_introl eq_refl)). lia. }
    rewrite IH. split.
    + intros H l [<-|Hin]; [split; assumption | apply H, Hin].
    + intros H l Hin. apply H. right. exact Hin.
Qed.

Lemma check_legs_Some q ls d :
  check_legs m (PositionTracker.positions (position_tracker m)) (current_total m) q ls
    = Some d ->
  allowed d = false /\
  exists leg, In leg ls /\
    ((~ (contracts_at m (leg_ticker leg) + q <= max_position_per_market (limits m))
      /\ max_allowed_quantity d
         = max_position_per_market (limits m) - contracts_at m (leg_ticker leg)
      /\ reason d = Some (PositionLimit (leg_ticker leg)
                            (contracts_at m (leg_ticker leg) + q)
                            (max_position_per_market (limits m))))
     \/
     (~ (exposure_at m (leg_ticker leg) + leg_price leg * q
         <= max_exposure_per_market_cents (limits m))
      /\ max_allowed_quantity d
         = _calculate_max_quantity (exposure_at m (leg_ticker leg))
             (leg_price leg) (max_exposure_per_market_cents (limits m))
      /\ reason d = Some (MarketExposureLimit (leg_ticker leg)))).
Proof.
  induction ls as [|leg ls IH]; simpl; [discriminate|].
  unfold contracts_at, exposure_at in *.
  destruct (Z.ltb_spec (max_position_per_market (limits m))
              (match PositionTracker.positions (position_tracker m)
                       !! leg_ticker leg with
               | Some p => contracts p | None => 0 end + q)) as [H1|H1].
  { intros [= <-]. simpl. split; [reflexivity|].
    exists leg. split; [now left|]. left. repeat split; try reflexivity. lia. }
  destruct (Z.ltb_spec (max_exposure_per_market_cents (limits m))
              (match PositionTracker.positions (position_tracker m)
                       !! leg_ticker leg with
               | Some p => market_exposure p | None => 0 end
               + leg_price leg * q)) as [H2|H2].
  { intros [= <-]. simpl. split; [reflexivity|].
    exists leg. split; [now left|]. right. repeat split; try reflexivity. lia. }
  intros Hd. destruct (IH Hd) as [Ha [l [Hin Hl]]].
  split; [exact Ha|]. exists l. split; [now right | exact Hl].
Qed.

(** C4: the gate approves a trade exactly when the projected total exposure
    stays within the total limit and, for every leg, the projected position
    and the projected market exposure stay within the per-market limits;
    the comparisons are not strict, so a trade landing on a limit passes. *)
Theorem check_trade_allowed_iff (opp : ArbitrageOpportunity) (q : Z) :
  allowed (check_trade m opp q) = true <->
  (current_total m) + total_cost_cents opp * q
    <= max_total_exposure_cents (limits m) /\
  (forall leg, In leg (legs opp) ->
     contracts_at m (leg_ticker leg) + q <= max_position_per_market (limits m) /\
     exposure_at m (leg_ticker leg) + leg_price leg * q
       <= max_exposure_per_market_cents (limits m)).
Proof.
  unfold check_trade. fold (current_total m).
  destruct (Z.ltb_spec (max_total_exposure_cents (limits m))
              ((current_total m) + total_cost_cents opp * q)) as [H|H].
  { simpl. split; [discriminate | intros [H' _]; lia]. }
  destruct (check_legs m (PositionTracker.positions (position_tracker m))
              (current_total m) q (legs opp)) as [d|] eqn:E.
  - destruct (check_legs_Some _ _ _ E) as [Ha [leg [Hin Hl]]].
    rewrite Ha. split; [discriminate|]. intros [_ Hall].
    specialize (Hall leg Hin). destruct Hl as [[Hn _]|[Hn _]]; tauto.
  - simpl. split; [|reflexivity]. intros _. split; [exact H|].
    exact (proj1 (check_legs_None opp q (legs opp)) E).
Qed.

Lemma _calculate_max_quantity_largest (current per_unit limit : Z) :
  0 < per_unit ->
  (exists q0, 0 <= q0 /\ current + per_unit * q0 <= limit) ->
  let v := _calculate_max_quantity current per_unit limit in
  0 <= v /\ current + per_unit * v <= limit /\
  forall q, current + per_unit * q <= limit -> q <= v.
Proof.
  intros Hpos [q0 [Hq0 Hle]] v. subst v. unfold _calculate_max_quantity.
  destruct (Z.leb_spec per_unit 0); [lia|].
  assert (Hrem : 0 <= limit - current) by nia.
  assert (Hdiv : 0 <= (limit - current) / per_unit)
    by (apply Z.div_pos; lia).
  rewrite Z.max_r by exact Hdiv.
  split; [exact Hdiv|]. split.
  - pose proof (Z.mul_div_le (limit - current) per_unit Hpos). lia.
  - intros q Hq. apply Z.div_le_lower_bound; lia.
Qed.

(** C5 (amended): when the gate denies a trade, [max_allowed_quantity] is
    the bound of the one constraint that triggered the denial (the total
    exposure, or the position or exposure limit of the offending leg):
    whenever that constraint has a positive per-unit cost and can be met by
    some quantity [q0 >= 0], the value returned is the largest quantity
    meeting that constraint.  Nothing is said about the other constraints. *)
Theorem check_trade_denied_max_allowed (opp : ArbitrageOpportunity) (q : Z) :
  allowed (check_trade m opp q) = false ->
  exists c,
    of_opportunity opp c /\ ~ holds m opp c q /\
    (0 < unit_cost opp c ->
     (exists q0, 0 <= q0 /\ holds m opp c q0) ->
     let v := max_allowed_quantity (check_trade m opp q) in
     0 <= v /\ holds m opp c v /\ forall q', holds m opp c q' -> q' <= v).
Proof.
  unfold check_trade. fold (current_total m).
  destruct (Z.ltb_spec (max_total_exposure_cents (limits m))
              ((current_total m) + total_cost_cents opp * q)) as [H|H].
  { intros _. exists CTotal. simpl. split; [exact I|]. split; [lia|].
    intros Hpos Hex. apply _calculate_max_quantity_largest; assumption. }
  destruct (check_legs m (PositionTracker.positions (position_tracker m))
              (current_total m) q (legs opp)) as [d|] eqn:E;
    [|simpl; discriminate].
  intros _. destruct (check_legs_Some _ _ _ E) as [_ [leg [Hin Hl]]].
  destruct Hl as [[Hn [Hv _]]|[Hn [Hv _]]].
  - exists (CPosition leg). simpl. split; [exact Hin|]. split; [exact Hn|].
    intros _ [q0 [Hq0 Hle]]. rewrite Hv. repeat split; try lia.
  - exists (CExposure leg). simpl. split; [exact Hin|]. split; [exact Hn|].
    intros Hpos Hex. rewrite Hv.
    apply _calculate_max_quantity_largest; assumption.
Qed.

End ExposureProps.

Section ExposureExample.
Import Models ExposureManager.

(** C5, as the spec states it, fails: asked for 20 contracts the gate
    denies on the position limit of market A and reports 10, although 10
    contracts break the exposure limit of market B and the largest
    quantity meeting all three constraints is 0. *)
Lemma denied_bound_ignores_other_constraints :
  let r := check_trade gate_example two_leg_opportunity 20 in
  allowed r = false /\
  max_allowed_quantity r = 10 /\
  ~ feasible gate_example two_leg_opportunity (max_allowed_quantity r) /\
  feasible gate_example two_leg_opportunity 0 /\
  (forall q, 0 <= q -> feasible gate_example two_leg_opportunity q -> q <= 0).
Proof.
  assert (HB : exposure_at gate_example "B" = 9990) by reflexivity.
  assert (HA : exposure_at gate_example "A" = 100) by reflexivity.
  assert (CA : contracts_at gate_example "A" = 90) by reflexivity.
  assert (CB : contracts_at gate_example "B" = 3) by reflexivity.
  assert (HT : current_total gate_example = 10090) by reflexivity.
  cbv zeta. split; [reflexivity|]. split; [reflexivity|].
  change (max_allowed_quantity (check_trade gate_example two_leg_opportunity 20))
    with 10.
  split; [|split].
  - intros [_ H].
    destruct (H {| leg_ticker := "B"; side := YES; action := BUY;
                   leg_price := 50; leg_quantity := 1 |}) as [_ H2].
    { simpl. auto. }
    unfold holds in H2. simpl leg_ticker in H2. simpl leg_price in H2.
    rewrite HB in H2. simpl in H2. lia.
  - split.
    + unfold holds. rewrite HT. simpl. lia.
    + intros leg [<-|[<-|[]]]; unfold holds; simpl leg_ticker; simpl leg_price;
        rewrite ?HA, ?HB, ?CA, ?CB; simpl; lia.
  - intros q Hq [_ H].
    destruct (H {| leg_ticker := "B"; side := YES; action := BUY;
                   leg_price := 50; leg_quantity := 1 |}) as [_ H2].
    { simpl. auto. }
    unfold holds in H2. simpl leg_ticker in H2. simpl leg_price in H2.
    rewrite HB in H2. simpl in H2. lia.
Qed.

(** A trade landing exactly on all three limits is approved, one contract
    more is not. *)
Example check_trade_on_the_limits :
  allowed (check_trade gate_on_limits two_leg_opportunity 100) = true /\
  max_allowed_quantity (check_trade gate_on_limits two_leg_opportunity 100) = 100 /\
  allowed (check_trade gate_on_limits two_leg_opportunity 101) = false.
Proof. repeat split; reflexivity. Qed.

Lemma check_trade_allowed_iff_witness :
  allowed (check_trade gate_on_limits two_leg_opportunity 100) = true.
Proof.
  apply (proj2 (check_trade_allowed_iff gate_on_limits two_leg_opportunity 100)).
  split.
  - vm_compute. discriminate.
  - intros leg [<-|[<-|[]]]; split; vm_compute; discriminate.
Defined.

Lemma check_trade_denied_max_allowed_witness :
  exists c,
    of_opportunity two_leg_opportunity c /\
    ~ holds gate_example two_leg_opportunity c 20 /\
    (0 < unit_cost two_leg_opportunity c ->
     (exists q0, 0 <= q0 /\ holds gate_example two_leg_opportunity c q0) ->
     let v := max_allowed_quantity
                (check_trade gate_example two_leg_opportunity 20) in
     0 <= v /\ holds gate_example two_leg_opportunity c v /\
     forall q', holds gate_example two_leg_opportunity c q' -> q' <= v).
Proof.
  apply (check_trade_denied_max_allowed gate_example two_leg_opportunity 20).
  reflexivity.
Defined.

End ExposureExample.

(** ** Fee estimator *)

Section FeeProps.
Import Models Calculator.

Lemma new_ArbitrageLeg_ok t s a p q l :
  new_ArbitrageLeg t s a p q = Py.Return l ->
  leg_ok l /\ l = {| leg_ticker := t; side := s; action := a;
                     leg_price := p; leg_quantity := q |}.
Proof.
  unfold new_ArbitrageLeg, leg_ok.
  destruct (Z.leb_spec 1 p), (Z.leb_spec p 99), (Z.leb_spec 1 q);
    simpl; try discriminate.
  intros [= <-]. simpl. repeat split; lia.
Qed.

Variable c : ProfitCalculator.
Hypothesis rate_nonneg : (0 <= fee_rate c)%Q.








End FeeProps.

Section FeeExample.
Import Models Calculator.


End FeeExample.

(** ** Acquisition cost *)

Section AcquisitionProps.
Import Models.

(** The helper never reads a quantity of the book: its result is the best
    implied ask times the requested quantity whenever an ask exists. *)
Lemma get_acquisition_cost_spec (ob : Orderbook) (s : OrderSide) (q : Z) :
  orderbook_ok ob = true ->
  get_acquisition_cost ob s q =
  match (match s with YES => best_yes_ask ob | NO => best_no_ask ob end) with
  | Some a => Some (a * q)
  | None => None
  end.
Proof.
  intros Hok. unfold get_acquisition_cost.
  assert (Hmax : forall l0 ls, level_ok l0 = true ->
                   forallb level_ok ls = true -> max_price l0 ls <= 99).
  { intros l0 ls. unfold max_price.
    assert (G : forall acc, acc <= 99 -> forallb level_ok ls = true ->
                fold_left (fun a l => Z.max a (price l)) ls acc <= 99).
    { induction ls as [|l ls IH]; intros acc Ha Hls; simpl in *; [exact Ha|].
      apply andb_prop in Hls as [Hl Hls]. apply IH; [|exact Hls].
      unfold level_ok in Hl. lia. }
    intros H0 Hls. apply G; [|exact Hls]. unfold level_ok in H0. lia. }
  unfold orderbook_ok in Hok. apply andb_prop in Hok as [Hy Hn].
  destruct s.
  - unfold best_yes_ask, best_no_bid.
    destruct (no_bids ob) as [|l0 ls]; [reflexivity|].
    simpl in Hn. apply andb_prop in Hn as [H0 Hls].
    pose proof (Hmax l0 ls H0 Hls).
    destruct (Z.eqb_spec (100 - max_price l0 ls) 0); [lia | reflexivity].
  - unfold best_no_ask, best_yes_bid.
    destruct (yes_bids ob) as [|l0 ls]; [reflexivity|].
    simpl in Hy. apply andb_prop in Hy as [H0 Hls].
    pose proof (Hmax l0 ls H0 Hls).
    destruct (Z.eqb_spec (100 - max_price l0 ls) 0); [lia | reflexivity].
Qed.

(** C8 fails on the code: only 5 contracts rest at the best implied YES
    ask of 40 cents, 10 are requested, and the helper returns the price
    400 instead of [None]; the manager's helper does the same. *)
Theorem get_acquisition_cost_thin_book :
  best_yes_ask thin_book = Some 40 /\
  yes_ask_quantity thin_book = 5 /\
  get_acquisition_cost thin_book YES 10 = Some 400 /\
  OrderbookManager.get_acquisition_costs
    {| OrderbookManager._orderbooks := {[ "EVENT-A"%string := thin_book ]} |}
    ["EVENT-A"%string] YES 10 !! "EVENT-A"%string = Some (Some 400).
Proof. repeat split; reflexivity. Qed.

End AcquisitionProps.

(** ** Ranking of candidates *)

Section RankingProps.
Import Models ArbitrageDetector.

Lemma max_by_score_spec x xs :
  In (max_by_score x xs) (x :: xs) /\
  forall o, In o (x :: xs) -> (score o <= score (max_by_score x xs))%Q.
Proof.
  unfold max_by_score. revert x. induction xs as [|y ys IH]; intros x; simpl.
  - split; [now left|]. intros o [<-|[]]. apply Qle_refl.
  - destruct (Qle_bool (score y) (score x)) eqn:E.
    + destruct (IH x) as [Hin Hmax]. split.
      * destruct Hin as [Hx|Hys]; [left; exact Hx | right; right; exact Hys].
      * intros o [<-|[<-|Ho]].
        -- apply Hmax. now left.
        -- apply Qle_bool_iff in E. eapply Qle_trans; [exact E|].
           apply Hmax. now left.
        -- apply Hmax. now right.
    + destruct (IH y) as [Hin Hmax]. split.
      * right. exact Hin.
      * assert (Hxy : (score x <= score y)%Q).
        { destruct (Qlt_le_dec (score x) (score y)) as [Hlt|Hle].
          - apply Qlt_le_weak, Hlt.
          - apply Qle_bool_iff in Hle. congruence. }
        intros o [<-|[<-|Ho]].
        -- eapply Qle_trans; [exact Hxy|]. apply Hmax. now left.
        -- apply Hmax. now left.
        -- apply Hmax. now right.
Qed.

(** What the ranking does: no result exactly when no candidate is
    profitable; otherwise a profitable candidate whose weighted score
    [100 * net + 10 * confidence + max_quantity] no profitable candidate
    exceeds. *)
Lemma get_best_opportunity_spec (opps : list ArbitrageOpportunity) :
  (get_best_opportunity opps = None <->
   forall o, In o opps -> ~ 0 < net_profit_cents o) /\
  (forall b, get_best_opportunity opps = Some b ->
     In b opps /\ 0 < net_profit_cents b /\
     forall o, In o opps -> 0 < net_profit_cents o ->
               (score o <= score b)%Q).
Proof.
  unfold get_best_opportunity.
  assert (Hf : forall o, In o (List.filter is_profitable opps)
                         <-> In o opps /\ 0 < net_profit_cents o).
  { intros o. rewrite filter_In. unfold is_profitable. rewrite Z.ltb_lt. tauto. }
  destruct opps as [|o0 os] eqn:Eo.
  { split; [split; [intros _ ? [] | reflexivity] | discriminate]. }
  rewrite <- Eo in *. clear Eo.
  destruct (List.filter is_profitable opps) as [|p ps] eqn:E.
  - split; [|discriminate]. split; [|reflexivity].
    intros _ o Hin Hp. destruct (proj2 (Hf o) (conj Hin Hp)).
  - split.
    + split; [discriminate|]. intros Hno. exfalso.
      destruct (proj1 (Hf p) (or_introl eq_refl)) as [Hin Hp].
      exact (Hno p Hin Hp).
    + intros b [= <-]. destruct (max_by_score_spec p ps) as [Hin Hmax].
      destruct (proj1 (Hf _) Hin) as [Hin' Hp]. split; [exact Hin'|].
      split; [exact Hp|]. intros o Ho Hpo. apply Hmax. apply Hf. tauto.
Qed.

(** C1 fails on the code: the candidate returned has a strictly smaller
    net profit than another profitable candidate, because the weighted
    score lets 150 contracts outweigh one cent of net profit. *)
Theorem get_best_opportunity_not_lexicographic :
  get_best_opportunity [wide_candidate; rich_candidate] = Some wide_candidate /\
  get_best_opportunity [rich_candidate; wide_candidate] = Some wide_candidate /\
  is_profitable rich_candidate = true /\
  net_profit_cents wide_candidate < net_profit_cents rich_candidate.
Proof. repeat split; reflexivity. Qed.

End RankingProps.

(** ** Signature payload *)

Section PayloadProps.
Import UrlParse.
Local Open Scope string_scope.
Local Arguments String.append !_ _ / : simpl nomatch.

Lemma append_nil_r (s : string) : s ++ "" = s.
Proof. induction s; simpl; congruence. Qed.

Lemma lstrip_app_query p s : lstrip (p ++ String "?" s) = lstrip p ++ String "?" s.
Proof.
  induction p as [|c p IH]; simpl; [reflexivity|].
  destruct (is_c0_control_or_space c); [exact IH | reflexivity].
Qed.

Lemma remove_unsafe_app_query u s :
  remove_unsafe (u ++ String "?" s) = remove_unsafe u ++ String "?" (remove_unsafe s).
Proof.
  induction u as [|c u IH]; simpl; [reflexivity|].
  destruct (is_unsafe c); simpl; congruence.
Qed.

Lemma all_chars_app f u v : all_chars f (u ++ v) = (all_chars f u && all_chars f v)%bool.
Proof.
  induction u as [|c u IH]; simpl; [reflexivity|].
  rewrite IH. apply andb_assoc.
Qed.

Lemma split_first_app c u v :
  split_first c (u ++ v) =
  match split_first c u with
  | Some (h, t) => Some (h, t ++ v)
  | None => match split_first c v with
            | Some (h, t) => Some (u ++ h, t)
            | None => None
            end
  end.
Proof.
  induction u as [|a u IH]; simpl.
  - destruct (split_first c v) as [[h t]|]; reflexivity.
  - destruct (Ascii.eqb a c); [reflexivity|].
    rewrite IH. destruct (split_first c u) as [[h t]|]; [reflexivity|].
    destruct (split_first c v) as [[h t]|]; reflexivity.
Qed.

Lemma before_cons c a r :
  before c (String a r) = if Ascii.eqb a c then "" else String a (before c r).
Proof.
  unfold before. simpl. destruct (Ascii.eqb a c); [reflexivity|].
  destruct (split_first c r) as [[h t]|]; reflexivity.
Qed.

Lemma before_absent c w : contains c w = false -> before c w = w.
Proof.
  induction w as [|a w IH]; [reflexivity|]. simpl. rewrite before_cons.
  destruct (Ascii.eqb a c); simpl; [discriminate|].
  intros H. rewrite IH by exact H. reflexivity.
Qed.

Lemma before_app c u v :
  before c (u ++ v) = if contains c u then before c u else u ++ before c v.
Proof.
  induction u as [|a u IH]; simpl; [reflexivity|].
  rewrite !before_cons. destruct (Ascii.eqb a c); simpl; [reflexivity|].
  rewrite IH. destruct (contains c u); reflexivity.
Qed.

(** Appending a query leaves the scheme alone. *)
Lemma split_scheme_app_query u s :
  split_scheme (u ++ String "?" s) =
  (fst (split_scheme u), snd (split_scheme u) ++ String "?" s).
Proof.
  unfold split_scheme. rewrite split_first_app.
  destruct (split_first ":" u) as [[pre rest]|] eqn:E.
  - destruct pre as [|c0 pre]; [reflexivity|].
    destruct (is_ascii_alpha c0 && all_chars is_scheme_char (String c0 pre))%bool;
      reflexivity.
  - change (split_first ":" (String "?" s))
      with (match split_first ":" s with
            | Some (h, t) => Some (String "?" h, t)
            | None => None
            end).
    destruct (split_first ":" s) as [[h t]|]; [|reflexivity].
    destruct u as [|a u]; simpl; [reflexivity|].
    rewrite all_chars_app. simpl.
    rewrite !andb_false_r. reflexivity.
Qed.

Lemma _splitnetloc_app_query r s :
  _splitnetloc (r ++ String "?" s) =
  (fst (_splitnetloc r), snd (_splitnetloc r) ++ String "?" s).
Proof.
  induction r as [|c r IH]; simpl; [reflexivity|].
  destruct (is_netloc_delim c); [reflexivity|].
  rewrite IH. destruct (_splitnetloc r) as [n rest]. reflexivity.
Qed.

Lemma split_netloc_app_query v s :
  split_netloc (v ++ String "?" s) =
  (fst (split_netloc v), snd (split_netloc v) ++ String "?" s).
Proof.
  destruct v as [|a [|b r]]; simpl.
  - destruct s; reflexivity.
  - rewrite andb_false_r. reflexivity.
  - destruct (Ascii.eqb a "/" && Ascii.eqb b "/")%bool; [|reflexivity].
    apply _splitnetloc_app_query.
Qed.

(** Cutting the fragment and then the query gives the same path with and
    without an appended query. *)
Lemma before_query_fragment_app w s :
  before "?" (before "#" (w ++ String "?" s)) = before "?" (before "#" w).
Proof.
  rewrite (before_app "#" w). destruct (contains "#" w) eqn:Eh; [reflexivity|].
  rewrite (before_absent "#" w Eh). rewrite before_cons. simpl.
  rewrite before_app. rewrite before_cons. simpl.
  destruct (contains "?" w) eqn:Eq; [reflexivity|].
  rewrite append_nil_r. symmetry. apply before_absent, Eq.
Qed.

Variable netloc_ok : string -> bool.

Lemma urlsplit_app_query p s :
  urlsplit netloc_ok (p ++ "?" ++ s) = urlsplit netloc_ok p.
Proof.
  unfold urlsplit. change ("?" ++ s) with (String "?" s).
  rewrite lstrip_app_query, remove_unsafe_app_query, split_scheme_app_query.
  destruct (split_scheme (remove_unsafe (lstrip p))) as [scheme url]. simpl.
  rewrite split_netloc_app_query.
  destruct (split_netloc url) as [netloc rest]. simpl.
  destruct (netloc_ok netloc); simpl; [|reflexivity].
  rewrite before_query_fragment_app. reflexivity.
Qed.


Lemma contains_plain c p :
  all_chars plain_char p = true ->
  (forall a, plain_char a = true -> Ascii.eqb a c = false) ->
  contains c p = false.
Proof.
  intros Hall Hc. induction p as [|a p IH]; [reflexivity|].
  simpl in *. apply andb_prop in Hall as [Ha Hp].
  rewrite (Hc a Ha), (IH Hp). reflexivity.
Qed.

Lemma split_first_absent c p : contains c p = false -> split_first c p = None.
Proof.
  induction p as [|a p IH]; [reflexivity|]. simpl.
  destruct (Ascii.eqb a c); simpl; [discriminate|].
  intros H. rewrite (IH H). reflexivity.
Qed.

Lemma remove_unsafe_plain p : all_chars plain_char p = true -> remove_unsafe p = p.
Proof.
  induction p as [|a p IH]; [reflexivity|]. simpl. intros H.
  apply andb_prop in H as [Ha Hp]. rewrite (IH Hp).
  assert (Hu : is_unsafe a = false).
  { unfold plain_char in Ha. unfold is_unsafe, is_c0_control_or_space in *.
    destruct (Nat.leb (code a) 32) eqn:E; [discriminate|].
    apply Nat.leb_gt in E.
    destruct (Nat.eqb_spec (code a) 9); [lia|].
    destruct (Nat.eqb_spec (code a) 13); [lia|].
    destruct (Nat.eqb_spec (code a) 10); [lia|]. reflexivity. }
  rewrite Hu. reflexivity.
Qed.

Lemma urlparse_path_plain p :
  netloc_ok "" = true -> plain_path p = true ->
  urlparse_path netloc_ok p = Py.Return p.
Proof.
  intros Hok Hp. unfold plain_path in Hp. apply andb_prop in Hp as [Hall Hsl].
  assert (Hcol : contains ":" p = false).
  { apply contains_plain; [exact Hall|]. intros a Ha. unfold plain_char in Ha.
    destruct (Ascii.eqb a ":"); [|reflexivity].
    rewrite !andb_false_r in Ha. discriminate. }
  assert (Hq : contains "?" p = false).
  { apply contains_plain; [exact Hall|]. intros a Ha. unfold plain_char in Ha.
    destruct (Ascii.eqb a "?"); [|reflexivity].
    rewrite !andb_false_r in Ha. discriminate. }
  assert (Hh : contains "#" p = false).
  { apply contains_plain; [exact Hall|]. intros a Ha. unfold plain_char in Ha.
    destruct (Ascii.eqb a "#"); [|reflexivity].
    rewrite !andb_false_r in Ha. discriminate. }
  assert (Hs : contains ";" p = false).
  { apply contains_plain; [exact Hall|]. intros a Ha. unfold plain_char in Ha.
    destruct (Ascii.eqb a ";"); [|reflexivity].
    rewrite !andb_false_r in Ha. discriminate. }
  assert (Hl : lstrip p = p).
  { destruct p as [|a p]; [reflexivity|]. simpl in *.
    apply andb_prop in Hall as [Ha _]. unfold plain_char in Ha.
    destruct (is_c0_control_or_space a); [discriminate | reflexivity]. }
  assert (Hn : split_netloc p = ("", p)).
  { unfold split_netloc. destruct p as [|a [|b r]]; try reflexivity.
    destruct (Ascii.eqb a "/" && Ascii.eqb b "/")%bool; [discriminate | reflexivity]. }
  unfold urlparse_path, urlsplit.
  rewrite Hl, (remove_unsafe_plain p Hall).
  unfold split_scheme. rewrite (split_first_absent ":" p Hcol).
  rewrite Hn, Hok. cbn [negb].
  rewrite (before_absent "#" p Hh), (before_absent "?" p Hq).
  cbn [mbind outcome_bind Py.bind]. rewrite Hs, andb_false_r. reflexivity.
Qed.

(** Hence the payload of a plain path followed by a query is the timestamp,
    the method and the bare path. *)
Lemma signature_payload_plain (ts : Z) (m p s : string) :
  netloc_ok "" = true -> plain_path p = true ->
  KalshiAuthenticator._create_signature_payload netloc_ok ts m (p ++ "?" ++ s) =
  Py.Return (KalshiAuthenticator.str_int ts ++ upper m ++ p).
Proof.
  intros Hok Hp.
  unfold KalshiAuthenticator._create_signature_payload, urlparse_path.
  rewrite urlsplit_app_query.
  pose proof (urlparse_path_plain p Hok Hp) as H. unfold urlparse_path in H.
  rewrite H. reflexivity.
Qed.

End PayloadProps.

(** The sixth end-to-end scenario, with a parser that accepts every network
    location. *)
Example signature_payload_markets :
  KalshiAuthenticator._create_signature_payload (fun _ => true)
    1700000000000 "get" "/markets?status=open"
  = Py.Return "1700000000000GET/markets"%string /\
  KalshiAuthenticator._create_signature_payload (fun _ => true)
    1700000000000 "get" "/markets"
  = Py.Return "1700000000000GET/markets"%string.
Proof. split; reflexivity. Qed.

(** ** Multi-outcome strategy *)

Section MultiOutcomeProps.
Import Models MultiOutcomeStrategy.

Lemma max_price_range l0 ls :
  level_ok l0 = true -> forallb level_ok ls = true ->
  1 <= max_price l0 ls <= 99.
Proof.
  unfold max_price. intros H0 Hls.
  assert (G : forall acc, 1 <= acc <= 99 ->
              fold_left (fun a l => Z.max a (price l)) ls acc >= 1 /\
              fold_left (fun a l => Z.max a (price l)) ls acc <= 99).
  { induction ls as [|l ls IH]; intros acc Ha; simpl in *; [lia|].
    apply andb_prop in Hls as [Hl Hls]. apply IH; [exact Hls|].
    unfold level_ok in Hl. lia. }
  unfold level_ok in H0. destruct (G (price l0)); lia.
Qed.

Lemma best_yes_ask_range ob a :
  orderbook_ok ob = true -> best_yes_ask ob = Some a -> 1 <= a <= 99.
Proof.
  unfold orderbook_ok, best_yes_ask, best_no_bid. intros Hok.
  apply andb_prop in Hok as [_ Hn].
  destruct (no_bids ob) as [|l0 ls]; [discriminate|].
  simpl in Hn. apply andb_prop in Hn as [H0 Hls].
  intros [= <-]. pose proof (max_price_range l0 ls H0 Hls). lia.
Qed.

Lemma sum_Z_acc (l : list Z) acc : fold_left Z.add l acc = acc + sum_Z l.
Proof.
  unfold sum_Z. revert acc. induction l as [|x l IH]; intros acc; simpl; [lia|].
  rewrite (IH (acc + x)), (IH (0 + x)). lia.
Qed.

Lemma sum_Z_cons x (l : list Z) : sum_Z (x :: l) = x + sum_Z l.
Proof. unfold sum_Z at 1. simpl. apply sum_Z_acc. Qed.

Lemma fold_left_min_spec v (vs : list Z) :
  In (fold_left Z.min vs v) (v :: vs) /\
  forall y, In y (v :: vs) -> fold_left Z.min vs v <= y.
Proof.
  revert v. induction vs as [|x xs IH]; intros v; simpl.
  - split; [now left | intros y [<-|[]]; lia].
  - destruct (IH (Z.min v x)) as [Hin Hle]. split.
    + destruct Hin as [Hm|Hxs]; [|right; right; exact Hxs].
      rewrite <- Hm. destruct (Z.min_spec v x) as [[_ ->]|[_ ->]]; auto.
    + intros y [Hy|[Hy|Hy]].
      * specialize (Hle (Z.min v x) (or_introl eq_refl)). lia.
      * specialize (Hle (Z.min v x) (or_introl eq_refl)). lia.
      * apply Hle. right. exact Hy.
Qed.

Lemma fold_right_min_spec x (xs : list Z) :
  In (fold_right Z.min x xs) (x :: xs) /\
  forall y, In y (x :: xs) -> fold_right Z.min x xs <= y.
Proof.
  induction xs as [|z zs IH]; simpl.
  - split; [now left | intros y [<-|[]]; lia].
  - destruct IH as [Hin Hle]. split.
    + destruct (Z.min_spec z (fold_right Z.min x zs)) as [[_ ->]|[_ ->]];
        [right; now left|].
      destruct Hin as [Hx|Hz]; [left; exact Hx | right; right; exact Hz].
    + intros y [Hy|[Hy|Hy]].
      * specialize (Hle y (or_introl Hy)). lia.
      * lia.
      * specialize (Hle y (or_intror Hy)). lia.
Qed.

Lemma min_values_perm (d : gmap string Z) q qs :
  (map_to_list d).*2 ≡ₚ q :: qs ->
  min_values d = Py.Return (minimum (q :: qs)).
Proof.
  intros Hp. unfold min_values, minimum.
  destruct ((map_to_list d).*2) as [|v vs] eqn:E.
  { apply Permutation_nil_cons in Hp. destruct Hp. }
  f_equal.
  destruct (fold_left_min_spec v vs) as [Hin1 Hle1].
  destruct (fold_right_min_spec q qs) as [Hin2 Hle2].
  apply Z.le_antisymm.
  - apply Hle1. eapply Permutation_in; [symmetry; exact Hp | exact Hin2].
  - apply Hle2. eapply Permutation_in; [exact Hp | exact Hin1].
Qed.

Lemma build_legs_quoted (orderbooks : gmap string Orderbook)
    (l : list (Market * Orderbook)) legs0 mq0 tc0 :
  (forall mb, In mb l -> orderbooks !! ticker mb.1 = Some mb.2 /\ quoted mb) ->
  build_legs (l.*1) orderbooks (legs0, mq0, tc0) =
  Py.Return (Some (legs0 ++ expected_legs l,
                   fold_left insert_quantity l mq0,
                   tc0 + sum_Z (asks l))).
Proof.
  revert legs0 mq0 tc0. induction l as [|mb l IH]; intros legs0 mq0 tc0 H.
  - simpl. rewrite app_nil_r. unfold sum_Z. simpl. rewrite Z.add_0_r. reflexivity.
  - destruct (H mb (or_introl eq_refl)) as [Hlk [Hok [[a Ha] Hq]]].
    cbn [fmap list_fmap build_legs]. rewrite Hlk, Ha.
    destruct (Z.leb_spec (yes_ask_quantity mb.2) 0); [lia|].
    pose proof (best_yes_ask_range _ _ Hok Ha) as Hr.
    unfold new_ArbitrageLeg.
    destruct (Z.leb_spec 1 a); [|lia]. destruct (Z.leb_spec a 99); [|lia].
    change (1 <=? 1) with true.
    cbn [negb andb]. cbn [mbind outcome_bind Py.bind].
    rewrite IH by (intros mb' Hin; apply H; right; exact Hin).
    unfold expected_legs, asks. cbn [fmap list_fmap fold_left].
    rewrite sum_Z_cons.
    assert (Hy : yes_ask mb.2 = a) by (unfold yes_ask; rewrite Ha; reflexivity).
    rewrite Hy, <- app_assoc, Z.add_assoc. reflexivity.
Qed.

Lemma books_of_lookup (mbs : list (Market * Orderbook)) mb :
  NoDup (ticker <$> mbs.*1) -> In mb mbs ->
  books_of mbs !! ticker mb.1 = Some mb.2.
Proof.
  intros Hnd Hin. unfold books_of. apply elem_of_list_to_map_1.
  - rewrite <- list_fmap_compose. rewrite <- list_fmap_compose in Hnd.
    exact Hnd.
  - apply list_elem_of_fmap. exists mb. split; [reflexivity|].
    apply list_elem_of_In. exact Hin.
Qed.

Lemma books_of_size (mbs : list (Market * Orderbook)) :
  NoDup (ticker <$> mbs.*1) -> size (books_of mbs) = length mbs.
Proof.
  intros Hnd. unfold books_of. rewrite map_size_list_to_map.
  - apply length_fmap.
  - rewrite <- list_fmap_compose. rewrite <- list_fmap_compose in Hnd.
    exact Hnd.
Qed.

(** The dictionary [max_quantities] after the loop. *)
Lemma max_quantities_after_loop (mbs : list (Market * Orderbook)) :
  fold_left insert_quantity mbs ∅ =
  list_to_map (reverse ((fun mb => (ticker mb.1, yes_ask_quantity mb.2)) <$> mbs)).
Proof.
  induction mbs as [|mb mbs IH] using rev_ind; [reflexivity|].
  rewrite fold_left_app, fmap_app, reverse_app. simpl. rewrite IH.
  reflexivity.
Qed.

Lemma min_values_after_loop (mbs : list (Market * Orderbook)) mb0 rest :
  mbs = mb0 :: rest ->
  NoDup (ticker <$> mbs.*1) ->
  min_values (fold_left insert_quantity mbs ∅) = Py.Return (minimum (quantities mbs)).
Proof.
  intros Hne Hnd. rewrite max_quantities_after_loop.
  assert (Hq : quantities mbs = yes_ask_quantity mb0.2 :: quantities rest)
    by (subst mbs; reflexivity).
  rewrite Hq. apply min_values_perm. rewrite <- Hq.
  rewrite map_to_list_to_map.
  - rewrite fmap_reverse, reverse_Permutation, <- list_fmap_compose.
    reflexivity.
  - rewrite fmap_reverse, reverse_Permutation, <- list_fmap_compose.
    rewrite <- list_fmap_compose in Hnd. exact Hnd.
Qed.

Lemma quantities_nonneg (mbs : list (Market * Orderbook)) :
  (forall mb, In mb mbs -> quoted mb) -> 0 <= sum_Z (quantities mbs).
Proof.
  induction mbs as [|mb mbs IH]; intros H; [unfold sum_Z; simpl; lia|].
  unfold quantities in *. cbn [fmap list_fmap]. rewrite sum_Z_cons.
  destruct (H mb (or_introl eq_refl)) as [_ [_ Hq]].
  assert (0 <= sum_Z ((fun mb => yes_ask_quantity mb.2) <$> mbs))
    by (apply IH; intros; apply H; now right).
  lia.
Qed.

Lemma confidence_quantities (orderbooks : gmap string Orderbook)
    (l : list (Market * Orderbook)) :
  (forall mb, In mb l -> orderbooks !! ticker mb.1 = Some mb.2) ->
  omap (fun m => yes_ask_quantity <$> orderbooks !! ticker m) (l.*1)
  = quantities l.
Proof.
  induction l as [|mb l IH]; intros H; [reflexivity|].
  cbn [fmap list_fmap omap list_omap]. rewrite (H mb (or_introl eq_refl)).
  cbn [fmap option_fmap option_map]. unfold quantities in *.
  cbn [fmap list_fmap]. f_equal. apply IH. intros; apply H; now right.
Qed.

(** With exactly the books of the markets at hand the confidence score is
    a valid one. *)
Lemma confidence_in_range (mbs : list (Market * Orderbook)) mb0 rest :
  mbs = mb0 :: rest ->
  NoDup (ticker <$> mbs.*1) ->
  (forall mb, In mb mbs -> quoted mb) ->
  let conf := _calculate_confidence (mbs.*1) (books_of mbs) in
  (Qle_bool 0 conf && Qle_bool conf 1)%bool = true.
Proof.
  intros Hne Hnd Hq conf. subst conf. unfold _calculate_confidence.
  rewrite confidence_quantities
    by (intros mb Hin; apply books_of_lookup; assumption).
  rewrite books_of_size by exact Hnd.
  pose proof (quantities_nonneg mbs Hq) as Hsum.
  assert (Hlen : len (quantities mbs) = len (mbs.*1)).
  { unfold len, quantities. rewrite !length_fmap. reflexivity. }
  assert (Hpos : 0 < len (mbs.*1)).
  { unfold len. rewrite length_fmap. subst mbs. simpl. lia. }
  assert (Hn : Z.of_nat (length mbs) = len (mbs.*1)).
  { unfold len. rewrite length_fmap. reflexivity. }
  rewrite Hn.
  destruct (mbs.*1) as [|m ms] eqn:Em; [unfold len in Hpos; simpl in Hpos; lia|].
  destruct (quantities mbs) as [|q qs] eqn:Eq.
  { unfold len in Hlen, Hpos. simpl in Hlen. lia. }
  rewrite Hlen.
  set (n := inject_Z (len (m :: ms))).
  set (total := inject_Z (sum_Z (q :: qs))).
  assert (Hn0 : (0 < n)%Q).
  { subst n. change 0%Q with (inject_Z 0). rewrite <- Zlt_Qlt. exact Hpos. }
  assert (Ht0 : (0 <= total)%Q).
  { subst total. change 0%Q with (inject_Z 0). rewrite <- Zle_Qle. exact Hsum. }
  assert (Hcov : (n / n == 1)%Q).
  { apply Qmult_inv_r. intros Hz. rewrite Hz in Hn0. discriminate. }
  assert (Havg : (0 <= total / n / 100)%Q).
  { apply Qle_shift_div_l; [reflexivity|]. rewrite Qmult_0_l.
    apply Qle_shift_div_l; [exact Hn0|]. rewrite Qmult_0_l. exact Ht0. }
  assert (Hs : (0 <= Qmin (total / n / 100) 1 <= 1)%Q).
  { unfold Qmin. destruct (Qle_bool (total / n / 100) 1) eqn:E.
    - apply Qle_bool_iff in E. split; assumption.
    - split; discriminate. }
  apply andb_true_intro. split; apply Qle_bool_iff.
  - rewrite Hcov. lra.
  - rewrite Hcov. lra.
Qed.




End MultiOutcomeProps.

(** ** Executor *)

Section ExecutorProps.
Import Models Executor.

Lemma adjust_legs_quantity legs qty legs' :
  OrderManager.adjust_legs legs qty = Py.Return legs' ->
  Forall (fun l => leg_quantity l = qty) legs' /\ length legs' = length legs.
Proof.
  revert legs'. induction legs as [|l ls IH]; intros legs'; simpl.
  - intros [= <-]. split; [constructor | reflexivity].
  - destruct (new_ArbitrageLeg (leg_ticker l) (side l) (action l)
                (leg_price l) qty) as [l'|e] eqn:El; [|discriminate].
    cbn [mbind outcome_bind Py.bind].
    destruct (OrderManager.adjust_legs ls qty) as [ls'|e]; [|discriminate].
    cbn [mbind outcome_bind Py.bind]. intros [= <-].
    destruct (IH ls' eq_refl) as [Hall Hlen].
    apply new_ArbitrageLeg_ok in El as [_ ->].
    split; [constructor; [reflexivity | exact Hall] | simpl; congruence].
Qed.

Lemma submit_legs_groups om v gid legs placed :
  OrderManager._order_groups (snd (OrderManager.submit_legs om v gid legs placed))
  = OrderManager._order_groups om.
Proof.
  revert om placed. induction legs as [|l ls IH]; intros om placed; simpl;
    [reflexivity|].
  unfold OrderManager.submit_order.
  destruct (OrderManager.create_order v l _) as [o|e]; [|reflexivity].
  rewrite IH. reflexivity.
Qed.

(** The groups a manager holds after a submission: the ones it held, and
    the submitted group with its legs unchanged. *)
Lemma submit_order_group_groups om v g :
  let '(g', om') := OrderManager.submit_order_group om v g in
  OrderManager.group_legs g' = OrderManager.group_legs g /\
  OrderManager.group_id g' = OrderManager.group_id g /\
  OrderManager._order_groups om'
  = <[OrderManager.group_id g := g']> (OrderManager._order_groups om).
Proof.
  unfold OrderManager.submit_order_group.
  pose proof (submit_legs_groups om v (OrderManager.group_id g)
                (OrderManager.group_legs g) (OrderManager.orders g)) as Hg.
  destruct (OrderManager.submit_legs om v (OrderManager.group_id g)
              (OrderManager.group_legs g) (OrderManager.orders g))
    as [[[e|] placed] om']; simpl in *; rewrite Hg; auto.
Qed.

Lemma effective_quantity_le opp quantity :
  effective_quantity opp quantity <= max_quantity opp.
Proof. unfold effective_quantity. lia. Qed.

Lemma create_order_group_spec om fresh_id opp qty :
  match OrderManager.create_order_group om fresh_id opp qty with
  | (Py.Return g, om') =>
      OrderManager.group_id g = fresh_id /\
      Forall (fun l => leg_quantity l = Z.min qty (max_quantity opp))
        (OrderManager.group_legs g) /\
      OrderManager._order_groups om'
      = <[fresh_id := g]> (OrderManager._order_groups om)
  | (Py.Raise _, om') => om' = om
  end.
Proof.
  unfold OrderManager.create_order_group.
  destruct (OrderManager.adjust_legs (legs opp) (Z.min qty (max_quantity opp)))
    as [legs'|e] eqn:E; [|reflexivity].
  simpl. apply adjust_legs_quantity in E as [Hall _]. auto.
Qed.

(** The groups held after [_execute_internal]: the ones held before, and
    at most one new group, stored under the fresh id, whose legs all carry
    the effective quantity. *)
Lemma execute_groups (ex : t) v fresh_id opp quantity validate gid g :
  OrderManager._order_groups
    (order_manager (snd (_execute_internal ex v fresh_id opp quantity validate)))
    !! gid = Some g ->
  OrderManager._order_groups (order_manager ex) !! gid = Some g \/
  (gid = fresh_id /\ 0 < effective_quantity opp quantity /\
   Forall (fun l => leg_quantity l = effective_quantity opp quantity)
     (OrderManager.group_legs g)).
Proof.
  unfold _execute_internal.
  destruct (validate && negb _)%bool; [simpl; auto|].
  pose proof (effective_quantity_le opp quantity) as Hle.
  destruct (Z.leb_spec (effective_quantity opp quantity) 0) as [Hz|Hpos];
    [simpl; auto|].
  pose proof (create_order_group_spec (order_manager ex) fresh_id opp
                (effective_quantity opp quantity)) as Hc.
  destruct (OrderManager.create_order_group (order_manager ex) fresh_id opp
              (effective_quantity opp quantity)) as [[group0|e] om1].
  - destruct Hc as [Hid [Hall Hgr]].
    pose proof (submit_order_group_groups om1 v group0) as Hs.
    destruct (OrderManager.submit_order_group om1 v group0) as [group om2].
    destruct Hs as [Hlegs [Hid' Hgr']].
    assert (Hstore : forall r : ExecutionResult,
              OrderManager._order_groups
                (order_manager (snd (r, record (with_order_manager ex om2) r)))
                !! gid = Some g ->
              OrderManager._order_groups (order_manager ex) !! gid = Some g \/
              (gid = fresh_id /\ 0 < effective_quantity opp quantity /\
               Forall (fun l => leg_quantity l = effective_quantity opp quantity)
                 (OrderManager.group_legs g))).
    { intros r. simpl. rewrite Hgr', Hid, Hgr.
      destruct (decide (fresh_id = gid)) as [->|Hne].
      - rewrite lookup_insert_eq. intros [= <-]. right.
        split; [reflexivity|]. split; [exact Hpos|].
        rewrite Hlegs. rewrite Z.min_l in Hall by exact Hle. exact Hall.
      - rewrite !lookup_insert_ne by exact Hne. auto. }
    destruct (OrderManager.group_status group); apply Hstore.
  - subst om1. destruct e; simpl; auto.
Qed.

(** C10, as the spec states it, fails: with the default [validate=True] a
    request for -1 contracts of a stale opportunity is turned down by the
    validation that runs first, and the error is not "No quantity
    available". *)
Lemma negative_quantity_stale_opportunity :
  effective_quantity scenario_opportunity (Some (-1)) < 0 /\
  error (fst (execute (executor_example moved_books) filling_venue "group-1"
                scenario_opportunity (Some (-1)) true))
    = Some (Message "Opportunity no longer valid") /\
  error (fst (execute (executor_example moved_books) filling_venue "group-1"
                scenario_opportunity (Some (-1)) true))
    <> Some (Message "No quantity available").
Proof.
  split; [reflexivity|].
  assert (H : error (fst (execute (executor_example moved_books) filling_venue
                            "group-1" scenario_opportunity (Some (-1)) true))
              = Some (Message "Opportunity no longer valid"))
    by (vm_compute; reflexivity).
  split; [exact H|]. rewrite H. discriminate.
Qed.

(** C10 (amended): the effective quantity is [min(q, max_quantity)], with
    [q = None] and [q = 0] standing for [max_quantity]; every order group
    the executor creates carries that quantity, at most [max_quantity], on
    each leg; a negative request never creates or submits an order group
    and yields a failed result, whose error is "No quantity available" when
    the opportunity passes the validation that runs first (or validation
    is off) and "Opportunity no longer valid" otherwise. *)
Theorem execute_effective_quantity (ex : t) (v : OrderManager.Venue)
    (fresh_id : string) (opp : ArbitrageOpportunity) (quantity : option Z)
    (validate : bool) :
  1 <= max_quantity opp ->
  let qty := effective_quantity opp quantity in
  let out := execute ex v fresh_id opp quantity validate in
  let stale :=
    (validate &&
     negb (detector_validate ex opp
             (OrderbookManager.get_all_orderbooks (orderbook_manager ex))))%bool in
  (quantity = None \/ quantity = Some 0 -> qty = max_quantity opp) /\
  (forall q, quantity = Some q -> q <> 0 -> qty = Z.min q (max_quantity opp)) /\
  (forall gid g,
     OrderManager._order_groups (order_manager (snd out)) !! gid = Some g ->
     OrderManager._order_groups (order_manager ex) !! gid = Some g \/
     (gid = fresh_id /\ 0 < qty /\
      Forall (fun l => leg_quantity l = qty /\ leg_quantity l <= max_quantity opp)
        (OrderManager.group_legs g))) /\
  (forall q, quantity = Some q -> q < 0 ->
     snd out = ex /\
     success (fst out) = false /\
     order_group_id (fst out) = None /\
     error (fst out) =
       Some (Message (if stale then "Opportunity no longer valid"
                      else "No quantity available"))).
Proof.
  intros Hmax qty out stale. split; [|split; [|split]].
  - intros [->| ->]; subst qty; unfold effective_quantity; simpl; lia.
  - intros q -> Hq. subst qty. unfold effective_quantity.
    destruct (Z.eqb_spec q 0); [contradiction | reflexivity].
  - intros gid g Hg. subst out. unfold execute in Hg.
    apply execute_groups in Hg as [Hold | [Hid [Hpos Hall]]]; [left; exact Hold|].
    right. split; [exact Hid|]. split; [exact Hpos|].
    eapply Forall_impl; [exact Hall|]. simpl. intros l Hl.
    split; [exact Hl|]. rewrite Hl. apply effective_quantity_le.
  - intros q -> Hq. subst out stale. unfold execute, _execute_internal.
    destruct (validate && negb _)%bool; [repeat split; reflexivity|].
    assert (Hz : effective_quantity opp (Some q) <= 0).
    { unfold effective_quantity. destruct (Z.eqb_spec q 0); lia. }
    destruct (Z.leb_spec (effective_quantity opp (Some q)) 0); [|lia].
    repeat split; reflexivity.
Qed.

(** Asking for 60 contracts of an opportunity that offers 50: one group is
    created, with 50 contracts on every leg, and the profit is 4 * 50. *)
Example execute_caps_quantity :
  let out := execute (executor_example (books_of scenario)) filling_venue
               "group-1" scenario_opportunity (Some 60) true in
  success (fst out) = true /\ profit_cents (fst out) = 200 /\
  (OrderManager.group_legs
     <$> OrderManager._order_groups (order_manager (snd out)) !! "group-1"%string)
  = Some ((fun mb => {| leg_ticker := ticker mb.1; side := YES; action := BUY;
                        leg_price := yes_ask mb.2; leg_quantity := 50 |})
            <$> scenario).
Proof. vm_compute. repeat split; reflexivity. Qed.

Lemma execute_effective_quantity_witness :
  snd (execute (executor_example (books_of scenario)) filling_venue "group-1"
         scenario_opportunity (Some (-1)) true)
    = executor_example (books_of scenario) /\
  error (fst (execute (executor_example (books_of scenario)) filling_venue
                "group-1" scenario_opportunity (Some (-1)) true))
    = Some (Message "No quantity available").
Proof.
  assert (Hmax : 1 <= max_quantity scenario_opportunity) by (simpl; lia).
  destruct (execute_effective_quantity (executor_example (books_of scenario))
              filling_venue "group-1"%string scenario_opportunity (Some (-1))
              true Hmax) as [_ [_ [_ Hneg]]].
  destruct (Hneg (-1) eq_refl) as [Hs [_ [_ He]]]; [lia|].
  split; [exact Hs | exact He].
Defined.

End ExecutorProps.

(** * Further properties of the code *)

(** ** Stable sorting *)

Section SortProps.
Context {A : Type} (key : A -> Z).

Lemma insert_by_perm (x : A) (l : list A) :
  PySort.insert_by key x l ≡ₚ x :: l.
Proof.
  induction l as [|y r IH]; simpl; [reflexivity|].
  destruct (key x <=? key y); [reflexivity|].
  rewrite IH. apply Permutation_swap.
Qed.

Lemma sorted_by_perm (l : list A) : PySort.sorted_by key l ≡ₚ l.
Proof.
  induction l as [|x r IH]; simpl; [reflexivity|].
  rewrite insert_by_perm. now rewrite IH.
Qed.

Lemma insert_by_sorted (x : A) (l : list A) :
  StronglySorted (fun a b => key a <= key b) l ->
  StronglySorted (fun a b => key a <= key b) (PySort.insert_by key x l).
Proof.
  induction 1 as [|y r Hr IH Hy]; simpl.
  - repeat constructor.
  - destruct (key x <=? key y) eqn:E.
    + apply Z.leb_le in E. constructor; [now constructor|].
      constructor; [exact E|].
      eapply Forall_impl; [exact Hy|]. simpl. intros; lia.
    + apply Z.leb_gt in E. constructor; [exact IH|].
      rewrite insert_by_perm. constructor; [lia | exact Hy].
Qed.

Lemma sorted_by_sorted (l : list A) :
  StronglySorted (fun a b => key a <= key b) (PySort.sorted_by key l).
Proof.
  induction l as [|x r IH]; simpl; [constructor|].
  now apply insert_by_sorted.
Qed.

Lemma sorted_strict (l : list A) :
  StronglySorted (fun a b => key a <= key b) l ->
  NoDup (key <$> l) ->
  StronglySorted (fun a b => key a < key b) l.
Proof.
  induction 1 as [|y r Hr IH Hy]; intros Hnd; [constructor|].
  rewrite fmap_cons in Hnd. apply NoDup_cons in Hnd as [Hy' Hnd].
  constructor; [now apply IH|].
  apply Forall_forall. intros z Hz.
  rewrite Forall_forall in Hy. specialize (Hy z Hz).
  assert (key z <> key y).
  { intros Heq. apply Hy'. rewrite <- Heq. apply list_elem_of_fmap.
    now exists z. }
  lia.
Qed.

(** A sorted list is left as it is: the sort is stable. *)
Lemma sorted_by_fixed (l : list A) :
  StronglySorted (fun a b => key a <= key b) l -> PySort.sorted_by key l = l.
Proof.
  induction 1 as [|y r Hr IH Hy]; simpl; [reflexivity|].
  rewrite IH. destruct r as [|z r']; simpl; [reflexivity|].
  apply Forall_cons in Hy as [Hz _].
  apply Z.leb_le in Hz. now rewrite Hz.
Qed.

End SortProps.

(** ** src/data/orderbook_manager.py: deltas *)

Section LadderProps.
Import Models OrderbookUpdates.

Lemma descending_cons (l : OrderbookLevel) (rest : list OrderbookLevel) :
  descending (l :: rest) <->
  descending rest /\ Forall (fun l' => price l' < price l) rest.
Proof.
  unfold descending. split.
  - intros H. apply StronglySorted_inv in H. exact H.
  - intros [H1 H2]. now constructor.
Qed.

Lemma prices_cons (l : OrderbookLevel) (rest : list OrderbookLevel) :
  prices (l :: rest) = price l :: prices rest.
Proof. reflexivity. Qed.

Lemma descending_NoDup (levels : list OrderbookLevel) :
  descending levels -> NoDup (prices levels).
Proof.
  induction levels as [|l rest IH]; intros H; [constructor|].
  apply descending_cons in H as [Hr Hl].
  rewrite prices_cons. apply NoDup_cons. split; [|now apply IH].
  intros Hin. apply list_elem_of_fmap in Hin as (l' & Hp & Hin).
  rewrite Forall_forall in Hl. specialize (Hl l' Hin). lia.
Qed.

Lemma quantity_at_None (levels : list OrderbookLevel) (p : Z) :
  quantity_at levels p = None <-> p ∉ prices levels.
Proof.
  induction levels as [|l rest IH]; cbn [quantity_at].
  - split; [intros _; apply not_elem_of_nil | reflexivity].
  - rewrite prices_cons, not_elem_of_cons.
    destruct (price l =? p) eqn:E.
    + apply Z.eqb_eq in E. split; [discriminate | intros [H _]; congruence].
    + apply Z.eqb_neq in E. rewrite IH. intuition congruence.
Qed.

Lemma quantity_at_Some (levels : list OrderbookLevel) (p q : Z) :
  NoDup (prices levels) ->
  quantity_at levels p = Some q <-> {| price := p; quantity := q |} ∈ levels.
Proof.
  induction levels as [|l rest IH]; cbn [quantity_at]; intros Hnd.
  - split; [discriminate | intros H; now apply elem_of_nil in H].
  - rewrite prices_cons in Hnd.
    apply NoDup_cons in Hnd as [Hl Hnd].
    rewrite elem_of_cons.
    destruct (price l =? p) eqn:E.
    + apply Z.eqb_eq in E. split.
      * intros [= <-]. left. destruct l; simpl in *; congruence.
      * intros [<-|Hin]; [reflexivity|].
        exfalso. apply Hl. apply list_elem_of_fmap.
        eexists; split; [|exact Hin]. simpl. congruence.
    + apply Z.eqb_neq in E. rewrite (IH Hnd). split; [now right|].
      intros [<-|Hin]; [simpl in E; congruence | exact Hin].
Qed.

Lemma quantity_at_perm (l1 l2 : list OrderbookLevel) (p : Z) :
  NoDup (prices l1) -> l1 ≡ₚ l2 -> quantity_at l1 p = quantity_at l2 p.
Proof.
  intros Hnd Hp.
  assert (Hnd2 : NoDup (prices l2)) by (unfold prices in *; now rewrite <- Hp).
  destruct (quantity_at l1 p) as [q|] eqn:E1.
  - apply quantity_at_Some in E1; [|exact Hnd].
    symmetry. apply quantity_at_Some; [exact Hnd2|]. now rewrite <- Hp.
  - apply quantity_at_None in E1.
    symmetry. apply quantity_at_None. unfold prices in *. now rewrite <- Hp.
Qed.

Lemma quantity_at_app (l1 l2 : list OrderbookLevel) (p : Z) :
  quantity_at (l1 ++ l2) p =
  match quantity_at l1 p with
  | Some q => Some q
  | None => quantity_at l2 p
  end.
Proof.
  induction l1 as [|l rest IH]; simpl; [reflexivity|].
  destruct (price l =? p); [reflexivity | exact IH].
Qed.

Lemma new_OrderbookLevel_Return (p q : Z) (l : OrderbookLevel) :
  new_OrderbookLevel p q = Py.Return l <->
  l = {| price := p; quantity := q |} /\ 1 <= p <= 99 /\ 0 <= q.
Proof.
  unfold new_OrderbookLevel.
  destruct (1 <=? p) eqn:E1; destruct (p <=? 99) eqn:E2;
    destruct (0 <=? q) eqn:E3; simpl;
    try apply Z.leb_le in E1; try apply Z.leb_gt in E1;
    try apply Z.leb_le in E2; try apply Z.leb_gt in E2;
    try apply Z.leb_le in E3; try apply Z.leb_gt in E3;
    (split; [intros [= <-] | intros (-> & ? & ?)]);
    try lia; try discriminate; auto.
Qed.

Lemma new_OrderbookLevel_Raise (p q : Z) :
  (exists e, new_OrderbookLevel p q = Py.Raise e) <->
  ~ (1 <= p <= 99) \/ q < 0.
Proof.
  unfold new_OrderbookLevel.
  destruct (1 <=? p) eqn:E1; destruct (p <=? 99) eqn:E2;
    destruct (0 <=? q) eqn:E3; simpl;
    try apply Z.leb_le in E1; try apply Z.leb_gt in E1;
    try apply Z.leb_le in E2; try apply Z.leb_gt in E2;
    try apply Z.leb_le in E3; try apply Z.leb_gt in E3;
    (split; [intros [e He] | intros H]);
    try discriminate; try lia; eauto.
Qed.

Lemma update_existing_None (levels : list OrderbookLevel) (p q : Z) :
  update_existing levels p q = None <-> p ∉ prices levels.
Proof.
  induction levels as [|l rest IH]; cbn [update_existing].
  - split; [intros _; apply not_elem_of_nil | reflexivity].
  - rewrite prices_cons, not_elem_of_cons.
    destruct (price l =? p) eqn:E.
    + apply Z.eqb_eq in E. split; [discriminate | intros [H _]; congruence].
    + apply Z.eqb_neq in E.
      destruct (update_existing rest p q) eqn:Er.
      * split; [discriminate|]. intros [_ H]. apply IH in H. discriminate.
      * split; [|reflexivity]. intros _. split; [congruence|]. now apply IH.
Qed.

(** What the loop does to a ladder when it finds the price. *)
Lemma update_existing_found (levels levels' : list OrderbookLevel) (p q : Z) :
  descending levels ->
  update_existing levels p q = Some (Py.Return levels') ->
  descending levels' /\
  (forall l, l ∈ levels' -> price l ∈ prices levels) /\
  (forall l, l ∈ levels' -> l ∈ levels \/ l = {| price := p; quantity := q |}
                                          /\ 1 <= p <= 99 /\ 0 < q) /\
  (forall p', quantity_at levels' p' =
              if p' =? p then (if 0 <? q then Some q else None)
              else quantity_at levels p').
Proof.
  revert levels'.
  induction levels as [|l rest IH]; cbn [update_existing]; intros levels' Hd H;
    [discriminate|].
  apply descending_cons in Hd as [Hr Hl].
  destruct (price l =? p) eqn:E.
  - apply Z.eqb_eq in E.
    assert (Hnot : p ∉ prices rest).
    { intros Hin. apply list_elem_of_fmap in Hin as (l' & Hp & Hin).
      rewrite Forall_forall in Hl. specialize (Hl l' Hin). lia. }
    destruct (q =? 0) eqn:Eq.
    + apply Z.eqb_eq in Eq. injection H as <-.
      split; [exact Hr|]. split; [|split].
      * intros l' Hin. rewrite prices_cons. apply elem_of_cons. right.
        apply list_elem_of_fmap. now exists l'.
      * intros l' Hin. left. apply elem_of_cons. now right.
      * intros p'. subst q. simpl.
        destruct (p' =? p) eqn:E'.
        -- apply Z.eqb_eq in E'. subst p'. now apply quantity_at_None.
        -- apply Z.eqb_neq in E'.
           destruct (price l =? p') eqn:E''; [apply Z.eqb_eq in E''; lia|].
           reflexivity.
    + apply Z.eqb_neq in Eq.
      destruct (new_OrderbookLevel p q) as [l0|e] eqn:En; simpl in H;
        [|discriminate].
      apply new_OrderbookLevel_Return in En as (-> & Hp & Hq).
      injection H as <-.
      split; [|split; [|split]].
      * apply descending_cons. split; [exact Hr|]. simpl.
        eapply Forall_impl; [exact Hl|]. simpl. intros; lia.
      * intros l' Hin. rewrite prices_cons. apply elem_of_cons.
        apply elem_of_cons in Hin as [->|Hin]; [left; simpl; congruence|].
        right. apply list_elem_of_fmap. now exists l'.
      * intros l' Hin.
        apply elem_of_cons in Hin as [->|Hin]; [right; repeat split; lia|].
        left. apply elem_of_cons. now right.
      * intros p'. simpl. rewrite E.
        replace (0 <? q) with true by (symmetry; apply Z.ltb_lt; lia).
        destruct (p' =? p) eqn:E'.
        -- apply Z.eqb_eq in E'. subst p'. now rewrite Z.eqb_refl.
        -- apply Z.eqb_neq in E'.
           destruct (p =? p') eqn:E''; [apply Z.eqb_eq in E''; lia|].
           reflexivity.
  - apply Z.eqb_neq in E.
    destruct (update_existing rest p q) as [[ls|e]|] eqn:Er; simpl in H;
      try discriminate.
    injection H as <-.
    destruct (IH ls Hr eq_refl) as (Hd' & Hsub & Hmem & Hq).
    split; [|split; [|split]].
    + apply descending_cons. split; [exact Hd'|].
      apply Forall_forall. intros l' Hin.
      apply Hsub in Hin. apply list_elem_of_fmap in Hin as (l'' & -> & Hin).
      rewrite Forall_forall in Hl. now apply Hl.
    + intros l' Hin. rewrite prices_cons. apply elem_of_cons.
      apply elem_of_cons in Hin as [->|Hin]; [now left|].
      right. now apply Hsub.
    + intros l' Hin.
      apply elem_of_cons in Hin as [->|Hin];
        [left; apply elem_of_cons; now left|].
      destruct (Hmem l' Hin) as [H|H];
        [left; apply elem_of_cons; now right | now right].
    + intros p'. simpl. rewrite Hq.
      destruct (price l =? p') eqn:E'; [|reflexivity].
      apply Z.eqb_eq in E'.
      destruct (p' =? p) eqn:E''; [apply Z.eqb_eq in E''; lia | reflexivity].
Qed.

Lemma update_levels_absent (levels : list OrderbookLevel) (p q : Z) :
  p ∉ prices levels ->
  _update_levels levels p q =
  if 0 <? q then
    l ← new_OrderbookLevel p q;
    Py.Return (PySort.sorted_by_desc price (levels ++ [l]))
  else Py.Return levels.
Proof.
  intros H. unfold _update_levels.
  now rewrite (proj2 (update_existing_None levels p q) H).
Qed.

Lemma update_levels_present (levels : list OrderbookLevel) (p q : Z) :
  p ∈ prices levels ->
  exists r, update_existing levels p q = Some r /\ _update_levels levels p q = r.
Proof.
  intros H. unfold _update_levels.
  destruct (update_existing levels p q) as [r|] eqn:E; [now exists r|].
  apply update_existing_None in E. contradiction.
Qed.

Lemma descending_as_sorted (levels : list OrderbookLevel) :
  descending levels <->
  StronglySorted (fun a b => - price a < - price b) levels.
Proof.
  unfold descending. split; intros H; induction H; constructor; auto;
    (eapply Forall_impl; [eassumption|]); simpl; intros; lia.
Qed.

Lemma sorted_ladder (levels : list OrderbookLevel) :
  NoDup (prices levels) ->
  descending (PySort.sorted_by_desc price levels).
Proof.
  intros Hnd. apply descending_as_sorted.
  unfold PySort.sorted_by_desc.
  apply (sorted_strict (fun x => - price x)).
  - apply sorted_by_sorted.
  - rewrite sorted_by_perm.
    unfold prices in Hnd.
    replace ((fun x => - price x) <$> levels) with (Z.opp <$> (price <$> levels))
      by (rewrite <- list_fmap_compose; reflexivity).
    apply NoDup_fmap_2; [|exact Hnd]. intros a b; lia.
Qed.

Lemma update_levels_spec (levels levels' : list OrderbookLevel) (p q : Z) :
  descending levels ->
  _update_levels levels p q = Py.Return levels' ->
  descending levels' /\
  (forall l, l ∈ levels' -> l ∈ levels \/ l = {| price := p; quantity := q |}
                                          /\ 1 <= p <= 99 /\ 0 < q) /\
  (forall p', quantity_at levels' p' =
              if p' =? p then (if 0 <? q then Some q else None)
              else quantity_at levels p').
Proof.
  intros Hd H.
  destruct (decide (p ∈ prices levels)) as [Hin|Hout].
  - destruct (update_levels_present levels p q Hin) as (r & Hr & Hu).
    rewrite Hu in H. subst r.
    destruct (update_existing_found levels levels' p q Hd Hr) as (? & ? & ? & ?).
    auto.
  - rewrite (update_levels_absent levels p q Hout) in H.
    destruct (0 <? q) eqn:Eq.
    + apply Z.ltb_lt in Eq.
      destruct (new_OrderbookLevel p q) as [l0|e] eqn:En; simpl in H;
        [|discriminate].
      apply new_OrderbookLevel_Return in En as (-> & Hp & Hq).
      injection H as <-.
      set (l0 := {| price := p; quantity := q |}).
      assert (Hnd : NoDup (prices (levels ++ [l0]))).
      { unfold prices. rewrite fmap_app. apply NoDup_app. split; [|split].
        - now apply descending_NoDup.
        - intros x Hx Hx'. simpl in Hx'. apply list_elem_of_singleton in Hx'.
          subst x. contradiction.
        - simpl. apply NoDup_singleton. }
      split; [now apply sorted_ladder|]. split.
      * intros l Hl. unfold PySort.sorted_by_desc in Hl.
        rewrite sorted_by_perm in Hl.
        apply elem_of_app in Hl as [Hl|Hl]; [now left|].
        apply list_elem_of_singleton in Hl. right. repeat split; auto; lia.
      * intros p'.
        rewrite <- (quantity_at_perm (levels ++ [l0])); [|exact Hnd|].
        2:{ unfold PySort.sorted_by_desc. now rewrite sorted_by_perm. }
        rewrite quantity_at_app. simpl.
        destruct (p' =? p) eqn:E'.
        -- apply Z.eqb_eq in E'. subst p'.
           rewrite (proj2 (quantity_at_None levels p) Hout).
           now rewrite Z.eqb_refl.
        -- apply Z.eqb_neq in E'.
           destruct (p =? p') eqn:E''; [apply Z.eqb_eq in E''; lia|].
           now destruct (quantity_at levels p').
    + apply Z.ltb_ge in Eq. injection H as <-.
      split; [exact Hd|]. split; [now left|].
      intros p'. destruct (p' =? p) eqn:E'; [|reflexivity].
      apply Z.eqb_eq in E'. subst p'. now apply quantity_at_None.
Qed.

End LadderProps.

Section OrderbookUpdateProps.
Import Models OrderbookUpdates.

Lemma update_existing_raise (levels : list OrderbookLevel) (p q : Z) (e : Py.exn) :
  update_existing levels p q = Some (Py.Raise e) <->
  p ∈ prices levels /\ q <> 0 /\ new_OrderbookLevel p q = Py.Raise e.
Proof.
  induction levels as [|l rest IH]; cbn [update_existing].
  - split; [discriminate|]. intros [H _]. now apply elem_of_nil in H.
  - rewrite prices_cons, elem_of_cons.
    destruct (price l =? p) eqn:E.
    + apply Z.eqb_eq in E. destruct (q =? 0) eqn:Eq.
      * apply Z.eqb_eq in Eq. split; [discriminate | intros (_ & ? & _); lia].
      * apply Z.eqb_neq in Eq.
        destruct (new_OrderbookLevel p q) as [l0|e0]; simpl.
        -- split; [discriminate | intros (_ & _ & ?); discriminate].
        -- split; [intros [= ->]; auto | intros (_ & _ & [= ->]); reflexivity].
    + apply Z.eqb_neq in E.
      destruct (update_existing rest p q) as [[ls|e0]|] eqn:Er; simpl.
      * split; [discriminate|]. intros ([?|Hin] & Hq & Hn); [congruence|].
        assert (H' : Some (Py.Return ls) = Some (Py.Raise e))
          by (apply IH; auto).
        discriminate.
      * split.
        -- intros [= ->]. destruct (proj1 IH eq_refl) as (? & ? & ?). auto.
        -- intros ([?|Hin] & Hq & Hn); [congruence|].
           assert (H' : Some (Py.Raise e0) = Some (Py.Raise e))
             by (apply IH; auto).
           congruence.
      * split; [discriminate|]. intros ([?|Hin] & Hq & Hn); [congruence|].
        assert (H' : @None (Py.outcome (list OrderbookLevel)) = Some (Py.Raise e))
          by (apply IH; auto).
        discriminate.
Qed.

Lemma update_levels_raise (levels : list OrderbookLevel) (p q : Z) (e : Py.exn) :
  _update_levels levels p q = Py.Raise e <->
  (if bool_decide (p ∈ prices levels) then q <> 0 else 0 < q) /\
  new_OrderbookLevel p q = Py.Raise e.
Proof.
  destruct (decide (p ∈ prices levels)) as [Hin|Hout].
  - rewrite (bool_decide_eq_true_2 _ Hin).
    destruct (update_levels_present levels p q Hin) as (r & Hr & ->).
    destruct r as [ls|e0].
    + split; [discriminate|]. intros [Hq Hn].
      assert (H' : Some (Py.Return ls) = Some (Py.Raise e))
        by (rewrite <- Hr; apply update_existing_raise; auto).
      discriminate.
    + apply update_existing_raise in Hr as (_ & Hq & Hn).
      split; [intros [= <-]; auto | intros [_ H]; congruence].
  - rewrite (bool_decide_eq_false_2 _ Hout).
    rewrite (update_levels_absent levels p q Hout).
    destruct (0 <? q) eqn:Eq.
    + apply Z.ltb_lt in Eq.
      destruct (new_OrderbookLevel p q) as [l0|e0]; simpl.
      * split; [discriminate | intros [_ ?]; discriminate].
      * split; [intros [= ->]; auto | intros [_ [= ->]]; reflexivity].
    + apply Z.ltb_ge in Eq. split; [discriminate | intros [? _]; lia].
Qed.

Lemma prices_in_range (levels : list OrderbookLevel) (p : Z) :
  Forall (fun l => level_ok l = true) levels ->
  p ∈ prices levels -> 1 <= p <= 99.
Proof.
  intros Hok Hin. apply list_elem_of_fmap in Hin as (l & -> & Hin).
  rewrite Forall_forall in Hok. specialize (Hok l Hin).
  unfold level_ok in Hok. lia.
Qed.

Lemma quantity_at_prices (levels : list OrderbookLevel) (p : Z) :
  p ∈ prices levels <-> quantity_at levels p <> None.
Proof.
  pose proof (quantity_at_None levels p) as H.
  destruct (decide (p ∈ prices levels)); split; intros; tauto.
Qed.

(** A ladder is determined by the quantity it holds at every price. *)
Lemma ladder_ext (l1 l2 : list OrderbookLevel) :
  descending l1 -> descending l2 ->
  (forall p, quantity_at l1 p = quantity_at l2 p) -> l1 = l2.
Proof.
  revert l2. induction l1 as [|a r1 IH]; intros l2 H1 H2 Hq.
  - destruct l2 as [|b r2]; [reflexivity|].
    specialize (Hq (price b)). simpl in Hq. rewrite Z.eqb_refl in Hq.
    discriminate.
  - destruct l2 as [|b r2].
    + specialize (Hq (price a)). simpl in Hq. rewrite Z.eqb_refl in Hq.
      discriminate.
    + apply descending_cons in H1 as [Hr1 Ha].
      apply descending_cons in H2 as [Hr2 Hb].
      assert (Hbelow : forall (x : OrderbookLevel) r p,
                 Forall (fun l' => price l' < price x) r -> price x <= p ->
                 quantity_at r p = None).
      { intros x r p Hx Hp. apply quantity_at_None. intros Hin.
        apply list_elem_of_fmap in Hin as (l' & -> & Hin).
        rewrite Forall_forall in Hx. specialize (Hx l' Hin). lia. }
      assert (Hpr : price a = price b).
      { destruct (Z.lt_trichotomy (price a) (price b)) as [Hlt|[Heq|Hgt]];
          [|exact Heq|].
        - pose proof (Hq (price b)) as Hqb. simpl in Hqb.
          rewrite Z.eqb_refl in Hqb.
          destruct (price a =? price b) eqn:E; [apply Z.eqb_eq in E; lia|].
          rewrite (Hbelow a r1 (price b) Ha) in Hqb by lia. discriminate.
        - pose proof (Hq (price a)) as Hqa. simpl in Hqa.
          rewrite Z.eqb_refl in Hqa.
          destruct (price b =? price a) eqn:E; [apply Z.eqb_eq in E; lia|].
          rewrite (Hbelow b r2 (price a) Hb) in Hqa by lia. discriminate. }
      assert (Hqty : quantity a = quantity b).
      { pose proof (Hq (price a)) as Hqa. simpl in Hqa.
        rewrite Z.eqb_refl in Hqa. rewrite <- Hpr, Z.eqb_refl in Hqa.
        congruence. }
      f_equal; [destruct a, b; simpl in *; congruence|].
      apply IH; auto. intros p.
      destruct (decide (price a = p)) as [<-|Hne].
      * rewrite (Hbelow a r1 (price a) Ha) by lia.
        rewrite Hpr. rewrite (Hbelow b r2 (price b) Hb) by lia. reflexivity.
      * specialize (Hq p). simpl in Hq. rewrite <- Hpr in Hq.
        destruct (price a =? p) eqn:E; [apply Z.eqb_eq in E; contradiction|].
        exact Hq.
Qed.

(** X1: [_update_levels] keeps a book side a ladder of valid levels. *)
Theorem update_levels_keeps_ladder (levels levels' : list OrderbookLevel) (p q : Z) :
  side_ok levels ->
  _update_levels levels p q = Py.Return levels' ->
  side_ok levels'.
Proof.
  intros [Hd Hok] H.
  destruct (update_levels_spec levels levels' p q Hd H) as (Hd' & Hmem & _).
  split; [exact Hd'|].
  apply Forall_forall. intros l Hl.
  destruct (Hmem l Hl) as [Hin|(-> & Hp & Hq)].
  - rewrite Forall_forall in Hok. now apply Hok.
  - unfold level_ok. simpl. lia.
Qed.

Lemma three_levels_ok : side_ok three_levels.
Proof.
  split.
  - unfold descending, three_levels.
    repeat (constructor; simpl; try lia).
  - unfold three_levels. repeat constructor.
Qed.

Lemma update_levels_keeps_ladder_witness :
  side_ok three_levels /\
  _update_levels three_levels 58 3 =
    Py.Return [ {| price := 60; quantity := 10 |};
                {| price := 58; quantity := 3 |};
                {| price := 55; quantity := 4 |};
                {| price := 40; quantity := 25 |} ] /\
  side_ok [ {| price := 60; quantity := 10 |};
            {| price := 58; quantity := 3 |};
            {| price := 55; quantity := 4 |};
            {| price := 40; quantity := 25 |} ].
Proof.
  split; [exact three_levels_ok|]. split; [reflexivity|].
  apply (update_levels_keeps_ladder three_levels _ 58 3);
    [exact three_levels_ok | reflexivity].
Defined.

(** X2: after a delta that returns, the price of the delta holds the new
    quantity (no level at all for a quantity that is not positive) and every
    other price holds what it held. *)
Theorem update_levels_quantity_at (levels levels' : list OrderbookLevel)
    (p q p' : Z) :
  descending levels ->
  _update_levels levels p q = Py.Return levels' ->
  quantity_at levels' p' =
  if p' =? p then (if 0 <? q then Some q else None) else quantity_at levels p'.
Proof.
  intros Hd H.
  destruct (update_levels_spec levels levels' p q Hd H) as (_ & _ & Hq).
  apply Hq.
Qed.

Lemma update_levels_quantity_at_witness :
  descending three_levels /\
  _update_levels three_levels 55 0 =
    Py.Return [ {| price := 60; quantity := 10 |};
                {| price := 40; quantity := 25 |} ] /\
  quantity_at [ {| price := 60; quantity := 10 |};
                {| price := 40; quantity := 25 |} ] 55 = None.
Proof.
  split; [exact (proj1 three_levels_ok)|]. split; [reflexivity|].
  apply (update_levels_quantity_at three_levels _ 55 0 55);
    [exact (proj1 three_levels_ok) | reflexivity].
Defined.

(** X3: on a side of valid levels a delta raises exactly when it carries a
    negative quantity for a price that has a level, or a positive quantity
    for a price outside 1..99; a negative quantity for a price without a
    level is dropped silently. *)
Theorem update_levels_raises_iff (levels : list OrderbookLevel) (p q : Z) :
  Forall (fun l => level_ok l = true) levels ->
  (exists e, _update_levels levels p q = Py.Raise e) <->
  (p ∈ prices levels /\ q < 0) \/ (0 < q /\ ~ (1 <= p <= 99)).
Proof.
  intros Hok. split.
  - intros [e He]. apply update_levels_raise in He as [Hc Hn].
    assert (Hr : ~ (1 <= p <= 99) \/ q < 0)
      by (apply new_OrderbookLevel_Raise; eauto).
    destruct (decide (p ∈ prices levels)) as [Hin|Hout].
    + rewrite (bool_decide_eq_true_2 _ Hin) in Hc.
      pose proof (prices_in_range levels p Hok Hin). left. split; [exact Hin|lia].
    + rewrite (bool_decide_eq_false_2 _ Hout) in Hc. right. split; [exact Hc|lia].
  - intros [[Hin Hq]|[Hq Hp]].
    + assert (Hr : exists e, new_OrderbookLevel p q = Py.Raise e)
        by (apply new_OrderbookLevel_Raise; lia).
      destruct Hr as [e He]. exists e. apply update_levels_raise.
      rewrite (bool_decide_eq_true_2 _ Hin). split; [lia | exact He].
    + assert (Hr : exists e, new_OrderbookLevel p q = Py.Raise e)
        by (apply new_OrderbookLevel_Raise; lia).
      destruct Hr as [e He]. exists e. apply update_levels_raise.
      assert (Hout : p ∉ prices levels).
      { intros Hin. apply Hp. exact (prices_in_range levels p Hok Hin). }
      rewrite (bool_decide_eq_false_2 _ Hout). split; [lia | exact He].
Qed.

Lemma update_levels_raises_iff_witness :
  (exists e, _update_levels three_levels 55 (-1) = Py.Raise e) /\
  _update_levels three_levels 54 (-1) = Py.Return three_levels.
Proof.
  split; [|reflexivity].
  apply (update_levels_raises_iff three_levels 55 (-1)).
  - exact (proj2 three_levels_ok).
  - left. split; [|lia]. unfold prices, three_levels. simpl.
    apply elem_of_cons. right. apply elem_of_cons. now left.
Defined.

Lemma update_levels_returns (levels : list OrderbookLevel) (p q : Z) :
  (if bool_decide (p ∈ prices levels) then q <> 0 else 0 < q) ->
  (exists l, _update_levels levels p q = Py.Return l) ->
  exists l0, new_OrderbookLevel p q = Py.Return l0.
Proof.
  intros Hc [l Hl].
  destruct (new_OrderbookLevel p q) as [l0|e] eqn:En; [eauto|].
  assert (H : _update_levels levels p q = Py.Raise e)
    by (apply update_levels_raise; auto).
  congruence.
Qed.

(** X4: deltas at two different prices commute: when one order of applying
    them returns, so does the other, with the same ladder. *)
Theorem update_levels_commute (levels a ab : list OrderbookLevel)
    (p1 q1 p2 q2 : Z) :
  descending levels ->
  p1 <> p2 ->
  _update_levels levels p1 q1 = Py.Return a ->
  _update_levels a p2 q2 = Py.Return ab ->
  exists b, _update_levels levels p2 q2 = Py.Return b /\
            _update_levels b p1 q1 = Py.Return ab.
Proof.
  intros Hd Hne Ha Hab.
  destruct (update_levels_spec levels a p1 q1 Hd Ha) as (Hda & _ & Hqa).
  destruct (update_levels_spec a ab p2 q2 Hda Hab) as (Hdab & _ & Hqab).
  assert (Hmem2 : p2 ∈ prices a <-> p2 ∈ prices levels).
  { rewrite !quantity_at_prices, Hqa.
    destruct (p2 =? p1) eqn:E; [apply Z.eqb_eq in E; congruence | reflexivity]. }
  destruct (_update_levels levels p2 q2) as [b|e] eqn:Hb.
  2:{ apply update_levels_raise in Hb as [Hc Hn].
      assert (H : _update_levels a p2 q2 = Py.Raise e).
      { apply update_levels_raise. split; [|exact Hn].
        destruct (decide (p2 ∈ prices levels)) as [Hin|Hout].
        - rewrite (bool_decide_eq_true_2 _ Hin) in Hc.
          rewrite (bool_decide_eq_true_2 _ (proj2 Hmem2 Hin)). exact Hc.
        - rewrite (bool_decide_eq_false_2 _ Hout) in Hc.
          rewrite bool_decide_eq_false_2; [exact Hc|]. tauto. }
      congruence. }
  exists b. split; [reflexivity|].
  destruct (update_levels_spec levels b p2 q2 Hd Hb) as (Hdb & _ & Hqb).
  assert (Hmem1 : p1 ∈ prices b <-> p1 ∈ prices levels).
  { rewrite !quantity_at_prices, Hqb.
    destruct (p1 =? p2) eqn:E; [apply Z.eqb_eq in E; congruence | reflexivity]. }
  destruct (_update_levels b p1 q1) as [ba|e] eqn:Hba.
  2:{ apply update_levels_raise in Hba as [Hc Hn].
      assert (H : _update_levels levels p1 q1 = Py.Raise e).
      { apply update_levels_raise. split; [|exact Hn].
        destruct (decide (p1 ∈ prices levels)) as [Hin|Hout].
        - rewrite (bool_decide_eq_true_2 _ Hin).
          rewrite (bool_decide_eq_true_2 _ (proj2 Hmem1 Hin)) in Hc. exact Hc.
        - rewrite (bool_decide_eq_false_2 _ Hout).
          rewrite bool_decide_eq_false_2 in Hc; [exact Hc|]. tauto. }
      congruence. }
  f_equal.
  destruct (update_levels_spec b ba p1 q1 Hdb Hba) as (Hdba & _ & Hqba).
  apply ladder_ext; auto. intros p.
  rewrite Hqba, Hqab, Hqa, Hqb.
  destruct (p =? p1) eqn:E1; destruct (p =? p2) eqn:E2; try reflexivity.
  apply Z.eqb_eq in E1, E2. congruence.
Qed.

Lemma update_levels_commute_witness :
  exists b, _update_levels three_levels 55 0 = Py.Return b /\
            _update_levels b 70 5 =
              Py.Return [ {| price := 70; quantity := 5 |};
                          {| price := 60; quantity := 10 |};
                          {| price := 40; quantity := 25 |} ].
Proof.
  apply (update_levels_commute three_levels
           [ {| price := 70; quantity := 5 |};
             {| price := 60; quantity := 10 |};
             {| price := 55; quantity := 4 |};
             {| price := 40; quantity := 25 |} ] _ 70 5 55 0).
  - exact (proj1 three_levels_ok).
  - lia.
  - reflexivity.
  - reflexivity.
Defined.

End OrderbookUpdateProps.

Section ApplyDeltaProps.
Import Models OrderbookUpdates.

(** X5: a delta touches one side of one book: the tracked tickers and every
    other book stay as they are, a delta for an unknown ticker changes
    nothing and notifies nobody, and on a known ticker the subscribers get
    the stored book, in which only the side of the delta and the timestamp
    can differ. *)
Theorem apply_delta_frame (m m' : OrderbookManager.t) (tk : string)
    (s : OrderSide) (p q now : Z) (n : option (string * Orderbook)) :
  apply_delta m tk s p q now = Py.Return (m', n) ->
  tracked_tickers m' = tracked_tickers m /\
  (forall tk', tk' <> tk ->
     OrderbookManager.get_orderbook m' tk' = OrderbookManager.get_orderbook m tk') /\
  match OrderbookManager.get_orderbook m tk with
  | None => m' = m /\ n = None
  | Some ob =>
      exists ob', OrderbookManager.get_orderbook m' tk = Some ob' /\
                  n = Some (tk, ob') /\
                  ob_ticker ob' = ob_ticker ob /\ timestamp ob' = now /\
                  match s with
                  | YES => no_bids ob' = no_bids ob
                  | NO => yes_bids ob' = yes_bids ob
                  end
  end.
Proof.
  unfold apply_delta, OrderbookManager.get_orderbook, tracked_tickers.
  destruct (OrderbookManager._orderbooks m !! tk) as [ob|] eqn:E.
  - intros H.
    assert (Hob : exists ob',
               m' = {| OrderbookManager._orderbooks :=
                         <[tk := ob']> (OrderbookManager._orderbooks m) |} /\
               n = Some (tk, ob') /\
               ob_ticker ob' = ob_ticker ob /\ timestamp ob' = now /\
               match s with
               | YES => no_bids ob' = no_bids ob
               | NO => yes_bids ob' = yes_bids ob
               end).
    { destruct s.
      - destruct (_update_levels (yes_bids ob) p q) as [ls|e]; simpl in H;
          [|discriminate].
        injection H as <- <-. eexists. repeat split.
      - destruct (_update_levels (no_bids ob) p q) as [ls|e]; simpl in H;
          [|discriminate].
        injection H as <- <-. eexists. repeat split. }
    destruct Hob as (ob' & -> & -> & Ht & Hn & Hs). simpl.
    split; [|split].
    + apply dom_insert_lookup_L. eauto.
    + intros tk' Hne. now rewrite lookup_insert_ne.
    + exists ob'. rewrite lookup_insert_eq. auto.
  - intros [= <- <-]. auto.
Qed.

Lemma apply_delta_frame_witness :
  tracked_tickers
    {| OrderbookManager._orderbooks :=
         <[ "KXA"%string :=
              {| ob_ticker := "KXA"; yes_bids := three_levels;
                 no_bids := [ {| price := 38; quantity := 9 |};
                              {| price := 30; quantity := 2 |} ];
                 timestamp := 5 |} ]>
           (OrderbookManager._orderbooks one_book_manager) |}
  = tracked_tickers one_book_manager.
Proof.
  refine (proj1 (apply_delta_frame one_book_manager _ "KXA" NO 38 9 5 _ _)).
  reflexivity.
Defined.

Lemma max_price_ladder (l0 : OrderbookLevel) (ls : list OrderbookLevel) :
  Forall (fun l' => price l' < price l0) ls -> max_price l0 ls = price l0.
Proof.
  unfold max_price. induction 1 as [|l r Hl Hr IH]; simpl; [reflexivity|].
  rewrite Z.max_l by lia. exact IH.
Qed.

Lemma filter_below_best (l0 : OrderbookLevel) (ls : list OrderbookLevel) :
  Forall (fun l' => price l' < price l0) ls ->
  filter (fun l => Some (price l) = Some (price l0)) ls = [].
Proof.
  induction 1 as [|l r Hlt Hr IH]; [reflexivity|].
  rewrite filter_cons_False; [exact IH|]. intros [= H]. lia.
Qed.

(** X6: on a strictly descending side the implied YES ask is read off the
    first NO level: the ask is 100 minus its price and the quantity at the
    ask is its quantity. *)
Theorem best_yes_ask_of_ladder (ob : Orderbook) (l0 : OrderbookLevel)
    (ls : list OrderbookLevel) :
  descending (no_bids ob) ->
  no_bids ob = l0 :: ls ->
  best_yes_ask ob = Some (100 - price l0) /\ yes_ask_quantity ob = quantity l0.
Proof.
  intros Hd Hn. unfold best_yes_ask, yes_ask_quantity, best_no_bid.
  rewrite Hn in *. apply descending_cons in Hd as [_ Hl].
  rewrite (max_price_ladder l0 ls Hl). split; [reflexivity|].
  rewrite filter_cons_True by reflexivity.
  rewrite (filter_below_best l0 ls Hl). simpl. unfold sum_Z. simpl. lia.
Qed.

Lemma best_yes_ask_of_ladder_witness :
  best_yes_ask two_sided_book = Some (100 - 38) /\
  yes_ask_quantity two_sided_book = 7.
Proof.
  apply (best_yes_ask_of_ladder two_sided_book {| price := 38; quantity := 7 |}
           [ {| price := 30; quantity := 2 |} ]).
  - unfold descending. simpl. repeat (constructor; simpl; try lia).
  - reflexivity.
Defined.

(** X7: a NO bid above every NO bid of a tracked book becomes the implied YES
    ask: the delta returns, and the stored book then asks 100 minus the new
    price for exactly the new quantity. *)
Theorem apply_delta_new_best_ask (m : OrderbookManager.t) (tk : string)
    (ob : Orderbook) (p q now : Z) :
  OrderbookManager.get_orderbook m tk = Some ob ->
  descending (no_bids ob) ->
  Forall (fun l => price l < p) (no_bids ob) ->
  1 <= p <= 99 -> 0 < q ->
  exists m' ob',
    apply_delta m tk NO p q now = Py.Return (m', Some (tk, ob')) /\
    OrderbookManager.get_orderbook m' tk = Some ob' /\
    best_yes_ask ob' = Some (100 - p) /\ yes_ask_quantity ob' = q.
Proof.
  unfold OrderbookManager.get_orderbook. intros Hob Hd Hbelow Hp Hq.
  assert (Hout : p ∉ prices (no_bids ob)).
  { intros Hin. apply list_elem_of_fmap in Hin as (l & -> & Hin).
    rewrite Forall_forall in Hbelow. specialize (Hbelow l Hin). lia. }
  pose proof (update_levels_absent (no_bids ob) p q Hout) as Hu.
  replace (0 <? q) with true in Hu by (symmetry; apply Z.ltb_lt; lia).
  assert (Hnew : new_OrderbookLevel p q = Py.Return {| price := p; quantity := q |})
    by (apply new_OrderbookLevel_Return; repeat split; lia).
  rewrite Hnew in Hu. simpl in Hu.
  set (levels' := PySort.sorted_by_desc price
                    (no_bids ob ++ [ {| price := p; quantity := q |} ])) in *.
  destruct (update_levels_spec _ _ _ _ Hd Hu) as (Hd' & Hmem & Hqat).
  unfold apply_delta. rewrite Hob, Hu. simpl.
  eexists. eexists. split; [reflexivity|].
  split; [apply lookup_insert_eq|].
  destruct levels' as [|l0 ls] eqn:El.
  { specialize (Hqat p). rewrite Z.eqb_refl in Hqat. simpl in Hqat.
    replace (0 <? q) with true in Hqat by (symmetry; apply Z.ltb_lt; lia).
    discriminate. }
  assert (Hl0 : l0 = {| price := p; quantity := q |}).
  { pose proof Hd' as Hd''. apply descending_cons in Hd'' as [_ Hls].
    assert (Hin : {| price := p; quantity := q |} ∈ l0 :: ls).
    { apply quantity_at_Some; [now apply descending_NoDup|].
      rewrite Hqat, Z.eqb_refl.
      now replace (0 <? q) with true by (symmetry; apply Z.ltb_lt; lia). }
    apply elem_of_cons in Hin as [Heq|Hin]; [now symmetry|].
    exfalso. rewrite Forall_forall in Hls. specialize (Hls _ Hin). simpl in Hls.
    destruct (Hmem l0) as [Hold|(-> & _)]; [apply elem_of_cons; now left| |].
    - rewrite Forall_forall in Hbelow. specialize (Hbelow l0 Hold). lia.
    - simpl in Hls. lia. }
  subst l0. apply descending_cons in Hd' as [_ Hls].
  unfold best_yes_ask, yes_ask_quantity, best_no_bid. cbn [no_bids].
  rewrite (max_price_ladder _ ls Hls). split; [reflexivity|].
  rewrite filter_cons_True by reflexivity.
  rewrite (filter_below_best _ ls Hls). simpl. unfold sum_Z. simpl. lia.
Qed.

Lemma apply_delta_new_best_ask_witness :
  exists m' ob',
    apply_delta one_book_manager "KXA" NO 45 12 9 = Py.Return (m', Some ("KXA"%string, ob')) /\
    OrderbookManager.get_orderbook m' "KXA" = Some ob' /\
    best_yes_ask ob' = Some (100 - 45) /\ yes_ask_quantity ob' = 12.
Proof.
  apply (apply_delta_new_best_ask one_book_manager "KXA" two_sided_book 45 12 9).
  - reflexivity.
  - unfold descending. simpl. repeat (constructor; simpl; try lia).
  - simpl. repeat (constructor; simpl; try lia).
  - lia.
  - lia.
Defined.

End ApplyDeltaProps.

(** ** src/data/orderbook_manager.py: total acquisition cost *)

Section TotalCostProps.
Import Models OrderbookUpdates.

Lemma get_acquisition_costs_lookup (m : OrderbookManager.t)
    (tickers : list string) (s : OrderSide) (qty : Z) (tk : string) :
  OrderbookManager.get_acquisition_costs m tickers s qty !! tk =
  if bool_decide (tk ∈ tickers) then Some (cost_of m s qty tk) else None.
Proof.
  unfold OrderbookManager.get_acquisition_costs.
  set (f := fun (costs : gmap string (option Z)) (t : string) =>
              match OrderbookManager._orderbooks m !! t with
              | Some orderbook => <[t := get_acquisition_cost orderbook s qty]> costs
              | None => <[t := None]> costs
              end).
  assert (Hf : forall costs t, f costs t = <[t := cost_of m s qty t]> costs).
  { intros costs t. unfold f, cost_of.
    now destruct (OrderbookManager._orderbooks m !! t). }
  assert (G : forall l acc,
             fold_left f l acc !! tk =
             if bool_decide (tk ∈ l) then Some (cost_of m s qty tk)
             else acc !! tk).
  { induction l as [|t l IH]; intros acc; cbn [fold_left].
    - rewrite bool_decide_eq_false_2; [reflexivity | apply not_elem_of_nil].
    - rewrite IH, Hf.
      destruct (decide (tk ∈ l)) as [Hin|Hout].
      + rewrite !bool_decide_eq_true_2; auto. apply elem_of_cons. now right.
      + rewrite (bool_decide_eq_false_2 _ Hout).
        destruct (decide (tk = t)) as [->|Hne].
        * rewrite lookup_insert_eq, bool_decide_eq_true_2; [reflexivity|].
          apply elem_of_cons. now left.
        * rewrite lookup_insert_ne by congruence.
          rewrite bool_decide_eq_false_2; [reflexivity|].
          rewrite elem_of_cons. tauto. }
  rewrite G. now rewrite lookup_empty.
Qed.

(** X8: the total acquisition cost depends only on which tickers are asked
    for: order and repetitions in the list do not matter, so a ticker that
    is listed twice is paid for once. *)
Theorem total_cost_ignores_repetition (m : OrderbookManager.t)
    (l1 l2 : list string) (s : OrderSide) (qty : Z) :
  (forall tk, tk ∈ l1 <-> tk ∈ l2) ->
  calculate_total_acquisition_cost m l1 s qty =
  calculate_total_acquisition_cost m l2 s qty.
Proof.
  intros Hsame. unfold calculate_total_acquisition_cost.
  assert (Heq : OrderbookManager.get_acquisition_costs m l1 s qty =
                OrderbookManager.get_acquisition_costs m l2 s qty).
  { apply map_eq. intros tk. rewrite !get_acquisition_costs_lookup.
    destruct (decide (tk ∈ l1)) as [Hin|Hout].
    - rewrite !bool_decide_eq_true_2; auto. now apply Hsame.
    - rewrite !bool_decide_eq_false_2; auto. now rewrite <- Hsame. }
  now rewrite Heq.
Qed.

Lemma total_cost_ignores_repetition_witness :
  calculate_total_acquisition_cost one_book_manager ["KXA"; "KXA"]%string YES 3 =
  calculate_total_acquisition_cost one_book_manager ["KXA"]%string YES 3.
Proof.
  apply total_cost_ignores_repetition.
  intros tk. rewrite !elem_of_cons. tauto.
Defined.

(** X9: the total is [None] exactly when one of the requested tickers has no
    book, or a book without an implied ask on that side. *)
Theorem total_cost_None_iff (m : OrderbookManager.t) (tickers : list string)
    (s : OrderSide) (qty : Z) :
  calculate_total_acquisition_cost m tickers s qty = None <->
  exists tk, tk ∈ tickers /\ cost_of m s qty tk = None.
Proof.
  unfold calculate_total_acquisition_cost.
  set (costs := OrderbookManager.get_acquisition_costs m tickers s qty).
  assert (Hin : None ∈ (map_to_list costs).*2 <->
                exists tk, tk ∈ tickers /\ cost_of m s qty tk = None).
  { split.
    - intros H. apply list_elem_of_fmap in H as ([tk c] & Hc & H).
      simpl in Hc. subst c. apply elem_of_map_to_list in H.
      unfold costs in H. rewrite get_acquisition_costs_lookup in H.
      destruct (decide (tk ∈ tickers)) as [Ht|Ht].
      + rewrite (bool_decide_eq_true_2 _ Ht) in H. exists tk. split; congruence.
      + rewrite (bool_decide_eq_false_2 _ Ht) in H. discriminate.
    - intros (tk & Ht & Hc). apply list_elem_of_fmap. exists (tk, None).
      split; [reflexivity|]. apply elem_of_map_to_list.
      unfold costs. rewrite get_acquisition_costs_lookup.
      rewrite (bool_decide_eq_true_2 _ Ht). congruence. }
  destruct (decide (None ∈ (map_to_list costs).*2)) as [Hd|Hd].
  - rewrite (bool_decide_eq_true_2 _ Hd). split; [intros _; now apply Hin | reflexivity].
  - rewrite (bool_decide_eq_false_2 _ Hd). split; [discriminate|].
    intros H. apply Hin in H. contradiction.
Qed.

Lemma sum_Z_perm (l1 l2 : list Z) : l1 ≡ₚ l2 -> sum_Z l1 = sum_Z l2.
Proof.
  induction 1 as [|x l l' _ IH|x y l|l l' l'' _ IH1 _ IH2].
  - reflexivity.
  - rewrite !sum_Z_cons. lia.
  - rewrite !sum_Z_cons. lia.
  - congruence.
Qed.



End TotalCostProps.

(** ** src/risk/exposure_manager.py: fitting a quantity to the limits *)

Section QuantityAdjustmentProps.
Import Models ExposureManager QuantityAdjustment.

Lemma allowed_feasible (m : ExposureManager.t) (opp : ArbitrageOpportunity)
    (q : Z) :
  allowed (check_trade m opp q) = true <-> feasible m opp q.
Proof.
  unfold check_trade, feasible. fold (current_total m). simpl holds at 1.
  destruct (Z.ltb_spec (max_total_exposure_cents (limits m))
              ((current_total m) + total_cost_cents opp * q)) as [H|H].
  { simpl. split; [discriminate | intros [H' _]; lia]. }
  destruct (check_legs m (PositionTracker.positions (position_tracker m))
              (current_total m) q (legs opp)) as [d|] eqn:E.
  - destruct (check_legs_Some _ _ _ _ E) as [Ha [leg [Hin Hl]]].
    rewrite Ha. split; [discriminate|]. intros [_ Hall].
    specialize (Hall leg Hin). unfold holds in Hall.
    destruct Hl as [[Hn _]|[Hn _]]; tauto.
  - simpl. split; [|reflexivity]. intros _. split; [exact H|].
    exact (proj1 (check_legs_None m opp q (legs opp)) E).
Qed.

Lemma feasible_down (m : ExposureManager.t) (opp : ArbitrageOpportunity)
    (q q' : Z) :
  0 <= total_cost_cents opp ->
  Forall (fun leg => 0 <= leg_price leg) (legs opp) ->
  q' <= q -> feasible m opp q -> feasible m opp q'.
Proof.
  intros Hc Hp Hle [Ht Hl]. split.
  - unfold holds in *. nia.
  - intros leg Hin. destruct (Hl leg Hin) as [H1 H2].
    rewrite Forall_forall in Hp.
    assert (0 <= leg_price leg) by (apply Hp; now apply list_elem_of_In).
    unfold holds in *. split; nia.
Qed.

(** X11: the exposure gate is monotone: with costs that are not negative, a
    quantity below an approved quantity is approved too. *)
Theorem check_trade_monotone (m : ExposureManager.t) (opp : ArbitrageOpportunity)
    (q q' : Z) :
  0 <= total_cost_cents opp ->
  Forall (fun leg => 0 <= leg_price leg) (legs opp) ->
  q' <= q ->
  allowed (check_trade m opp q) = true ->
  allowed (check_trade m opp q') = true.
Proof.
  intros Hc Hp Hle Ha.
  apply allowed_feasible. apply allowed_feasible in Ha.
  destruct Ha as [Ht Hl]. split.
  - unfold holds in *. nia.
  - intros leg Hin. destruct (Hl leg Hin) as [H1 H2].
    rewrite Forall_forall in Hp.
    assert (0 <= leg_price leg) by (apply Hp; now apply list_elem_of_In).
    unfold holds in *. split; nia.
Qed.

Lemma two_leg_costs :
  0 <= total_cost_cents two_leg_opportunity /\
  Forall (fun leg => 0 <= leg_price leg) (legs two_leg_opportunity).
Proof. split; [vm_compute; discriminate|]. repeat constructor; simpl; lia. Qed.

Lemma check_trade_monotone_witness :
  allowed (check_trade gate_on_limits two_leg_opportunity 37) = true.
Proof.
  apply (check_trade_monotone gate_on_limits two_leg_opportunity 100 37).
  - exact (proj1 two_leg_costs).
  - exact (proj2 two_leg_costs).
  - lia.
  - reflexivity.
Defined.

(** The loop returns a quantity of the interval: its lower end or a
    quantity the test accepted; and, for a test that accepts every quantity
    below an accepted one, nothing above the result is accepted. *)
Lemma search_spec (ok : Z -> bool) (low high : Z) :
  low <= high ->
  low <= search ok low high <= high /\
  (search ok low high = low \/ ok (search ok low high) = true) /\
  ((forall q q', q' <= q -> ok q = true -> ok q' = true) ->
   forall q, search ok low high < q <= high -> ok q = false).
Proof.
  funelim (search ok low high); intros Hle.
  - clear Heq. cbv zeta.
    assert (Hmid : low + 1 <= (low + high + 1) / 2 <= high).
    { split; [apply Z.div_le_lower_bound | apply Z.div_le_upper_bound]; lia. }
    destruct (ok ((low + high + 1) / 2)) eqn:Eok.
    + destruct H as (Hr & Hor & Hup); [lia|].
      split; [lia|]. split; [|exact Hup].
      right. destruct Hor as [->|Hor]; [exact Eok | exact Hor].
    + destruct H0 as (Hr & Hor & Hup); [lia|].
      split; [lia|]. split; [exact Hor|].
      intros Hmono q Hq.
      destruct (Z_le_gt_dec q ((low + high + 1) / 2 - 1)) as [Hs|Hs].
      * apply Hup; [exact Hmono | lia].
      * destruct (ok q) eqn:Eq; [|reflexivity].
        rewrite (Hmono q ((low + high + 1) / 2)) in Eok; [discriminate|lia|exact Eq].
  - clear Heq. split; [lia|]. split; [now left|]. intros _ q Hq. lia.
Qed.

(** X12: [adjust_quantity_for_limits] always ends, and with costs that are not
    negative it returns the largest approved quantity up to the desired one:
    the result is approved (or is 0), it is the desired quantity when that
    is approved, and no quantity between the result and the desired
    quantity is approved. *)
Theorem adjust_quantity_largest (m : ExposureManager.t)
    (opp : ArbitrageOpportunity) (desired : Z) :
  0 <= total_cost_cents opp ->
  Forall (fun leg => 0 <= leg_price leg) (legs opp) ->
  let r := adjust_quantity_for_limits m opp desired in
  (allowed (check_trade m opp desired) = true -> r = desired) /\
  (r = 0 \/ allowed (check_trade m opp r) = true) /\
  r <= Z.max 0 desired /\
  (forall q, r < q <= desired -> allowed (check_trade m opp q) = false).
Proof.
  intros Hc Hp r. subst r. unfold adjust_quantity_for_limits.
  destruct (allowed (check_trade m opp desired)) eqn:Ed.
  - split; [reflexivity|]. split; [now right|]. split; [lia|]. intros q Hq. lia.
  - split; [discriminate|].
    destruct (Z_le_gt_dec 0 desired) as [Hd|Hd].
    + destruct (search_spec (fun mid => allowed (check_trade m opp mid)) 0 desired Hd)
        as (Hr & Hor & Hup).
      split; [exact Hor|]. split; [lia|].
      apply Hup. intros q q' Hle Hq.
      apply allowed_feasible. apply allowed_feasible in Hq.
      now apply (feasible_down m opp q q').
    + assert (Hs : search (fun mid => allowed (check_trade m opp mid)) 0 desired = 0).
      { simp search. destruct (Z_lt_dec 0 desired); [lia | reflexivity]. }
      rewrite Hs. split; [now left|]. split; [lia|]. intros q Hq. lia.
Qed.

Lemma adjust_quantity_largest_witness :
  adjust_quantity_for_limits gate_on_limits two_leg_opportunity 150 = 100.
Proof.
  destruct (adjust_quantity_largest gate_on_limits two_leg_opportunity 150
              (proj1 two_leg_costs) (proj2 two_leg_costs))
    as (_ & Hor & _ & Hup).
  set (r := adjust_quantity_for_limits gate_on_limits two_leg_opportunity 150) in *.
  assert (H100 : 100 <= r).
  { destruct (Z_le_gt_dec 100 r) as [H|H]; [exact H|].
    specialize (Hup 100 ltac:(lia)). vm_compute in Hup. discriminate. }
  assert (Hr : allowed (check_trade gate_on_limits two_leg_opportunity r) = true).
  { destruct Hor as [H0|H]; [lia | exact H]. }
  apply allowed_feasible in Hr. destruct Hr as [Ht _].
  unfold holds in Ht.
  change (current_total gate_on_limits) with 0 in Ht.
  change (total_cost_cents two_leg_opportunity) with 90 in Ht.
  change (max_total_exposure_cents (limits gate_on_limits)) with 9000 in Ht.
  lia.
Defined.

End QuantityAdjustmentProps.

(** ** src/risk/circuit_breaker.py: sequences of calls *)

Section BreakerRunProps.
Import CircuitBreaker.

Lemma trip_inv (b : t) (reason : TripReason) (now : Z) :
  breaker_inv b -> breaker_inv (_trip b reason now).
Proof.
  intros (H1 & H2 & H3). unfold breaker_inv, _trip, trips_notified in *. simpl.
  split; [split; discriminate|]. split; [split; discriminate|].
  destruct (_on_trip b); simpl; [|exact H3].
  rewrite <- H3. lia.
Qed.

Lemma with_metrics_inv (b : t) (m : CircuitBreakerMetrics) :
  trip_count m = trip_count (_metrics b) ->
  breaker_inv b -> breaker_inv (with_metrics b m).
Proof.
  intros Hm (H1 & H2 & H3). unfold breaker_inv, with_metrics, trips_notified in *.
  simpl. rewrite Hm. auto.
Qed.

Lemma check_trip_inv (b : t) (now : Z) :
  breaker_inv b -> breaker_inv (_check_trip_conditions b now).
Proof.
  intros H. unfold _check_trip_conditions.
  destruct (state_eqb (_state b) OPEN); [exact H|].
  repeat match goal with
         | |- context [if ?c then _ else _] => destruct c
         end; try exact H; now apply trip_inv.
Qed.

Lemma closed_inv (b : t) : breaker_inv b -> breaker_inv (_transition_to_closed b).
Proof.
  intros (H1 & H2 & H3).
  unfold breaker_inv, _transition_to_closed, trips_notified in *. simpl.
  split; [tauto|]. split; [tauto|].
  destruct (_on_reset b); simpl; exact H3.
Qed.

Lemma half_open_inv (b : t) :
  _state b = OPEN -> breaker_inv b -> breaker_inv (_transition_to_half_open b).
Proof.
  intros Hs (H1 & H2 & H3).
  unfold breaker_inv, _transition_to_half_open, trips_notified in *. simpl.
  rewrite Hs in H1, H2.
  split; [split; [discriminate | intros H; apply H1 in H; discriminate]|].
  split; [split; [discriminate | intros H; apply H2 in H; discriminate]|].
  exact H3.
Qed.

Lemma call_inv (b : t) (c : Call) : breaker_inv b -> breaker_inv (call b c).
Proof.
  intros H. destruct c as [now|p e now|e now| | |r now]; simpl.
  - unfold check_and_allow.
    destruct (state_eqb (_state b) OPEN) eqn:Es.
    + apply state_eqb_eq in Es.
      destruct (_should_transition_to_half_open b now); [|exact H].
      pose proof (half_open_inv b Es H) as H'.
      destruct (state_eqb (_state (_transition_to_half_open b)) HALF_OPEN);
        [|exact H'].
      destruct (half_open_test_limit (config (_transition_to_half_open b))
                <=? _half_open_trades (_transition_to_half_open b));
        [exact H'|].
      simpl. exact H'.
    + destruct (state_eqb (_state b) HALF_OPEN); [|exact H].
      destruct (half_open_test_limit (config b) <=? _half_open_trades b);
        [exact H|].
      simpl. exact H.
  - unfold record_trade_result.
    destruct (p <? 0).
    + apply check_trip_inv. now apply with_metrics_inv.
    + match goal with
      | |- breaker_inv (if _ then _transition_to_closed ?b' else _) =>
          assert (Hb : breaker_inv b') by now apply with_metrics_inv
      end.
      destruct (state_eqb _ HALF_OPEN); [now apply closed_inv | exact Hb].
  - unfold record_exposure. apply check_trip_inv. now apply with_metrics_inv.
  - unfold reset_daily_metrics. now apply with_metrics_inv.
  - now apply closed_inv.
  - now apply trip_inv.
Qed.

Lemma run_inv (b : t) (cs : list Call) : breaker_inv b -> breaker_inv (run b cs).
Proof.
  unfold run. revert b. induction cs as [|c cs IH]; intros b H; simpl; [exact H|].
  apply IH. now apply call_inv.
Qed.

Lemma init_inv (cfg : option CircuitBreakerConfig) (on_trip on_reset : bool) :
  breaker_inv (init cfg on_trip on_reset).
Proof.
  unfold breaker_inv, init, trips_notified. simpl.
  split; [tauto|]. split; [tauto|]. now destruct on_trip.
Qed.

Lemma call_on_trip (b : t) (c : Call) : _on_trip (call b c) = _on_trip b.
Proof.
  destruct c as [now|p e now|e now| | |r now]; simpl; try reflexivity.
  - unfold check_and_allow.
    repeat match goal with
           | |- context [if ?c then _ else _] => destruct c; simpl
           end; reflexivity.
  - unfold record_trade_result, _check_trip_conditions.
    repeat match goal with
           | |- context [if ?c then _ else _] => destruct c; simpl
           end; reflexivity.
  - unfold record_exposure, _check_trip_conditions.
    repeat match goal with
           | |- context [if ?c then _ else _] => destruct c; simpl
           end; reflexivity.
Qed.

Lemma run_on_trip (b : t) (cs : list Call) : _on_trip (run b cs) = _on_trip b.
Proof.
  unfold run. revert b. induction cs as [|c cs IH]; intros b; simpl; [reflexivity|].
  rewrite IH. apply call_on_trip.
Qed.

Lemma call_config (b : t) (c : Call) : config (call b c) = config b.
Proof.
  destruct c as [now|p e now|e now| | |r now]; simpl; try reflexivity.
  - unfold check_and_allow.
    repeat match goal with
           | |- context [if ?c then _ else _] => destruct c; simpl
           end; reflexivity.
  - unfold record_trade_result, _check_trip_conditions.
    repeat match goal with
           | |- context [if ?c then _ else _] => destruct c; simpl
           end; reflexivity.
  - unfold record_exposure, _check_trip_conditions.
    repeat match goal with
           | |- context [if ?c then _ else _] => destruct c; simpl
           end; reflexivity.
Qed.

(** X13: in every breaker that calls of the public operations can produce
    from a new one, the breaker is CLOSED exactly when no trip time and no
    trip reason are stored, and the trip callback has been called once for
    every counted trip. *)
Theorem breaker_reachable_invariant (cfg : option CircuitBreakerConfig)
    (on_trip on_reset : bool) (cs : list Call) :
  let b := run (init cfg on_trip on_reset) cs in
  (_state b = CLOSED <-> _trip_time b = None) /\
  (_state b = CLOSED <-> _trip_reason b = None) /\
  trips_notified b = (if on_trip then trip_count (_metrics b) else 0).
Proof.
  intros b.
  assert (Hot : _on_trip b = on_trip) by (subst b; now rewrite run_on_trip).
  destruct (run_inv (init cfg on_trip on_reset) cs (init_inv cfg on_trip on_reset))
    as (H1 & H2 & H3).
  fold b in H1, H2, H3. rewrite Hot in H3. auto.
Qed.



Lemma check_and_allow_half_open (b : t) (now : Z) :
  _state b = HALF_OPEN ->
  check_and_allow b now =
  if half_open_test_limit (config b) <=? _half_open_trades b
  then (inr HalfOpenLimitReached, b)
  else (inl true,
        {| config := config b; _on_trip := _on_trip b;
           _on_reset := _on_reset b; _state := _state b;
           _metrics := _metrics b; _trip_reason := _trip_reason b;
           _trip_time := _trip_time b;
           _half_open_trades := _half_open_trades b + 1;
           calls := calls b |}).
Proof.
  intros Hs. unfold check_and_allow. rewrite Hs. simpl. rewrite Hs. reflexivity.
Qed.

Lemma grants_half_open (nows : list Z) (b : t) :
  _state b = HALF_OPEN ->
  fst (grants b nows) =
    Z.min (Z.of_nat (length nows))
          (Z.max 0 (half_open_test_limit (config b) - _half_open_trades b)) /\
  _state (snd (grants b nows)) = HALF_OPEN /\
  _half_open_trades (snd (grants b nows)) =
    _half_open_trades b + fst (grants b nows) /\
  config (snd (grants b nows)) = config b.
Proof.
  revert b. induction nows as [|now rest IH]; intros b Hs.
  - simpl. repeat split; auto; lia.
  - cbn [grants length]. rewrite (check_and_allow_half_open b now Hs).
    destruct (Z.leb_spec (half_open_test_limit (config b)) (_half_open_trades b))
      as [Hfull|Hroom].
    + cbn [fst snd]. destruct (IH b Hs) as (Hg & Hst & Htr & Hc).
      rewrite Hst, Htr, Hc, Hg. repeat split; lia.
    + cbn [fst snd].
      match goal with
      | |- context [grants ?b1 rest] =>
          destruct (IH b1 Hs) as (Hg & Hst & Htr & Hc);
            rewrite Hst, Htr, Hc, Hg
      end.
      simpl. repeat split; lia.
Qed.

(** X15: in HALF_OPEN, of [n] requests made in a row exactly
    [min n (limit - used)] are granted (none when the limit is used up),
    and the breaker stays HALF_OPEN until a result is recorded. *)
Theorem half_open_grants (b : t) (nows : list Z) :
  _state b = HALF_OPEN ->
  fst (grants b nows) =
    Z.min (Z.of_nat (length nows))
          (Z.max 0 (half_open_test_limit (config b) - _half_open_trades b)) /\
  _state (snd (grants b nows)) = HALF_OPEN.
Proof.
  intros Hs. destruct (grants_half_open nows b Hs) as (Hg & Hst & _).
  split; assumption.
Qed.

Lemma half_open_grants_witness :
  fst (grants half_open_after_loss [20000000; 20000001; 20000002]) = 0.
Proof.
  destruct (half_open_grants half_open_after_loss
              [20000000; 20000001; 20000002] eq_refl) as [Hg _].
  rewrite Hg. reflexivity.
Defined.

(** X16: while the breaker is OPEN, recording a result or an exposure, or
    resetting the daily metrics, changes neither the state nor the trip
    time, reason and count, and calls no callback: a win does not close an
    open breaker and a loss does not restart its cool-down. *)
Theorem open_ignores_results (b b' : t) (p e now : Z) :
  _state b = OPEN ->
  b' = record_trade_result b p e now \/ b' = record_exposure b e now \/
  b' = reset_daily_metrics b ->
  _state b' = OPEN /\ _trip_time b' = _trip_time b /\
  _trip_reason b' = _trip_reason b /\
  trip_count (_metrics b') = trip_count (_metrics b) /\
  calls b' = calls b.
Proof.
  intros Hs [H|[H|H]]; subst b'.
  - unfold record_trade_result. destruct (p <? 0).
    + unfold _check_trip_conditions. simpl. rewrite Hs. simpl. auto.
    + simpl. rewrite Hs. simpl. auto.
  - unfold record_exposure, _check_trip_conditions. simpl. rewrite Hs. simpl.
    auto.
  - unfold reset_daily_metrics. simpl. auto.
Qed.

Lemma open_ignores_results_witness :
  _state (record_trade_result
            (run (init None true true) [RecordExposure 60000 5]) 500 0 6) = OPEN.
Proof.
  exact (proj1 (open_ignores_results
                  (run (init None true true) [RecordExposure 60000 5]) _
                  500 0 6 eq_refl (or_introl eq_refl))).
Defined.

Lemma lose_metrics (nows : list Z) (b : t) (loss e : Z) :
  0 < loss ->
  e < max_exposure_cents (config b) ->
  let k := Z.of_nat (length nows) in
  let b' := lose b loss e nows in
  config b' = config b /\
  daily_loss_cents (_metrics b') = daily_loss_cents (_metrics b) + k * loss /\
  consecutive_losses (_metrics b') = consecutive_losses (_metrics b) + k /\
  (_state b = OPEN -> _state b' = OPEN) /\
  (_state b <> OPEN -> 0 < k ->
   (_state b' = OPEN <->
    max_daily_loss_cents (config b) <= daily_loss_cents (_metrics b) + k * loss \/
    max_consecutive_losses (config b) <= consecutive_losses (_metrics b) + k) /\
   (_state b' <> OPEN -> _state b' = _state b)).
Proof.
  intros Hloss. revert b. induction nows as [|now rest IH]; intros b He k b'.
  - subst k b'. simpl. repeat split; try lia; auto.
  - subst k b'. cbn [lose fold_left length].
    set (b1 := record_trade_result b (- loss) e now).
    assert (Hb1 : config b1 = config b /\
                  daily_loss_cents (_metrics b1) = daily_loss_cents (_metrics b) + loss /\
                  consecutive_losses (_metrics b1) = consecutive_losses (_metrics b) + 1 /\
                  (_state b = OPEN -> _state b1 = OPEN) /\
                  (_state b <> OPEN ->
                   (_state b1 = OPEN <->
                    max_daily_loss_cents (config b) <= daily_loss_cents (_metrics b) + loss \/
                    max_consecutive_losses (config b) <= consecutive_losses (_metrics b) + 1) /\
                   (_state b1 <> OPEN -> _state b1 = _state b))).
    { subst b1. unfold record_trade_result.
      replace (- loss <? 0) with true by (symmetry; apply Z.ltb_lt; lia).
      rewrite Z.abs_opp, Z.abs_eq by lia.
      unfold _check_trip_conditions. simpl.
      destruct (state_eqb (_state b) OPEN) eqn:Es.
      - apply state_eqb_eq in Es. simpl. repeat split; auto; try congruence.
      - assert (Hn : _state b <> OPEN).
        { intros H. apply state_eqb_eq in H. congruence. }
        destruct (Z.leb_spec (max_daily_loss_cents (config b))
                    (daily_loss_cents (_metrics b) + loss)); simpl.
        { repeat split; auto; try congruence. }
        destruct (Z.leb_spec (max_consecutive_losses (config b))
                    (consecutive_losses (_metrics b) + 1)); simpl.
        { repeat split; auto; try congruence. }
        destruct (Z.leb_spec (max_exposure_cents (config b)) e); [lia|]. simpl.
        repeat split; auto; try congruence; try lia. }
    destruct Hb1 as (Hc1 & Hd1 & Hn1 & Ho1 & Hs1).
    assert (He1 : e < max_exposure_cents (config b1)) by now rewrite Hc1.
    destruct (IH b1 He1) as (Hc & Hd & Hn & Ho & Hs).
    fold (lose b1 loss e rest).
    rewrite Hc, Hd, Hn, Hc1, Hd1, Hn1.
    rewrite Nat2Z.inj_succ.
    split; [reflexivity|]. split; [lia|]. split; [lia|].
    split; [auto|].
    intros Hnot _.
    destruct (Hs1 Hnot) as [Hiff1 Hkeep1].
    destruct rest as [|now' rest'].
    + change (lose b1 loss e []) with b1.
      change (Z.of_nat (length (@nil Z))) with 0.
      split; [|exact Hkeep1].
      rewrite Hiff1. split; (intros [?|?]; [left|right]; lia).
    + set (k := Z.of_nat (length (now' :: rest'))) in *.
      assert (Hk : 0 < k) by (subst k; simpl; lia).
      assert (Hdec : _state b1 = OPEN \/ _state b1 <> OPEN)
        by (destruct (_state b1); auto; right; discriminate).
      destruct Hdec as [Hopen|Hclosed].
      * split.
        -- split; [|intros _; now apply Ho].
           intros _. apply Hiff1 in Hopen. destruct Hopen; [left|right]; nia.
        -- intros H. exfalso. apply H. now apply Ho.
      * destruct (Hs Hclosed Hk) as [Hiff Hkeep].
        rewrite Hc1, Hd1, Hn1 in Hiff.
        split.
        -- rewrite Hiff. split; (intros [?|?]; [left|right]; lia).
        -- intros H. rewrite (Hkeep H). now apply Hkeep1.
Qed.

(** X17: a run of [k >= 1] losses of [loss] cents each, recorded on a new
    breaker with the exposure below its limit, leaves the breaker OPEN
    exactly when [k] has reached the limit of consecutive losses or
    [k * loss] the daily loss limit; otherwise it is still CLOSED. *)
Theorem loss_streak_trips (cfg : option CircuitBreakerConfig)
    (on_trip on_reset : bool) (loss e : Z) (nows : list Z) :
  0 < loss ->
  nows <> [] ->
  let b := init cfg on_trip on_reset in
  e < max_exposure_cents (config b) ->
  let k := Z.of_nat (length nows) in
  let b' := lose b loss e nows in
  (_state b' = OPEN <->
   max_daily_loss_cents (config b) <= k * loss \/
   max_consecutive_losses (config b) <= k) /\
  (_state b' <> OPEN -> _state b' = CLOSED).
Proof.
  intros Hloss Hne b He k b'.
  destruct (lose_metrics nows b loss e Hloss He) as (_ & _ & _ & _ & Hs).
  assert (Hk : 0 < k).
  { subst k. destruct nows; [contradiction | simpl; lia]. }
  destruct Hs as [Hiff Hkeep]; [subst b; simpl; discriminate | exact Hk |].
  fold b' k in Hiff, Hkeep.
  split; [|exact Hkeep].
  rewrite Hiff. subst b. simpl. split; (intros [?|?]; [left|right]; lia).
Qed.

Lemma loss_streak_trips_witness :
  _state (lose (init None false false) 100 0 [1; 2; 3; 4; 5]) = OPEN.
Proof.
  refine (proj2 (proj1 (loss_streak_trips None false false 100 0 [1; 2; 3; 4; 5]
                          _ _ _)) _).
  - lia.
  - discriminate.
  - vm_compute. reflexivity.
  - right. vm_compute. discriminate.
Defined.

End BreakerRunProps.

(** ** src/arbitrage/calculator.py: the default fee *)

Section DefaultFeeProps.
Import Models Calculator.

Lemma default_fee_ceiling (p : Z) :
  1 <= p <= 99 -> Qceiling (inject_Z (100 - p) * (7 # 1000)) = 1.
Proof.
  intros Hp. unfold Qceiling, Qfloor, Qopp, Qmult, inject_Z. simpl.
  assert (H : - ((100 - p) * 7) / 1000 = -1).
  { symmetry. apply (Z.div_unique _ _ _ (1000 - (100 - p) * 7)); lia. }
  change (Z.pos (1 * 1000)) with 1000. rewrite H. reflexivity.
Qed.

Lemma default_leg_fee (leg : ArbitrageLeg) :
  1 <= leg_price leg <= 99 -> leg_quantity leg = 1 ->
  leg_fee (init None) leg = 1.
Proof.
  intros Hp Hq. unfold leg_fee, quantize_ROUND_UP, init, fee_rate.
  rewrite Hq. unfold PAYOUT_CENTS, FEE_RATE.
  assert (Hpos : (0 <= inject_Z (100 - leg_price leg) * (7 # 1000) * inject_Z 1)%Q).
  { unfold Qle, Qmult, inject_Z. simpl. lia. }
  apply Qle_bool_iff in Hpos. rewrite Hpos.
  assert (Heq : (inject_Z (100 - leg_price leg) * (7 # 1000) * inject_Z 1
                 == inject_Z (100 - leg_price leg) * (7 # 1000))%Q)
    by (change (inject_Z 1) with 1%Q; ring).
  rewrite (Qceiling_comp _ _ Heq). now apply default_fee_ceiling.
Qed.

Lemma default_total_fees (legs : list ArbitrageLeg) :
  Forall (fun leg => 1 <= leg_price leg <= 99 /\ leg_quantity leg = 1) legs ->
  calculate_total_fees (init None) legs =
    if existsb (fun leg => action_eqb (action leg) BUY) legs then 1 else 0.
Proof.
  intros Hlegs. unfold calculate_total_fees.
  assert (G : forall acc, 0 <= acc <= 1 ->
             fold_left
               (fun max_fee leg =>
                  if action_eqb (action leg) BUY
                  then Z.max max_fee (leg_fee (init None) leg) else max_fee)
               legs acc =
             if existsb (fun leg => action_eqb (action leg) BUY) legs
             then 1 else acc).
  { induction Hlegs as [|leg rest [Hpr Hq] Hrest IH]; intros acc Hacc; simpl;
      [reflexivity|].
    destruct (action_eqb (action leg) BUY); simpl.
    - rewrite (default_leg_fee leg Hpr Hq). rewrite IH by lia.
      rewrite Z.max_r by lia. now destruct (existsb _ rest).
    - now apply IH. }
  apply G. lia.
Qed.

(** X18: at the default rate the fee is one cent: [calculate_fee_per_contract]
    is 1 for every price from 1 to 99, and [calculate_total_fees] is 1 for
    legs of one contract at such prices as soon as one of them is a BUY (and
    0 when none is). *)
Theorem default_fee_one_cent (p : Z) (legs : list ArbitrageLeg) :
  1 <= p <= 99 ->
  Forall (fun leg => 1 <= leg_price leg <= 99 /\ leg_quantity leg = 1) legs ->
  calculate_fee_per_contract (init None) p = 1 /\
  calculate_total_fees (init None) legs =
    if existsb (fun leg => action_eqb (action leg) BUY) legs then 1 else 0.
Proof.
  intros Hp Hlegs. split.
  - unfold calculate_fee_per_contract, quantize_ROUND_UP, init, fee_rate.
    unfold PAYOUT_CENTS, FEE_RATE.
    assert (Hpos : (0 <= inject_Z (100 - p) * (7 # 1000))%Q).
    { unfold Qle, Qmult, inject_Z. simpl. lia. }
    apply Qle_bool_iff in Hpos. rewrite Hpos.
    now apply default_fee_ceiling.
  - now apply default_total_fees.
Qed.

Lemma default_fee_one_cent_witness :
  calculate_fee_per_contract (init None) 45 = 1 /\
  calculate_total_fees (init None) (legs two_leg_opportunity) = 1.
Proof.
  apply (default_fee_one_cent 45 (legs two_leg_opportunity)); [lia|].
  repeat constructor; simpl; lia.
Defined.

End DefaultFeeProps.

(** ** src/arbitrage/strategies/multioutcome.py: detection and validation *)

Section MultiOutcomeRoundTrip.
Import Models MultiOutcomeStrategy.

Lemma build_legs_revalidate (markets : list Market)
    (orderbooks : gmap string Orderbook) (legs0 legs : list ArbitrageLeg)
    (mq0 mq : gmap string Z) (tc0 tc : Z) :
  build_legs markets orderbooks (legs0, mq0, tc0) = Py.Return (Some (legs, mq, tc)) ->
  exists new,
    legs = legs0 ++ new /\
    forall acc, revalidate_legs new orderbooks acc = Some (acc + (tc - tc0)).
Proof.
  revert legs0 mq0 tc0.
  induction markets as [|market rest IH]; intros legs0 mq0 tc0 H.
  - simpl in H. injection H as <- <- <-. exists []. rewrite app_nil_r.
    split; [reflexivity|]. intros acc. simpl. f_equal. lia.
  - cbn [build_legs] in H.
    destruct (orderbooks !! ticker market) as [ob|] eqn:Eob; [|discriminate].
    destruct (best_yes_ask ob) as [a|] eqn:Ea; [|discriminate].
    destruct (Z.leb_spec (yes_ask_quantity ob) 0) as [Hq|Hq]; [discriminate|].
    destruct (new_ArbitrageLeg (ticker market) YES BUY a 1) as [leg|e] eqn:El;
      [|discriminate].
    cbn [mbind outcome_bind Py.bind] in H.
    apply new_ArbitrageLeg_ok in El as [_ ->].
    destruct (IH _ _ _ H) as (new & Hlegs & Hre).
    eexists (_ :: new). split.
    + rewrite Hlegs, <- app_assoc. reflexivity.
    + intros acc. cbn [revalidate_legs leg_ticker leg_price leg_quantity].
      rewrite Eob, Ea.
      destruct (Z.ltb_spec a a); [lia|].
      destruct (Z.ltb_spec (yes_ask_quantity ob) 1); [lia|].
      rewrite Hre. f_equal. lia.
Qed.

(** X19: an opportunity that [detect] returns passes [validate_opportunity]
    on the books it was detected on, whatever the markets and books. *)
Theorem detect_then_validate (s : MultiOutcomeStrategy.t) (fresh_id : string)
    (now : Z) (markets : list Market) (orderbooks : gmap string Orderbook)
    (opp : ArbitrageOpportunity) :
  detect s fresh_id now markets orderbooks = Py.Return (Some opp) ->
  validate_opportunity s opp orderbooks = true.
Proof.
  unfold detect. intros H.
  destruct (len markets <? min_markets s); [discriminate|].
  destruct (max_markets s <? len markets); [discriminate|].
  destruct (build_legs markets orderbooks ([], ∅, 0)) as [[[[ls mq] tc]|]|e] eqn:Eb;
    cbn [mbind outcome_bind Py.bind] in H; try discriminate.
  destruct (GUARANTEED_PAYOUT <=? tc); [discriminate|].
  destruct (Z.ltb_spec (GUARANTEED_PAYOUT - tc
                        - Calculator.calculate_total_fees (calculator s) ls)
              (min_profit_cents s)) as [Hlow|Hok]; [discriminate|].
  destruct (min_values mq) as [mx|e]; cbn [mbind outcome_bind Py.bind] in H;
    [|discriminate].
  unfold new_ArbitrageOpportunity in H.
  destruct (negb (1 <=? mx)); [discriminate|].
  destruct (negb _); [discriminate|].
  cbn [mbind outcome_bind Py.bind] in H. injection H as <-.
  destruct (build_legs_revalidate _ _ _ _ _ _ _ _ Eb) as (new & Hls & Hre).
  simpl in Hls. subst new.
  unfold validate_opportunity. cbn [legs]. rewrite Hre.
  apply Z.leb_le. lia.
Qed.

Lemma detect_then_validate_witness :
  exists opp,
    detect (init 2 2 10) "opp-id" 0 (scenario.*1) (books_of scenario)
      = Py.Return (Some opp) /\
    validate_opportunity (init 2 2 10) opp (books_of scenario) = true.
Proof.
  eexists. split; [vm_compute; reflexivity|].
  apply (detect_then_validate (init 2 2 10) "opp-id" 0 (scenario.*1)
           (books_of scenario)).
  vm_compute. reflexivity.
Defined.

End MultiOutcomeRoundTrip.

(** ** src/arbitrage/strategies/time_based.py *)

Section TimeBasedProps.
Import Models TimeBasedStrategy.





(** X21: an opportunity returned by the time-based detector passes its
    [validate_opportunity] on any book dictionary that holds the two books
    under the tickers of the two markets. *)
Theorem time_based_detect_then_validate (s : TimeBasedStrategy.t)
    (fresh_id : string) (now : Z) (em lm : ExpiringMarket) (eob lob : Orderbook)
    (orderbooks : gmap string Orderbook) (opp : ArbitrageOpportunity) :
  detect s fresh_id now em lm eob lob = Py.Return (Some opp) ->
  orderbooks !! ticker (market em) = Some eob ->
  orderbooks !! ticker (market lm) = Some lob ->
  validate_opportunity opp orderbooks = true.
Proof.
  unfold detect. intros H Heob Hlob.
  destruct (negb (_validate_expiration_order em lm)); [discriminate|].
  destruct (best_yes_bid eob) as [b|] eqn:Eb; [|discriminate].
  destruct (best_yes_ask lob) as [a|] eqn:Ea; [|discriminate].
  destruct (b - a <? min_price_diff s); [discriminate|].
  destruct (new_ArbitrageLeg (ticker (market em)) YES SELL b 1) as [sell|e1] eqn:Es;
    cbn [mbind outcome_bind Py.bind] in H; [|discriminate].
  destruct (new_ArbitrageLeg (ticker (market lm)) YES BUY a 1) as [buy|e2] eqn:Ebuy;
    cbn [mbind outcome_bind Py.bind] in H; [|discriminate].
  apply new_ArbitrageLeg_ok in Es as [_ ->].
  apply new_ArbitrageLeg_ok in Ebuy as [_ ->].
  destruct (_ <? min_profit_cents s); [discriminate|].
  destruct (Z.leb_spec (Z.min (_get_bid_quantity eob) (yes_ask_quantity lob)) 0)
    as [Hq|Hq]; [discriminate|].
  unfold new_ArbitrageOpportunity in H.
  destruct (negb (1 <=? _)); [discriminate|].
  destruct (negb _); [discriminate|].
  cbn [mbind outcome_bind Py.bind] in H. injection H as <-.
  unfold validate_opportunity, first_with_action. cbn.
  rewrite Heob, Hlob, Eb, Ea.
  destruct (Z.ltb_spec b b); [lia|]. destruct (Z.ltb_spec a a); [lia|].
  cbn [orb].
  destruct (Z.ltb_spec (_get_bid_quantity eob) 1); [lia|].
  destruct (Z.ltb_spec (yes_ask_quantity lob) 1); [lia|].
  reflexivity.
Qed.

Lemma time_based_detect_then_validate_witness :
  exists opp,
    detect (init 2 3) "opp-id" 0 earlier_example later_example
      earlier_book later_book = Py.Return (Some opp) /\
    validate_opportunity opp
      (<["BTC-Q1"%string := earlier_book]> {["BTC-Q2"%string := later_book]}) = true.
Proof.
  eexists. split; [vm_compute; reflexivity|].
  apply (time_based_detect_then_validate (init 2 3) "opp-id" 0 earlier_example
           later_example earlier_book later_book).
  - vm_compute. reflexivity.
  - reflexivity.
  - reflexivity.
Defined.

End TimeBasedProps.

(** ** src/execution/order_manager.py: submitting a group *)

Section OrderGroupProps.
Import Models OrderManager.

Lemma size_list_to_map_le {A} (l : list (string * A)) :
  (size (list_to_map l : gmap string A) <= length l)%nat.
Proof.
  induction l as [|[k x] l IH]; simpl; [rewrite map_size_empty; lia|].
  rewrite map_size_insert. destruct (_ !! k); simpl; lia.
Qed.

Lemma size_list_to_map_NoDup {A} (l : list (string * A)) :
  size (list_to_map l : gmap string A) = length l -> NoDup l.*1.
Proof.
  induction l as [|[k x] l IH]; simpl; [constructor|].
  rewrite map_size_insert. pose proof (size_list_to_map_le l) as Hle.
  destruct (list_to_map l !! k) eqn:E; simpl; [lia|].
  intros Hs. constructor; [|apply IH; lia].
  now apply not_elem_of_list_to_map.
Qed.

Lemma fold_insert_list_to_map {A} (l : list (string * A)) :
  fold_left (fun p kv => <[kv.1 := kv.2]> p) l (∅ : gmap string A)
  = list_to_map (reverse l).
Proof.
  induction l as [|kv l IH] using rev_ind; [reflexivity|].
  rewrite fold_left_app, reverse_app. simpl. rewrite IH. now destruct kv.
Qed.

Lemma filter_length_all {A} (P : A -> Prop) `{forall x, Decision (P x)}
    (l : list A) :
  length (filter P l) = length l <-> Forall P l.
Proof.
  split.
  - intros Hlen. apply Forall_forall. intros x Hx.
    destruct (decide (P x)) as [Hp|Hn]; [exact Hp|].
    pose proof (length_filter_lt P l x Hx Hn). lia.
  - intros Hall. induction Hall as [|x l Hx Hl IH]; [reflexivity|].
    rewrite filter_cons_True by exact Hx. simpl. now rewrite IH.
Qed.

(** What the loop over the legs leaves behind. *)
Lemma submit_legs_spec (v : Venue) (gid : string) (legs : list ArbitrageLeg)
    (om : OrderManager.t) (p0 : gmap string Order) :
  match submit_legs om v gid legs p0 with
  | (None, placed, _) =>
      exists pairs,
        Forall2 (fun leg kv => answer v gid leg = Py.Return kv.2 /\
                               kv.1 = leg_ticker leg) legs pairs /\
        placed = fold_left (fun p kv => <[kv.1 := kv.2]> p) pairs p0
  | (Some _, _, _) =>
      exists leg e, leg ∈ legs /\ answer v gid leg = Py.Raise e
  end.
Proof.
  revert om p0. induction legs as [|leg rest IH]; intros om p0.
  - simpl. exists []. split; [constructor | reflexivity].
  - cbn [submit_legs]. unfold submit_order. fold (answer v gid leg).
    destruct (answer v gid leg) as [o|e] eqn:Ea.
    + match goal with
      | |- context [submit_legs ?om1 v gid rest ?p1] =>
          specialize (IH om1 p1);
            destruct (submit_legs om1 v gid rest p1) as [[[e'|] placed] om']
      end.
      * destruct IH as (l & e0 & Hin & Hl). exists l, e0.
        split; [apply elem_of_cons; now right | exact Hl].
      * destruct IH as (pairs & Hall & ->).
        exists ((leg_ticker leg, o) :: pairs). split; [|reflexivity].
        constructor; [split; [exact Ea | reflexivity] | exact Hall].
    + exists leg, e. split; [apply elem_of_cons; now left | exact Ea].
Qed.

(** When a new group comes out COMPLETE. *)
Lemma submit_group_complete (om : OrderManager.t) (v : Venue)
    (gid opp_id : string) (legs : list ArbitrageLeg) :
  group_status (submit_order_group om v (new_group gid opp_id legs)).1 = COMPLETE
  <->
  NoDup (leg_ticker <$> legs) /\ Forall (fills_leg v gid) legs.
Proof.
  unfold submit_order_group. cbn [new_group group_id group_legs orders].
  pose proof (submit_legs_spec v gid legs om ∅) as Hspec.
  destruct (submit_legs om v gid legs ∅) as [[[e|] placed] om'].
  - cbn [fst group_status]. split; [discriminate|].
    intros [_ Hall]. destruct Hspec as (leg & e0 & Hin & He).
    rewrite Forall_forall in Hall. destruct (Hall leg Hin) as (o & Ho & _).
    congruence.
  - cbn [fst group_status].
    destruct Hspec as (pairs & Hall & ->).
    rewrite fold_insert_list_to_map.
    set (executed := fun o : Order => order_status_eqb (order_status o) EXECUTED = true).
    assert (Hlen : length pairs = length legs)
      by (symmetry; eapply Forall2_length; exact Hall).
    assert (Htk : pairs.*1 = leg_ticker <$> legs).
    { clear -Hall. induction Hall as [|leg kv ls ps [_ Hk] _ IH]; [reflexivity|].
      rewrite !fmap_cons, Hk, IH. reflexivity. }
    assert (Hfill : Forall executed pairs.*2 <-> Forall (fills_leg v gid) legs).
    { clear -Hall. unfold fills_leg. induction Hall as [|leg kv ls ps [Ha _] _ IH].
      - split; constructor.
      - rewrite fmap_cons, !Forall_cons, IH. unfold executed.
        split; intros [H1 H2]; (split; [|exact H2]).
        + exists kv.2. split; [exact Ha|].
          destruct (order_status kv.2); simpl in H1; congruence.
        + destruct H1 as (o & Ho & Hs). rewrite Ha in Ho. injection Ho as <-.
          now rewrite Hs. }
    assert (Hnd_perm : NoDup pairs.*1 ->
              (map_to_list (list_to_map (reverse pairs) : gmap string Order)).*2
              ≡ₚ pairs.*2).
    { intros Hnd. rewrite map_to_list_to_map.
      - now rewrite reverse_Permutation.
      - now rewrite fmap_reverse, reverse_Permutation. }
    match goal with
    | |- (if ?c then _ else _) = _ <-> _ => destruct c eqn:Ec
    end.
    + split; [intros _ | reflexivity].
      apply Z.eqb_eq in Ec. apply Nat2Z.inj in Ec.
      pose proof (length_filter executed
                    (map_to_list (list_to_map (reverse pairs) : gmap string Order)).*2)
        as Hle.
      rewrite length_fmap, length_map_to_list in Hle.
      pose proof (size_list_to_map_le (reverse pairs)) as Hle2.
      rewrite length_reverse in Hle2.
      assert (Hnd : NoDup pairs.*1).
      { assert (Hr : NoDup (reverse pairs).*1).
        { apply size_list_to_map_NoDup. rewrite length_reverse. lia. }
        now rewrite fmap_reverse, reverse_Permutation in Hr. }
      split; [now rewrite <- Htk|].
      apply Hfill. rewrite <- (Hnd_perm Hnd).
      apply (proj1 (filter_length_all executed _)).
      rewrite length_fmap, length_map_to_list. lia.
    + split.
      * destruct (0 <? _); discriminate.
      * intros [Hnd Hfills]. exfalso.
        rewrite <- Htk in Hnd. apply Hfill in Hfills.
        apply Z.eqb_neq in Ec. apply Ec. f_equal.
        rewrite <- Hlen, <- (length_fmap snd pairs).
        transitivity (length (map_to_list
                                (list_to_map (reverse pairs) : gmap string Order)).*2).
        -- apply (proj2 (filter_length_all executed _)).
           now rewrite (Hnd_perm Hnd).
        -- now rewrite (Hnd_perm Hnd).
Qed.



End OrderGroupProps.

(** ** src/execution/executor.py: what a result says *)

Section ExecutorResultProps.
Import Models Executor.

(** X23: every execution result carries the opportunity's id, has an error
    exactly when it is not a success, and reports no profit unless it is a
    success; a success was executed for at least one contract, reports the
    net profit times the executed quantity and names a group that the order
    manager holds as COMPLETE; and the result is appended to the history,
    except for the rejections made before any order is placed, which leave
    the executor as it was. *)
Theorem execute_result (ex : Executor.t) (v : OrderManager.Venue)
    (fresh_id : string) (opp : ArbitrageOpportunity) (quantity : option Z)
    (validate : bool) :
  let r := (_execute_internal ex v fresh_id opp quantity validate).1 in
  let ex' := (_execute_internal ex v fresh_id opp quantity validate).2 in
  opportunity_id r = id opp /\
  (success r = true <-> error r = None) /\
  (success r = false -> profit_cents r = 0) /\
  (success r = true ->
   1 <= effective_quantity opp quantity /\
   profit_cents r = net_profit_cents opp * effective_quantity opp quantity /\
   order_group_id r = Some fresh_id /\
   exists g, OrderManager._order_groups (order_manager ex') !! fresh_id = Some g /\
             OrderManager.group_status g = OrderManager.COMPLETE) /\
  (_execution_history ex' = r :: _execution_history ex \/
   ex' = ex /\ order_group_id r = None).
Proof.
  unfold _execute_internal.
  destruct (validate && negb _)%bool.
  { cbn. repeat split; try discriminate; auto. }
  destruct (Z.leb_spec (effective_quantity opp quantity) 0) as [Hz|Hpos].
  { cbn. repeat split; try discriminate; auto. }
  pose proof (create_order_group_spec (order_manager ex) fresh_id opp
                (effective_quantity opp quantity)) as Hc.
  destruct (OrderManager.create_order_group _ _ _ _) as [[g0|e] om1].
  - destruct Hc as (Hid & _ & _).
    pose proof (submit_order_group_groups om1 v g0) as Hs.
    destruct (OrderManager.submit_order_group om1 v g0) as [g om2].
    destruct Hs as (_ & Hgid & Hgroups).
    destruct (OrderManager.group_status g) eqn:Est; cbn;
      repeat split; try discriminate; auto; try lia.
    + congruence.
    + exists g. rewrite Hgroups, Hid, lookup_insert_eq. auto.
  - destruct e; cbn; repeat split; try discriminate; auto.
Qed.

End ExecutorResultProps.

(** ** src/bot/engine.py: handling one opportunity *)

Section EngineProps.
Import Models Engine.

Lemma allowed_max_quantity (m : ExposureManager.t) (opp : ArbitrageOpportunity)
    (q : Z) :
  ExposureManager.allowed (ExposureManager.check_trade m opp q) = true ->
  ExposureManager.max_allowed_quantity (ExposureManager.check_trade m opp q) = q.
Proof.
  unfold ExposureManager.check_trade.
  destruct (_ <? _); [discriminate|].
  destruct (ExposureManager.check_legs _ _ _ _ _) as [d|] eqn:E; [|reflexivity].
  destruct (check_legs_Some _ _ _ _ E) as [Ha _]. congruence.
Qed.

Lemma check_and_allow_granted (b : CircuitBreaker.t) (now : Z) (x : bool) :
  (CircuitBreaker.check_and_allow b now).1 = inl x ->
  let b1 := (CircuitBreaker.check_and_allow b now).2 in
  x = true /\
  CircuitBreaker._state b1 <> CircuitBreaker.OPEN /\
  CircuitBreaker._metrics b1 = CircuitBreaker._metrics b /\
  CircuitBreaker.config b1 = CircuitBreaker.config b.
Proof.
  unfold CircuitBreaker.check_and_allow.
  destruct (CircuitBreaker.state_eqb (CircuitBreaker._state b) CircuitBreaker.OPEN)
    eqn:Es.
  - destruct (CircuitBreaker._should_transition_to_half_open b now);
      [|discriminate].
    cbn.
    destruct (_ <=? _); cbn; [discriminate|].
    intros [= <-]. repeat split; auto; discriminate.
  - destruct (CircuitBreaker.state_eqb (CircuitBreaker._state b)
                CircuitBreaker.HALF_OPEN) eqn:Eh.
    + destruct (_ <=? _); cbn; [discriminate|].
      intros [= <-]. repeat split; auto.
      intros H. apply state_eqb_eq in H. congruence.
    + cbn. intros [= <-]. repeat split; auto.
      intros H. apply state_eqb_eq in H. congruence.
Qed.

(** X24: the engine trades one contract at a time: unless the breaker or the
    exposure gate stops it, in which case the executor is left untouched, it
    asks the executor for exactly one contract of the opportunity. *)
Theorem handle_opportunity_one_contract (e : Engine.t) (v : OrderManager.Venue)
    (fresh_id : string) (opp : ArbitrageOpportunity) (now_check now_record : Z) :
  1 <= max_quantity opp ->
  let e' := _handle_opportunity e v fresh_id opp now_check now_record in
  exposure_manager e' = exposure_manager e /\
  (executor e' = executor e /\
   ((exists err, (CircuitBreaker.check_and_allow (circuit_breaker e) now_check).1
                 = inr err) \/
    ExposureManager.allowed
      (ExposureManager.check_trade (exposure_manager e) opp 1) = false)
   \/
   (CircuitBreaker.check_and_allow (circuit_breaker e) now_check).1 = inl true /\
   ExposureManager.allowed
     (ExposureManager.check_trade (exposure_manager e) opp 1) = true /\
   executor e' = (Executor.execute (executor e) v fresh_id opp (Some 1) true).2).
Proof.
  intros Hmax e'. subst e'. unfold _handle_opportunity.
  destruct (CircuitBreaker.check_and_allow (circuit_breaker e) now_check)
    as [[x|err] b1] eqn:Ec.
  2:{ cbn. split; [reflexivity|]. left. split; [reflexivity|]. left. eauto. }
  pose proof (check_and_allow_granted (circuit_breaker e) now_check x) as Hg.
  rewrite Ec in Hg. destruct (Hg eq_refl) as (-> & _).
  destruct (ExposureManager.allowed
              (ExposureManager.check_trade (exposure_manager e) opp 1)) eqn:Ea.
  2:{ cbn. split; [reflexivity|]. left. split; [reflexivity|]. now right. }
  cbn [negb]. rewrite (allowed_max_quantity _ _ _ Ea).
  rewrite Z.min_r by lia.
  destruct (Executor.execute (executor e) v fresh_id opp (Some 1) true)
    as [result ex]. cbn.
  split; [reflexivity|]. right. auto.
Qed.

Lemma handle_opportunity_one_contract_witness :
  executor (_handle_opportunity engine_example filling_venue "g"
              two_leg_opportunity 0 1)
  = (Executor.execute (executor engine_example) filling_venue "g"
       two_leg_opportunity (Some 1) true).2.
Proof.
  destruct (handle_opportunity_one_contract engine_example filling_venue "g"
              two_leg_opportunity 0 1) as (_ & [[_ [[err Herr]|Hden]]|(_ & _ & H)]).
  - vm_compute. discriminate.
  - vm_compute in Herr. discriminate.
  - vm_compute in Hden. discriminate.
  - exact H.
Defined.

(** X25: how a failed execution reaches the breaker: it is recorded as a loss
    of the opportunity's total cost when that is positive, and otherwise,
    as for every time-based opportunity with its recorded cost of 0, as a
    trade without loss, which resets the run of consecutive losses and
    leaves the breaker CLOSED even if it was probing in HALF_OPEN. *)
Theorem handle_opportunity_failure (e : Engine.t) (v : OrderManager.Venue)
    (fresh_id : string) (opp : ArbitrageOpportunity) (now_check now_record : Z) :
  1 <= max_quantity opp ->
  (CircuitBreaker.check_and_allow (circuit_breaker e) now_check).1 = inl true ->
  ExposureManager.allowed
    (ExposureManager.check_trade (exposure_manager e) opp 1) = true ->
  Executor.success
    (Executor.execute (executor e) v fresh_id opp (Some 1) true).1 = false ->
  let b := circuit_breaker e in
  let b' := circuit_breaker
              (_handle_opportunity e v fresh_id opp now_check now_record) in
  if 0 <? total_cost_cents opp then
    CircuitBreaker.daily_loss_cents (CircuitBreaker._metrics b') =
      CircuitBreaker.daily_loss_cents (CircuitBreaker._metrics b)
      + total_cost_cents opp /\
    CircuitBreaker.consecutive_losses (CircuitBreaker._metrics b') =
      CircuitBreaker.consecutive_losses (CircuitBreaker._metrics b) + 1
  else
    CircuitBreaker.daily_loss_cents (CircuitBreaker._metrics b') =
      CircuitBreaker.daily_loss_cents (CircuitBreaker._metrics b) /\
    CircuitBreaker.consecutive_losses (CircuitBreaker._metrics b') = 0 /\
    CircuitBreaker._state b' = CircuitBreaker.CLOSED.
Proof.
  intros Hmax Hgrant Ha Hfail b b'. subst b b'. unfold _handle_opportunity.
  pose proof (check_and_allow_granted (circuit_breaker e) now_check true Hgrant)
    as Hg.
  destruct (CircuitBreaker.check_and_allow (circuit_breaker e) now_check)
    as [[x|err] b1]; [|discriminate].
  cbn [fst snd] in Hg. destruct Hg as (_ & Hst & Hm & _).
  rewrite Ha. cbn [negb]. rewrite (allowed_max_quantity _ _ _ Ha).
  rewrite Z.min_r by lia.
  destruct (Executor.execute (executor e) v fresh_id opp (Some 1) true)
    as [result ex]. cbn [fst] in Hfail. rewrite Hfail. cbn [circuit_breaker].
  unfold CircuitBreaker.record_trade_result.
  destruct (Z.ltb_spec 0 (total_cost_cents opp)) as [Hpos|Hnp].
  - destruct (Z.ltb_spec (- total_cost_cents opp) 0); [|lia].
    rewrite Z.abs_opp, Z.abs_eq by lia.
    unfold CircuitBreaker._check_trip_conditions.
    repeat match goal with
           | |- context [if ?c then _ else _] => destruct c
           end; cbn; rewrite Hm; auto.
  - destruct (Z.ltb_spec (- total_cost_cents opp) 0); [lia|].
    cbn.
    destruct (CircuitBreaker._state b1) eqn:Es; cbn; rewrite ?Es, Hm; auto.
    congruence.
Qed.

Lemma handle_opportunity_failure_witness :
  CircuitBreaker._state
    (circuit_breaker
       (_handle_opportunity engine_example rejecting_venue "g"
          zero_cost_opportunity 0 1)) = CircuitBreaker.CLOSED.
Proof.
  pose proof (handle_opportunity_failure engine_example rejecting_venue "g"
                zero_cost_opportunity 0 1) as H.
  cbv zeta in H. change (0 <? total_cost_cents zero_cost_opportunity) with false in H.
  cbv iota in H. apply H.
  - vm_compute. discriminate.
  - reflexivity.
  - vm_compute. reflexivity.
  - vm_compute. reflexivity.
Defined.

End EngineProps.

(** ** src/execution/position_tracker.py: FIFO matching *)

Section PnLProps.
Import Models TickerPnL.

Lemma sum_Z_app (l1 l2 : list Z) : sum_Z (l1 ++ l2) = sum_Z l1 + sum_Z l2.
Proof.
  induction l1 as [|x l1 IH]; [unfold sum_Z at 2; simpl; lia|].
  rewrite <- app_comm_cons, !sum_Z_cons, IH. lia.
Qed.

Lemma sum_zip_replicate (n : nat) (s b : Z) :
  sum_Z (zip_with Z.sub (replicate n s) (replicate n b)) = Z.of_nat n * (s - b).
Proof.
  induction n as [|n IH]; [reflexivity|].
  cbn [replicate zip_with]. rewrite sum_Z_cons, IH. lia.
Qed.

Lemma sum_replicate (n : nat) (p : Z) : sum_Z (replicate n p) = p * Z.of_nat n.
Proof.
  induction n as [|n IH]; [unfold sum_Z; simpl; lia|].
  cbn [replicate]. rewrite sum_Z_cons, IH. lia.
Qed.

Lemma units_cons (p c : Z) (q : list (Z * Z)) :
  units ((p, c) :: q) = replicate (Z.to_nat c) p ++ units q.
Proof. reflexivity. Qed.

Lemma replicate_split (a b : Z) (p : Z) :
  0 <= a -> 0 <= b ->
  replicate (Z.to_nat (a + b)) p
  = replicate (Z.to_nat a) p ++ replicate (Z.to_nat b) p.
Proof.
  intros Ha Hb. rewrite Z2Nat.inj_add by lia. apply replicate_add.
Qed.

Lemma zip_sub_app (a1 a2 b1 b2 : list Z) :
  length a1 = length b1 ->
  zip_with Z.sub (a1 ++ a2) (b1 ++ b2)
  = zip_with Z.sub a1 b1 ++ zip_with Z.sub a2 b2.
Proof.
  revert b1. induction a1 as [|x a1 IH]; intros [|y b1] Hlen;
    simpl in *; try discriminate; [reflexivity|].
  f_equal. apply IH. lia.
Qed.

(** The loop pairs the i-th contract sold with the i-th contract bought. *)
Lemma match_fifo_units (buys sells : list (Z * Z)) (r : Z) :
  Forall (fun pc => 1 <= pc.2) buys ->
  Forall (fun pc => 1 <= pc.2) sells ->
  match_fifo buys sells r
  = r + sum_Z (zip_with Z.sub (units sells) (units buys)).
Proof.
  funelim (match_fifo buys sells r); intros Hb Hs.
  - simp match_fifo. unfold units at 2. simpl.
    rewrite zip_with_nil_r. unfold sum_Z. simpl. lia.
  - simp match_fifo. unfold units at 1. simpl. unfold sum_Z. simpl. lia.
  - simp match_fifo. cbv zeta.
    apply Forall_cons in Hb as [Hbc Hb]. apply Forall_cons in Hs as [Hsc Hs].
    simpl in Hbc, Hsc.
    rewrite !units_cons.
    destruct (Z.lt_trichotomy buy_count sell_count) as [Hlt|[Heq|Hgt]].
    + rewrite Z.min_l in * by lia.
      destruct (Z.ltb_spec buy_count buy_count); [lia|].
      destruct (Z.ltb_spec buy_count sell_count); [|lia].
      rewrite H by first [assumption | constructor; [simpl; lia | assumption]].
      rewrite units_cons.
      replace sell_count with (buy_count + (sell_count - buy_count)) at 2 by lia.
      rewrite replicate_split by lia.
      rewrite <- app_assoc, zip_sub_app by (now rewrite !length_replicate).
      rewrite sum_Z_app, sum_zip_replicate, Z2Nat.id by lia. lia.
    + subst sell_count. rewrite Z.min_id in *.
      destruct (Z.ltb_spec buy_count buy_count); [lia|].
      rewrite H by assumption.
      rewrite zip_sub_app by (now rewrite !length_replicate).
      rewrite sum_Z_app, sum_zip_replicate, Z2Nat.id by lia. lia.
    + rewrite Z.min_r in * by lia.
      destruct (Z.ltb_spec sell_count sell_count); [lia|].
      destruct (Z.ltb_spec sell_count buy_count); [|lia].
      rewrite H by first [assumption | constructor; [simpl; lia | assumption]].
      rewrite units_cons.
      replace buy_count with (sell_count + (buy_count - sell_count)) at 2 by lia.
      rewrite replicate_split by lia.
      rewrite <- app_assoc, zip_sub_app by (now rewrite !length_replicate).
      rewrite sum_Z_app, sum_zip_replicate, Z2Nat.id by lia. lia.
Qed.

Lemma units_length (q : list (Z * Z)) :
  Forall (fun pc => 1 <= pc.2) q ->
  Z.of_nat (length (units q)) = sum_Z (snd <$> q).
Proof.
  induction 1 as [|[p c] q Hc Hq IH]; [reflexivity|].
  rewrite units_cons, length_app, length_replicate, Nat2Z.inj_add, IH.
  rewrite fmap_cons, sum_Z_cons. simpl in *. lia.
Qed.

Lemma units_sum (q : list (Z * Z)) :
  Forall (fun pc => 1 <= pc.2) q ->
  sum_Z (units q) = sum_Z ((fun pc => pc.1 * pc.2) <$> q).
Proof.
  induction 1 as [|[p c] q Hc Hq IH]; [reflexivity|].
  rewrite units_cons, sum_Z_app, sum_replicate, IH.
  rewrite fmap_cons, sum_Z_cons. simpl in *. lia.
Qed.

Lemma sum_zip_sub (a b : list Z) :
  length a = length b ->
  sum_Z (zip_with Z.sub a b) = sum_Z a - sum_Z b.
Proof.
  revert b. induction a as [|x a IH]; intros [|y b] Hlen;
    simpl in *; try discriminate; [reflexivity|].
  rewrite !sum_Z_cons, IH by lia. lia.
Qed.

Lemma queue_perm (a : OrderAction) (l1 l2 : list Fill) :
  l1 ≡ₚ l2 -> queue a l1 ≡ₚ queue a l2.
Proof.
  intros H. unfold queue. apply fmap_Permutation.
  induction H as [|x l l' _ IH|x y l|l l' l'' _ IH1 _ IH2]; simpl.
  - reflexivity.
  - destruct (action_eqb _ a); [now constructor | exact IH].
  - destruct (action_eqb (fill_action x) a), (action_eqb (fill_action y) a);
      try reflexivity. apply Permutation_swap.
  - now rewrite IH1.
Qed.

Lemma queue_counts (a : OrderAction) (fills : list Fill) :
  Forall (fun f => 1 <= fill_count f) fills ->
  Forall (fun pc => 1 <= pc.2) (queue a fills).
Proof.
  intros H. unfold queue. apply Forall_fmap.
  induction H as [|f l Hf Hl IH]; simpl; [constructor|].
  destruct (action_eqb _ a); [constructor; assumption | exact IH].
Qed.

(** X26: the realized P&L of a ticker pairs, in the order of the fill times,
    the i-th contract sold with the i-th contract bought and adds up the
    price differences; when as many contracts were sold as bought it is the
    cents received for the sales minus the cents paid for the purchases, in
    whatever order the fills are listed. *)
Theorem realized_fifo (fills : list Fill) :
  Forall (fun f => 1 <= fill_count f) fills ->
  let sorted := PySort.sorted_by created_time fills in
  realized fills
  = sum_Z (zip_with Z.sub (units (queue SELL sorted)) (units (queue BUY sorted)))
  /\
  (contracts_of BUY fills = contracts_of SELL fills ->
   realized fills = cents_of SELL fills - cents_of BUY fills).
Proof.
  intros Hc sorted.
  assert (Hperm : sorted ≡ₚ fills) by apply sorted_by_perm.
  assert (Hcs : Forall (fun f => 1 <= fill_count f) sorted)
    by now rewrite Hperm.
  pose proof (queue_counts BUY sorted Hcs) as Hb.
  pose proof (queue_counts SELL sorted Hcs) as Hs.
  assert (Hr : realized fills
               = sum_Z (zip_with Z.sub (units (queue SELL sorted))
                          (units (queue BUY sorted)))).
  { unfold realized. fold sorted. rewrite match_fifo_units by assumption. lia. }
  split; [exact Hr|].
  intros Hflat. rewrite Hr.
  unfold contracts_of, cents_of in *.
  rewrite <- (sum_Z_perm _ _ (fmap_Permutation snd _ _ (queue_perm BUY _ _ Hperm)))
    in Hflat.
  rewrite <- (sum_Z_perm _ _ (fmap_Permutation snd _ _ (queue_perm SELL _ _ Hperm)))
    in Hflat.
  rewrite <- (sum_Z_perm _ _ (fmap_Permutation (fun pc => pc.1 * pc.2) _ _
                                (queue_perm BUY _ _ Hperm))).
  rewrite <- (sum_Z_perm _ _ (fmap_Permutation (fun pc => pc.1 * pc.2) _ _
                                (queue_perm SELL _ _ Hperm))).
  rewrite sum_zip_sub.
  - now rewrite !units_sum.
  - apply Nat2Z.inj. rewrite !units_length by assumption. lia.
Qed.

Lemma realized_fifo_witness :
  realized round_trip_fills = (50 * 10 + 55 * 5) - (40 * 10 + 42 * 5).
Proof.
  destruct (realized_fifo round_trip_fills) as [_ Hflat].
  - unfold round_trip_fills. repeat constructor; simpl; lia.
  - rewrite Hflat by reflexivity. reflexivity.
Defined.

End PnLProps.

(** ** src/core/client.py: the retry loop *)

Section RetryProps.
Import KalshiClient.

Lemma handle_response_cases (status : Z) (insufficient : bool)
    (retry_after : option Q) :
  (status = 200 /\ _handle_response status insufficient retry_after = None) \/
  (status = 429 /\
   _handle_response status insufficient retry_after
   = Some (RateLimitError retry_after)) \/
  (status <> 200 /\ status <> 429 /\
   exists e, _handle_response status insufficient retry_after = Some e /\
             (forall ra, e <> RateLimitError ra) /\
             (forall n, e <> RequestFailed n)).
Proof.
  unfold _handle_response.
  destruct (Z.eqb_spec status 200); [left; auto|].
  destruct (Z.eqb_spec status 401);
    [right; right; repeat split; try lia; eexists; repeat split; discriminate|].
  destruct (Z.eqb_spec status 429); [right; left; auto|].
  right; right. split; [assumption|]. split; [assumption|].
  destruct (Z.eqb_spec status 400);
    [destruct insufficient; eexists; repeat split; discriminate|].
  destruct (Z.eqb_spec status 403); [eexists; repeat split; discriminate|].
  destruct (Z.eqb_spec status 404); eexists; repeat split; discriminate.
Qed.

Lemma attempts_from_spec (oracle : nat -> Attempt) (retries remaining attempt : nat) :
  let out := (attempts_from oracle retries remaining attempt).1 in
  let waits := (attempts_from oracle retries remaining attempt).2 in
  (length waits <= remaining)%nat /\
  (out = Some (RequestFailed retries) <->
   forall j, (j < remaining)%nat -> retried (oracle (attempt + j)%nat) = true) /\
  (out = Some (RequestFailed retries) -> length waits = remaining) /\
  (out = None <->
   exists k, (k < remaining)%nat /\
     (forall j, (j < k)%nat -> retried (oracle (attempt + j)%nat) = true) /\
     succeeded (oracle (attempt + k)%nat) = true) /\
  (no_retry_after oracle -> waits = backoff <$> seq attempt (length waits)).
Proof.
  revert attempt. induction remaining as [|remaining IH]; intros attempt.
  - cbn. split; [lia|]. split; [split; [intros _ j Hj; lia | reflexivity]|].
    split; [reflexivity|]. split; [|reflexivity].
    split; [discriminate | intros (k & Hk & _); lia].
  - cbn [attempts_from].
    assert (Hshift : forall j, (attempt + S j = S attempt + j)%nat) by (intros; lia).
    destruct (IH (S attempt)) as (Hlen & Hfail & Hfull & Hok & Hwaits).
    assert (Hretry : retried (oracle attempt) = true ->
      forall w,
      let out := (attempts_from oracle retries remaining (S attempt)).1 in
      let waits := w :: (attempts_from oracle retries remaining (S attempt)).2 in
      (length waits <= S remaining)%nat /\
      (out = Some (RequestFailed retries) <->
       forall j, (j < S remaining)%nat -> retried (oracle (attempt + j)%nat) = true) /\
      (out = Some (RequestFailed retries) -> length waits = S remaining) /\
      (out = None <->
       exists k, (k < S remaining)%nat /\
         (forall j, (j < k)%nat -> retried (oracle (attempt + j)%nat) = true) /\
         succeeded (oracle (attempt + k)%nat) = true)).
    { intros Hr w. cbn [length]. split; [lia|]. split; [|split].
      - rewrite Hfail. split.
        + intros H [|j] Hj; [now rewrite Nat.add_0_r|].
          rewrite Hshift. apply H. lia.
        + intros H j Hj. rewrite <- Hshift. apply H. lia.
      - intros H. rewrite (Hfull H). reflexivity.
      - rewrite Hok. split.
        + intros (k & Hk & Hall & Hs). exists (S k). split; [lia|]. split.
          * intros [|j] Hj; [now rewrite Nat.add_0_r|].
            rewrite Hshift. apply Hall. lia.
          * now rewrite Hshift.
        + intros ([|k] & Hk & Hall & Hs).
          * rewrite Nat.add_0_r in Hs.
            destruct (oracle attempt) as [st ins ra| |]; simpl in *;
              try discriminate.
            apply Z.eqb_eq in Hr, Hs. lia.
          * exists k. split; [lia|]. split.
            -- intros j Hj. rewrite <- Hshift. apply Hall. lia.
            -- now rewrite <- Hshift. }
    assert (Hfinal : retried (oracle attempt) = false ->
      forall out,
      (out = None <-> succeeded (oracle attempt) = true) ->
      out <> Some (RequestFailed retries) ->
      (length (@nil Q) <= S remaining)%nat /\
      (out = Some (RequestFailed retries) <->
       forall j, (j < S remaining)%nat -> retried (oracle (attempt + j)%nat) = true) /\
      (out = Some (RequestFailed retries) -> length (@nil Q) = S remaining) /\
      (out = None <->
       exists k, (k < S remaining)%nat /\
         (forall j, (j < k)%nat -> retried (oracle (attempt + j)%nat) = true) /\
         succeeded (oracle (attempt + k)%nat) = true) /\
      (no_retry_after oracle -> @nil Q = backoff <$> seq attempt (length (@nil Q)))).
    { intros Hr out Hout Hne. split; [simpl; lia|]. split; [|split; [|split]].
      - split; [contradiction|]. intros H. specialize (H 0%nat ltac:(lia)).
        rewrite Nat.add_0_r in H. congruence.
      - contradiction.
      - rewrite Hout. split.
        + intros Hs. exists 0%nat. split; [lia|]. split; [intros j Hj; lia|].
          now rewrite Nat.add_0_r.
        + intros ([|k] & Hk & Hall & Hs); [now rewrite Nat.add_0_r in Hs|].
          specialize (Hall 0%nat ltac:(lia)). rewrite Nat.add_0_r in Hall.
          congruence.
      - reflexivity. }
    destruct (oracle attempt) as [status ins ra| |] eqn:Eo.
    + destruct (handle_response_cases status ins ra)
        as [[Hst He]|[[Hst He]|(H200 & H429 & e & He & Hnr & Hnf)]]; rewrite He.
      * cbn [fst snd]. apply Hfinal.
        -- simpl. apply Z.eqb_neq. lia.
        -- simpl. split; [intros _; apply Z.eqb_eq; exact Hst | reflexivity].
        -- discriminate.
      * cbn [fst snd].
        assert (Hr : retried (Responded status ins ra) = true)
          by (simpl; apply Z.eqb_eq; exact Hst).
        match goal with
        | |- context [?w :: _] => destruct (Hretry Hr w) as (G1 & G2 & G3 & G4)
        end.
        split; [exact G1|]. split; [exact G2|]. split; [exact G3|].
        split; [exact G4|].
        intros Hno. cbn [length seq fmap list_fmap]. f_equal.
        -- destruct ra as [r|]; [|reflexivity].
           now rewrite (Hno attempt status ins r Eo).
        -- apply (Hwaits Hno).
      * assert (Hcase : (match e with
                         | RateLimitError ra0 =>
                             ((attempts_from oracle retries remaining (S attempt)).1,
                              match ra0 with
                              | Some r => if Qeq_bool r 0 then backoff attempt else r
                              | None => backoff attempt
                              end :: (attempts_from oracle retries remaining (S attempt)).2)
                         | _ => (Some e, [])
                         end) = (Some e, [])).
        { destruct e; try reflexivity. exfalso. eapply Hnr. reflexivity. }
        rewrite Hcase. cbn [fst snd]. apply Hfinal.
        -- simpl. apply Z.eqb_neq. exact H429.
        -- simpl. split; [discriminate|]. intros Hs. apply Z.eqb_eq in Hs. lia.
        -- intros [= H]. eapply Hnf. exact H.
    + cbn [fst snd].
      destruct (Hretry eq_refl (backoff attempt)) as (G1 & G2 & G3 & G4).
      split; [exact G1|]. split; [exact G2|]. split; [exact G3|].
      split; [exact G4|].
      intros Hno. cbn [length seq fmap list_fmap]. f_equal. apply (Hwaits Hno).
    + cbn [fst snd]. apply Hfinal; [reflexivity | | discriminate].
      simpl. split; discriminate.
Qed.

(** X27: a request is attempted at most three times (once without retry) and
    only a 429 or a network failure leads to the next attempt: it returns
    exactly when the first attempt that is neither is a 200 and comes within
    the allowed attempts, and fails with "Request failed after n attempts"
    exactly when all of them are retried.  Every retried attempt is followed
    by a wait, the last one included, and without a Retry-After header the
    waits are 1, 2 and 4 seconds. *)
Theorem request_retry_policy (oracle : nat -> Attempt) (retry : bool) :
  let retries := if retry then MAX_RETRIES else 1%nat in
  let out := (_request oracle retry).1 in
  let waits := (_request oracle retry).2 in
  (length waits <= retries)%nat /\
  (out = None <->
   exists k, (k < retries)%nat /\
     (forall j, (j < k)%nat -> retried (oracle j) = true) /\
     succeeded (oracle k) = true) /\
  (out = Some (RequestFailed retries) <->
   forall j, (j < retries)%nat -> retried (oracle j) = true) /\
  (out = Some (RequestFailed retries) -> length waits = retries) /\
  (no_retry_after oracle ->
   exists n, (n <= retries)%nat /\ waits = take n [1; 2; 4]%Q).
Proof.
  intros retries out waits. subst out waits. unfold _request. fold retries.
  destruct (attempts_from_spec oracle retries retries 0)
    as (Hlen & Hfail & Hfull & Hok & Hwaits).
  split; [exact Hlen|]. split; [exact Hok|]. split; [exact Hfail|].
  split; [exact Hfull|].
  intros Hno. specialize (Hwaits Hno).
  set (w := (attempts_from oracle retries retries 0).2) in *.
  exists (length w). split; [exact Hlen|].
  rewrite Hwaits at 1.
  assert (Hb : (length w <= 3)%nat)
    by (clear Hwaits; subst retries; destruct retry; unfold MAX_RETRIES in *; lia).
  destruct (length w) as [|[|[|[|n]]]]; try reflexivity. lia.
Qed.

Lemma request_retry_policy_witness :
  (_request flaky_network true).1 = None /\
  (_request flaky_network true).2 = [1; 2]%Q.
Proof.
  destruct (request_retry_policy flaky_network true) as (_ & Hok & _).
  split; [|reflexivity].
  apply Hok. exists 2%nat. split; [unfold MAX_RETRIES; lia|].
  split; [|reflexivity].
  intros [|[|j]] Hj; try reflexivity. lia.
Defined.

End RetryProps.

(** ** src/bot/engine.py: from an opportunity to a recorded win *)

Section PipelineProps.
Import Models Engine.

Lemma adjust_legs_one (legs : list ArbitrageLeg) :
  Forall (fun leg => 1 <= leg_price leg <= 99) legs ->
  OrderManager.adjust_legs legs 1 = Py.Return (one_contract <$> legs).
Proof.
  induction 1 as [|leg rest Hp Hrest IH]; [reflexivity|].
  cbn [OrderManager.adjust_legs]. unfold new_ArbitrageLeg.
  destruct (Z.leb_spec 1 (leg_price leg)); [|lia].
  destruct (Z.leb_spec (leg_price leg) 99); [|lia].
  change (1 <=? 1) with true. cbn [negb andb mbind outcome_bind Py.bind].
  rewrite IH. reflexivity.
Qed.

(** X28: the whole path of one opportunity.  When the breaker grants the
    request, the gate approves one contract, the opportunity is still valid
    on the books of the order book manager, its legs have valid prices on
    pairwise different tickers and the venue fills each of them for one
    contract, then [_handle_opportunity] appends a successful result whose
    profit is the opportunity's net profit per contract, under the id of the
    new order group; for a profitable opportunity the breaker records a win:
    no consecutive losses, the daily loss as before, and CLOSED. *)
Theorem handle_opportunity_success (e : Engine.t) (v : OrderManager.Venue)
    (fresh_id : string) (opp : ArbitrageOpportunity) (now_check now_record : Z) :
  1 <= max_quantity opp ->
  0 < net_profit_cents opp ->
  (CircuitBreaker.check_and_allow (circuit_breaker e) now_check).1 = inl true ->
  ExposureManager.allowed
    (ExposureManager.check_trade (exposure_manager e) opp 1) = true ->
  Executor.detector_validate (executor e) opp
    (OrderbookManager.get_all_orderbooks
       (Executor.orderbook_manager (executor e))) = true ->
  Forall (fun leg => 1 <= leg_price leg <= 99) (legs opp) ->
  NoDup (leg_ticker <$> legs opp) ->
  Forall (fun leg => fills_leg v fresh_id (one_contract leg)) (legs opp) ->
  let e' := _handle_opportunity e v fresh_id opp now_check now_record in
  exists r,
    Executor._execution_history (executor e')
      = r :: Executor._execution_history (executor e) /\
    Executor.success r = true /\
    Executor.profit_cents r = net_profit_cents opp /\
    Executor.order_group_id r = Some fresh_id /\
    CircuitBreaker.consecutive_losses (CircuitBreaker._metrics (circuit_breaker e')) = 0 /\
    CircuitBreaker.daily_loss_cents (CircuitBreaker._metrics (circuit_breaker e'))
      = CircuitBreaker.daily_loss_cents (CircuitBreaker._metrics (circuit_breaker e)) /\
    CircuitBreaker._state (circuit_breaker e') = CircuitBreaker.CLOSED.
Proof.
  intros Hmax Hnet Hgrant Ha Hvalid Hprices Hnd Hfills e'. subst e'.
  unfold _handle_opportunity.
  pose proof (check_and_allow_granted (circuit_breaker e) now_check true Hgrant)
    as Hg.
  destruct (CircuitBreaker.check_and_allow (circuit_breaker e) now_check)
    as [[x|err] b1]; [|discriminate].
  cbn [fst snd] in Hg. destruct Hg as (_ & Hst & Hm & _).
  rewrite Ha. cbn [negb]. rewrite (allowed_max_quantity _ _ _ Ha).
  rewrite Z.min_r by lia.
  unfold Executor.execute, Executor._execute_internal.
  rewrite Hvalid. cbn [negb andb].
  assert (Heff : Executor.effective_quantity opp (Some 1) = 1).
  { unfold Executor.effective_quantity. simpl. lia. }
  rewrite Heff. cbn [Z.leb Z.compare].
  unfold OrderManager.create_order_group.
  rewrite Z.min_l by lia. rewrite (adjust_legs_one _ Hprices).
  change {| OrderManager.group_id := fresh_id;
            OrderManager.group_opportunity_id := id opp;
            OrderManager.group_legs := one_contract <$> legs opp;
            OrderManager.orders := ∅;
            OrderManager.group_status := OrderManager.PENDING;
            OrderManager.group_error := None |}
    with (new_group fresh_id (id opp) (one_contract <$> legs opp)).
  match goal with
  | |- context [OrderManager.submit_order_group ?om1 v ?g] =>
      pose proof (submit_group_complete om1 v fresh_id (id opp)
                    (one_contract <$> legs opp)) as Hc;
        pose proof (submit_order_group_groups om1 v g) as Hgr;
        destruct (OrderManager.submit_order_group om1 v g) as [g' om2]
  end.
  cbn [fst] in Hc. destruct Hgr as (_ & Hid & _). cbn in Hid.
  assert (Hcomplete : OrderManager.group_status g' = OrderManager.COMPLETE).
  { apply Hc. split.
    - rewrite <- list_fmap_compose.
      replace (leg_ticker ∘ one_contract) with leg_ticker by reflexivity.
      exact Hnd.
    - apply Forall_fmap. exact Hfills. }
  rewrite Hcomplete.
  cbn [Executor.success Executor.profit_cents Executor.record
       Executor._execution_history executor circuit_breaker].
  eexists. split; [reflexivity|].
  cbn [Executor.success Executor.profit_cents Executor.order_group_id].
  split; [reflexivity|]. split; [lia|]. split; [now rewrite Hid|].
  unfold CircuitBreaker.record_trade_result.
  destruct (Z.ltb_spec (net_profit_cents opp * 1) 0); [lia|].
  cbn.
  destruct (CircuitBreaker._state b1) eqn:Es; cbn; rewrite ?Es, Hm; auto.
  congruence.
Qed.

Lemma handle_opportunity_success_witness :
  exists r,
    Executor._execution_history
      (executor (_handle_opportunity engine_example filling_venue "g"
                   two_leg_opportunity 0 1)) = [r] /\
    Executor.success r = true /\ Executor.profit_cents r = 9.
Proof.
  destruct (handle_opportunity_success engine_example filling_venue "g"
              two_leg_opportunity 0 1) as (r & Hh & Hs & Hp & _).
  - vm_compute. discriminate.
  - reflexivity.
  - reflexivity.
  - vm_compute. reflexivity.
  - reflexivity.
  - repeat constructor; simpl; lia.
  - apply (bool_decide_unpack _). vm_compute. exact I.
  - repeat constructor; eexists; split; reflexivity.
  - exists r. repeat split; assumption.
Defined.

End PipelineProps.

(** ** src/arbitrage/strategies/correlated.py and multioutcome.py *)

Section ExcludesProps.
Import Models.

(** X29: on two markets with different tickers and well-formed books, the
    detector for mutually exclusive markets and the multi-outcome detector
    agree: neither raises, they return an opportunity for the same books,
    and the two opportunities have the same legs, total cost, guaranteed
    return, gross profit, fees, net profit and maximum quantity (they differ
    in type, event ticker and confidence). *)
Theorem excludes_agrees_with_multi_outcome (min_profit : Z)
    (id1 id2 : string) (now1 now2 : Z) (ma mb : Market) (oa ob : Orderbook) :
  ticker ma <> ticker mb ->
  orderbook_ok oa = true -> orderbook_ok ob = true ->
  match CorrelatedStrategy.detect_excludes (CorrelatedStrategy.init min_profit)
          id1 now1 ma mb oa ob,
        MultiOutcomeStrategy.detect (MultiOutcomeStrategy.init min_profit 2 10)
          id2 now2 [ma; mb] (books_of [(ma, oa); (mb, ob)]) with
  | Py.Return (Some o1), Py.Return (Some o2) =>
      legs o1 = legs o2 /\
      total_cost_cents o1 = total_cost_cents o2 /\
      guaranteed_return_cents o1 = guaranteed_return_cents o2 /\
      gross_profit_cents o1 = gross_profit_cents o2 /\
      estimated_fees_cents o1 = estimated_fees_cents o2 /\
      net_profit_cents o1 = net_profit_cents o2 /\
      max_quantity o1 = max_quantity o2 /\
      type o1 = CORRELATED /\ type o2 = MULTI_OUTCOME
  | Py.Return None, Py.Return None => True
  | _, _ => False
  end.
Proof.
  intros Hne Hoka Hokb.
  set (mbs := [(ma, oa); (mb, ob)]).
  assert (Hnd : NoDup (ticker <$> mbs.*1)).
  { simpl. apply NoDup_cons. split; [|apply NoDup_singleton].
    intros H. apply list_elem_of_singleton in H. contradiction. }
  assert (Hla : books_of mbs !! ticker ma = Some oa)
    by (apply (books_of_lookup mbs (ma, oa) Hnd); left; reflexivity).
  assert (Hlb : books_of mbs !! ticker mb = Some ob)
    by (apply (books_of_lookup mbs (mb, ob) Hnd); right; left; reflexivity).
  unfold CorrelatedStrategy.detect_excludes, MultiOutcomeStrategy.detect.
  cbn [MultiOutcomeStrategy.min_markets MultiOutcomeStrategy.max_markets
       MultiOutcomeStrategy.min_profit_cents MultiOutcomeStrategy.calculator
       MultiOutcomeStrategy.init CorrelatedStrategy.min_profit_cents
       CorrelatedStrategy.calculator CorrelatedStrategy.init].
  change (MultiOutcomeStrategy.len [ma; mb] <? 2) with false.
  change (10 <? MultiOutcomeStrategy.len [ma; mb]) with false.
  cbv iota.
  destruct (best_yes_ask oa) as [a|] eqn:Ea.
  2:{ cbn [MultiOutcomeStrategy.build_legs]. rewrite Hla, Ea. exact I. }
  pose proof (best_yes_ask_range oa a Hoka Ea) as Hra.
  assert (Hlega : new_ArbitrageLeg (ticker ma) YES BUY a 1
                  = Py.Return (yes_leg ma a)).
  { unfold new_ArbitrageLeg.
    destruct (Z.leb_spec 1 a); [|lia]. destruct (Z.leb_spec a 99); [|lia].
    reflexivity. }
  destruct (best_yes_ask ob) as [b|] eqn:Eb.
  2:{ cbn [MultiOutcomeStrategy.build_legs]. rewrite Hla, Ea.
      destruct (yes_ask_quantity oa <=? 0); [exact I|].
      rewrite Hlega. cbn [mbind outcome_bind Py.bind].
      cbn [MultiOutcomeStrategy.build_legs]. rewrite Hlb, Eb. exact I. }
  pose proof (best_yes_ask_range ob b Hokb Eb) as Hrb.
  assert (Hlegb : new_ArbitrageLeg (ticker mb) YES BUY b 1
                  = Py.Return (yes_leg mb b)).
  { unfold new_ArbitrageLeg.
    destruct (Z.leb_spec 1 b); [|lia]. destruct (Z.leb_spec b 99); [|lia].
    reflexivity. }
  rewrite Hlega, Hlegb. cbn [mbind outcome_bind Py.bind].
  assert (Hfees : Calculator.calculate_total_fees (Calculator.init None)
                    [yes_leg ma a; yes_leg mb b] = 1).
  { rewrite default_total_fees; [reflexivity|].
    repeat constructor; simpl; lia. }
  rewrite Hfees.
  destruct (Z.leb_spec (yes_ask_quantity oa) 0) as [Hqa|Hqa].
  { cbn [MultiOutcomeStrategy.build_legs]. rewrite Hla, Ea.
    destruct (Z.leb_spec (yes_ask_quantity oa) 0); [|lia].
    cbn [mbind outcome_bind Py.bind].
    destruct (100 <=? a + b); [exact I|].
    destruct (100 - (a + b) - 1 <? min_profit); [exact I|].
    destruct (Z.leb_spec (Z.min (yes_ask_quantity oa) (yes_ask_quantity ob)) 0);
      [exact I | lia]. }
  destruct (Z.leb_spec (yes_ask_quantity ob) 0) as [Hqb|Hqb].
  { cbn [MultiOutcomeStrategy.build_legs]. rewrite Hla, Ea.
    destruct (Z.leb_spec (yes_ask_quantity oa) 0); [lia|].
    rewrite Hlega. cbn [mbind outcome_bind Py.bind].
    cbn [MultiOutcomeStrategy.build_legs]. rewrite Hlb, Eb.
    destruct (Z.leb_spec (yes_ask_quantity ob) 0); [|lia].
    cbn [mbind outcome_bind Py.bind].
    destruct (100 <=? a + b); [exact I|].
    destruct (100 - (a + b) - 1 <? min_profit); [exact I|].
    destruct (Z.leb_spec (Z.min (yes_ask_quantity oa) (yes_ask_quantity ob)) 0);
      [exact I | lia]. }
  assert (Hq : forall x, In x mbs -> quoted x).
  { intros x [<-|[<-|[]]]; (split; [assumption|]); (split; [eauto | assumption]). }
  assert (Hlook : forall x, In x mbs ->
            books_of mbs !! ticker x.1 = Some x.2 /\ quoted x).
  { intros x Hx. split; [now apply books_of_lookup | now apply Hq]. }
  change [ma; mb] with (mbs.*1).
  rewrite (build_legs_quoted _ _ _ _ _ Hlook).
  cbn [mbind outcome_bind Py.bind app].
  assert (Hasks : 0 + sum_Z (asks mbs) = a + b).
  { unfold asks, mbs, yes_ask. cbn [fmap list_fmap snd]. rewrite Ea, Eb.
    rewrite !sum_Z_cons. unfold sum_Z. simpl. lia. }
  rewrite Hasks.
  assert (Hlegs : expected_legs mbs = [yes_leg ma a; yes_leg mb b]).
  { unfold expected_legs, mbs, yes_ask. cbn [fmap list_fmap fst snd].
    rewrite Ea, Eb. reflexivity. }
  rewrite Hlegs, Hfees.
  unfold MultiOutcomeStrategy.GUARANTEED_PAYOUT.
  destruct (100 <=? a + b); [exact I|].
  destruct (100 - (a + b) - 1 <? min_profit); [exact I|].
  destruct (Z.leb_spec (Z.min (yes_ask_quantity oa) (yes_ask_quantity ob)) 0);
    [lia|].
  rewrite (min_values_after_loop mbs (ma, oa) [(mb, ob)] eq_refl Hnd).
  cbn [mbind outcome_bind Py.bind].
  assert (Hmin : minimum (quantities mbs)
                 = Z.min (yes_ask_quantity oa) (yes_ask_quantity ob)).
  { unfold minimum, quantities, mbs. cbn. lia. }
  rewrite Hmin.
  unfold new_ArbitrageOpportunity.
  destruct (Z.leb_spec 1 (Z.min (yes_ask_quantity oa) (yes_ask_quantity ob)));
    [|lia].
  cbn [negb].
  change (Qle_bool 0 (85 # 100) && Qle_bool (85 # 100) 1) with true.
  rewrite (confidence_in_range mbs (ma, oa) [(mb, ob)] eq_refl Hnd Hq).
  cbn [negb mbind outcome_bind Py.bind].
  cbn [legs total_cost_cents guaranteed_return_cents gross_profit_cents
       estimated_fees_cents net_profit_cents max_quantity type].
  repeat split; reflexivity.
Qed.

Lemma excludes_agrees_with_multi_outcome_witness :
  exists o1 o2,
    CorrelatedStrategy.detect_excludes (CorrelatedStrategy.init 2) "c" 0
      (scenario_market "EVENT-A") (scenario_market "EVENT-B")
      (scenario_book "EVENT-A" 60 100) (scenario_book "EVENT-B" 70 50)
      = Py.Return (Some o1) /\
    MultiOutcomeStrategy.detect (MultiOutcomeStrategy.init 2 2 10) "m" 0
      [scenario_market "EVENT-A"; scenario_market "EVENT-B"]
      (books_of [(scenario_market "EVENT-A", scenario_book "EVENT-A" 60 100);
                 (scenario_market "EVENT-B", scenario_book "EVENT-B" 70 50)])
      = Py.Return (Some o2) /\
    net_profit_cents o1 = net_profit_cents o2 /\
    max_quantity o1 = max_quantity o2.
Proof.
  assert (E1 : exists o1,
             CorrelatedStrategy.detect_excludes (CorrelatedStrategy.init 2) "c" 0
               (scenario_market "EVENT-A") (scenario_market "EVENT-B")
               (scenario_book "EVENT-A" 60 100) (scenario_book "EVENT-B" 70 50)
             = Py.Return (Some o1))
    by (eexists; vm_compute; reflexivity).
  assert (E2 : exists o2,
             MultiOutcomeStrategy.detect (MultiOutcomeStrategy.init 2 2 10) "m" 0
               [scenario_market "EVENT-A"; scenario_market "EVENT-B"]
               (books_of [(scenario_market "EVENT-A", scenario_book "EVENT-A" 60 100);
                          (scenario_market "EVENT-B", scenario_book "EVENT-B" 70 50)])
             = Py.Return (Some o2))
    by (eexists; vm_compute; reflexivity).
  destruct E1 as [o1 E1]. destruct E2 as [o2 E2].
  pose proof (excludes_agrees_with_multi_outcome 2 "c" "m" 0 0
                (scenario_market "EVENT-A") (scenario_market "EVENT-B")
                (scenario_book "EVENT-A" 60 100) (scenario_book "EVENT-B" 70 50))
    as H.
  rewrite E1, E2 in H.
  destruct H as (_ & _ & _ & _ & _ & Hn & Hm & _).
  - intros Heq. discriminate Heq.
  - reflexivity.
  - reflexivity.
  - exists o1, o2. repeat split; assumption.
Defined.

End ExcludesProps.
